(** * pyBAR: FE-I4 register/command tables and the run orchestration engine

    Shallow embedding of [pybar/fei4/fei4_defines.py] and of the class
    [Fei4RunBase] of [pybar/fei4_run_base.py], with the properties of the
    register layout, the command templates, module-group derivation, the
    scan life cycle, readout registration, fault handling and per-module
    attribute routing. *)

From Stdlib Require Import Ascii String.
From stdpp Require Import gmap strings list fin_maps.

Local Open Scope string_scope.
Local Open Scope list_scope.
Local Open Scope nat_scope.

(** ** Register and command tables ([fei4_defines.py]) *)

Module Fei4Defines.

(** An entry of the ['commands'] dict.  The five "parts" entries
    ([ChipID], [Address], ...) carry no ['bitstream'] key. *)
Record command := mk_command {
  bitstream : option string;
  cmd_bitlength : nat
}.

(** [fei4a['commands']], lines 16-37 (descriptions dropped).  [fei4b] is
    [dict(fei4a)] updated on ['flavor'] and ['global_registers'] only, so it
    shares this very table. *)
Definition commands : list (string * command) :=
  [ ("LV1", mk_command (Some "11101") 5);
    ("BCR", mk_command (Some "101100001") 9);
    ("ECR", mk_command (Some "101100010") 9);
    ("CAL", mk_command (Some "101100100") 9);
    ("Slow", mk_command (Some "101101000") 9);
    ("RdRegister", mk_command (Some "Slow+0001+ChipID+Address") 23);
    ("WrRegister", mk_command (Some "Slow+0010+ChipID+Address+GlobalData") 39);
    ("WrFrontEnd", mk_command (Some "Slow+0100+ChipID+000000+PixelData") 695);
    ("GlobalReset", mk_command (Some "Slow+1000+ChipID") 17);
    ("GlobalPulse", mk_command (Some "Slow+1001+ChipID+Width") 23);
    ("RunMode", mk_command (Some "Slow+1010+ChipID+111000") 23);
    ("ConfMode", mk_command (Some "Slow+1010+ChipID+000111") 23);
    ("ChipID", mk_command None 4);
    ("Address", mk_command None 6);
    ("GlobalData", mk_command None 16);
    ("PixelData", mk_command None 672);
    ("Width", mk_command None 6) ].

(** Lookup in a dict literal written as a list of items. *)
Fixpoint dict_get {V} (name : string) (d : list (string * V)) : option V :=
  match d with
  | [] => None
  | (k, v) :: d' => if decide (k = name) then Some v else dict_get name d'
  end.

Definition get_command (name : string) : option command :=
  dict_get name commands.

(** The templates: the entries that have a ['bitstream']. *)
Definition templates : list (string * command) :=
  filter (λ e, is_Some (bitstream e.2)) commands.

(** Python's [s.split('+')]. *)
Fixpoint split_plus_aux (acc : string) (s : string) : list string :=
  match s with
  | EmptyString => [acc]
  | String c s' =>
      if Ascii.eqb c "+"%char then acc :: split_plus_aux "" s'
      else split_plus_aux (acc +:+ String c "") s'
  end.

Definition split_plus (s : string) : list string := split_plus_aux "" s.

Definition is_bit (c : ascii) : bool :=
  Ascii.eqb c "0"%char || Ascii.eqb c "1"%char.

Fixpoint all_bits (s : string) : bool :=
  match s with
  | EmptyString => true
  | String c s' => is_bit c && all_bits s'
  end.

(** Modelled from the spec: the encoder that reads a template
    ([pybar/fei4/register.py]) is not among the sources.  Following the
    CommandTemplate of the data model, a template is an ordered sequence of
    segments separated by [+]; a segment that names an entry of the table
    (the [Slow] header or a field) contributes that entry's declared bit
    length, a literal run of [0]/[1] contributes its own length, and anything
    else has no length. *)
Definition segment_length (seg : string) : option nat :=
  match get_command seg with
  | Some c => Some (cmd_bitlength c)
  | None => if all_bits seg then Some (String.length seg) else None
  end.

Fixpoint sum_segments (segs : list string) : option nat :=
  match segs with
  | [] => Some 0
  | seg :: rest =>
      n ← segment_length seg;
      m ← sum_segments rest;
      Some (n + m)
  end.

Definition template_length (c : command) : option nat :=
  s ← bitstream c; sum_segments (split_plus s).

(** An entry of a ['global_registers'] dict.  ['offset'] is an optional
    key; the three flags are [True] wherever the source has the key and count
    as [False] where it is absent. *)
Record global_register := mk_greg {
  value : N;
  address : nat;
  bitlength : nat;
  offset : option nat;
  littleendian : bool;
  register_littleendian : bool;
  readonly : bool
}.

#[global] Instance global_register_eq_dec : EqDecision global_register.
Proof. solve_decision. Defined.

(** An entry without an ['offset'] key starts at bit 0 of its address word. *)
Definition bit_offset (r : global_register) : nat := default 0 (offset r).

(** Width of a global-register address word (the [GlobalData] field). *)
Definition word_width : nat := 16.

(** [fei4a[global_registers]], lines 38-140. *)
Definition fei4a_global_registers : list (string * global_register) :=
  [
    ("spare_1", mk_greg 0 1 16 None false false true);
    ("spare_2", mk_greg 0 2 11 None false false true);
    ("Conf_AddrEnable", mk_greg 1 2 1 (Some 11) false false false);
    ("Trig_Count", mk_greg 0 2 4 (Some 12) false false false);
    ("ErrorMask", mk_greg 4292872191 3 32 None false false false);
    ("Vthin", mk_greg 255 5 8 None true false false);
    ("PrmpVbp_R", mk_greg 43 5 8 (Some 8) true false false);
    ("PrmpVbp", mk_greg 43 6 8 None true false false);
    ("DisVbn_CPPM", mk_greg 62 6 8 (Some 8) true false false);
    ("DisVbn", mk_greg 40 7 8 None true false false);
    ("TdacVbp", mk_greg 240 7 8 (Some 8) true false false);
    ("Amp2VbpFol", mk_greg 26 8 8 None true false false);
    ("Amp2Vbn", mk_greg 79 8 8 (Some 8) true false false);
    ("Amp2Vbp", mk_greg 85 9 8 None true false false);
    ("PrmpVbp_T", mk_greg 0 9 8 (Some 8) true false false);
    ("Amp2Vbpff", mk_greg 50 10 8 None true false false);
    ("FdacVbn", mk_greg 15 10 8 (Some 8) true false false);
    ("PrmpVbp_L", mk_greg 43 11 8 None true false false);
    ("PrmpVbnFol", mk_greg 106 11 8 (Some 8) true false false);
    ("PrmpVbnLcc", mk_greg 0 12 8 None true false false);
    ("PrmpVbpf", mk_greg 27 12 8 (Some 8) true false false);
    ("spare_13", mk_greg 0 13 1 None false false true);
    ("Pixel_Strobes", mk_greg 0 13 13 (Some 1) true false false);
    ("S0", mk_greg 0 13 1 (Some 14) false false false);
    ("S1", mk_greg 0 13 1 (Some 15) false false false);
    ("BonnDac", mk_greg 237 14 8 None true false false);
    ("LvdsDrvIref", mk_greg 171 14 8 (Some 8) true false false);
    ("LvdsDrvVos", mk_greg 105 15 8 None true false false);
    ("PllIbias", mk_greg 88 15 8 (Some 8) true false false);
    ("PllIcp", mk_greg 28 16 8 None true false false);
    ("TempSensIbias", mk_greg 0 16 8 (Some 8) true false false);
    ("PlsrIdacRamp", mk_greg 180 17 8 None true false false);
    ("spare_17", mk_greg 0 17 8 (Some 8) false false true);
    ("PlsrVgOpAmp", mk_greg 255 18 8 None true false false);
    ("spare_18", mk_greg 0 18 8 (Some 8) false false true);
    ("spare_19", mk_greg 0 19 8 None false false true);
    ("PlsrDacBias", mk_greg 96 19 8 (Some 8) true false false);
    ("Vthin_AltFine", mk_greg 80 20 8 None true false false);
    ("Vthin_AltCoarse", mk_greg 0 20 8 (Some 8) true false false);
    ("PlsrDAC", mk_greg 0 21 10 None true false false);
    ("DIGHITIN_SEL", mk_greg 0 21 1 (Some 10) false false false);
    ("DINJ_OVERRIDE", mk_greg 0 21 1 (Some 11) false false false);
    ("HITLD_IN", mk_greg 0 21 1 (Some 12) false false false);
    ("spare_21", mk_greg 0 21 3 (Some 13) false false true);
    ("spare_22_0", mk_greg 0 22 2 None false false true);
    ("Colpr_Addr", mk_greg 0 22 6 (Some 2) true false false);
    ("Colpr_Mode", mk_greg 0 22 2 (Some 8) true false false);
    ("spare_22_1", mk_greg 0 22 6 (Some 10) false false true);
    ("DisableColumnCnfg", mk_greg 0 23 40 None true false false);
    ("Trig_Lat", mk_greg 210 25 8 (Some 8) false false false);
    ("HitDiscCnfg", mk_greg 0 26 2 None false false false);
    ("StopModeCnfg", mk_greg 0 26 1 (Some 2) false false false);
    ("CMDcnt", mk_greg 11 26 14 (Some 3) false false false);
    ("SR_Clock", mk_greg 0 27 1 (Some 1) false false false);
    ("Latch_En", mk_greg 0 27 1 (Some 2) false false false);
    ("SR_Clr", mk_greg 0 27 1 (Some 3) false false false);
    ("CalEn", mk_greg 0 27 1 (Some 4) false false false);
    ("GateHitOr", mk_greg 0 27 1 (Some 5) false false false);
    ("spare_27", mk_greg 0 27 5 (Some 6) false false true);
    ("ReadSkipped", mk_greg 0 27 1 (Some 11) false false false);
    ("ReadErrorReq", mk_greg 0 27 1 (Some 12) false false false);
    ("StopClkPulse", mk_greg 0 27 1 (Some 13) false false false);
    ("Efuse_Sense", mk_greg 0 27 1 (Some 14) false false false);
    ("EN_PLL", mk_greg 1 27 1 (Some 15) false false false);
    ("EN_320M", mk_greg 0 28 1 None false false false);
    ("EN_160M", mk_greg 1 28 1 (Some 1) false false false);
    ("CLK0_S2", mk_greg 1 28 1 (Some 2) false false false);
    ("CLK0_S1", mk_greg 0 28 1 (Some 3) false false false);
    ("CLK0_S0", mk_greg 0 28 1 (Some 4) false false false);
    ("CLK1_S2", mk_greg 0 28 1 (Some 5) false false false);
    ("CLK1_S1", mk_greg 0 28 1 (Some 6) false false false);
    ("CLK1_S0", mk_greg 0 28 1 (Some 7) false false false);
    ("EN_80M", mk_greg 0 28 1 (Some 8) false false false);
    ("EN_40M", mk_greg 0 28 1 (Some 9) false false false);
    ("spare_28", mk_greg 0 28 5 (Some 10) false false true);
    ("LvdsDrvSet06", mk_greg 1 28 1 (Some 15) false false false);
    ("LvdsDrvSet12", mk_greg 1 29 1 (Some 0) false false false);
    ("LvdsDrvSet30", mk_greg 1 29 1 (Some 1) false false false);
    ("LvdsDrvEn", mk_greg 1 29 1 (Some 2) false false false);
    ("spare_29_0", mk_greg 0 29 1 (Some 3) false false true);
    ("EmptyRecordCnfg", mk_greg 0 29 8 (Some 4) false false false);
    ("Clk2OutCnfg", mk_greg 0 29 1 (Some 12) false false false);
    ("No8b10b", mk_greg 0 29 1 (Some 13) false false false);
    ("spare_29_1", mk_greg 0 29 2 (Some 14) false false true);
    ("spare_30", mk_greg 0 30 16 None false false true);
    ("spare_31", mk_greg 0 31 4 None false false true);
    ("ExtAnaCalSW", mk_greg 0 31 1 (Some 4) false false false);
    ("ExtDigCalSW", mk_greg 0 31 1 (Some 5) false false false);
    ("PlsrDelay", mk_greg 2 31 6 (Some 6) true false false);
    ("PlsrPwr", mk_greg 1 31 1 (Some 12) false false false);
    ("PlsrRiseUpTau", mk_greg 7 31 3 (Some 13) false false false);
    ("SELB", mk_greg 0 32 40 None false true false);
    ("spare_34", mk_greg 0 34 4 (Some 8) false true true);
    ("Cref", mk_greg 13 34 4 (Some 12) true true false);
    ("Chip_SN", mk_greg 0 35 16 None false false false);
    ("0_64", mk_greg 0 36 64 None false false true);
    ("0010101010101010", mk_greg 10922 40 16 None false false true);
    ("10101010", mk_greg 170 41 8 None false false true);
    ("EOCHLSkipped", mk_greg 0 41 8 (Some 8) false false true);
    ("CMDErrReg", mk_greg 0 42 16 None false false true);
    ("0_336", mk_greg 0 43 336 None false false true)
  ].

(** [fei4b[global_registers]], lines 156-271. *)
Definition fei4b_global_registers : list (string * global_register) :=
  [
    ("spare_0", mk_greg 0 0 16 None false false true);
    ("EventLimit", mk_greg 0 1 8 None true false false);
    ("SmallHitErase", mk_greg 0 1 1 (Some 8) false false false);
    ("spare_1", mk_greg 0 1 7 (Some 9) false false true);
    ("spare_2", mk_greg 0 2 11 None false false true);
    ("Conf_AddrEnable", mk_greg 1 2 1 (Some 11) false false false);
    ("Trig_Count", mk_greg 0 2 4 (Some 12) false false false);
    ("ErrorMask", mk_greg 4292986879 3 32 None false false false);
    ("GADCVref", mk_greg 160 5 8 None true false false);
    ("PrmpVbp_R", mk_greg 43 5 8 (Some 8) true false false);
    ("PrmpVbp", mk_greg 43 6 8 None true false false);
    ("spare_6", mk_greg 0 6 8 (Some 8) false false true);
    ("DisVbn", mk_greg 40 7 8 None true false false);
    ("TdacVbp", mk_greg 100 7 8 (Some 8) true false false);
    ("Amp2VbpFol", mk_greg 26 8 8 None true false false);
    ("Amp2Vbn", mk_greg 79 8 8 (Some 8) true false false);
    ("Amp2Vbp", mk_greg 85 9 8 None true false false);
    ("spare_9", mk_greg 0 9 8 (Some 8) false false true);
    ("Amp2Vbpff", mk_greg 50 10 8 None true false false);
    ("FdacVbn", mk_greg 30 10 8 (Some 8) true false false);
    ("PrmpVbp_L", mk_greg 43 11 8 None true false false);
    ("PrmpVbnFol", mk_greg 106 11 8 (Some 8) true false false);
    ("PrmpVbnLcc", mk_greg 0 12 8 None true false false);
    ("PrmpVbpf", mk_greg 27 12 8 (Some 8) true false false);
    ("spare_13", mk_greg 0 13 1 None false false true);
    ("Pixel_Strobes", mk_greg 0 13 13 (Some 1) true false false);
    ("S0", mk_greg 0 13 1 (Some 14) false false false);
    ("S1", mk_greg 0 13 1 (Some 15) false false false);
    ("GADCCompBias", mk_greg 100 14 8 None true false false);
    ("LVDSDrvIref", mk_greg 171 14 8 (Some 8) true false false);
    ("LvdsDrvVos", mk_greg 105 15 8 None true false false);
    ("PllIbias", mk_greg 88 15 8 (Some 8) true false false);
    ("PllIcp", mk_greg 28 16 8 None true false false);
    ("TempSensIbias", mk_greg 0 16 8 (Some 8) true false false);
    ("PlsrIdacRamp", mk_greg 180 17 8 None true false false);
    ("spare_17", mk_greg 0 17 8 (Some 8) false false true);
    ("PlsrVgOpAmp", mk_greg 255 18 8 None true false false);
    ("VrefDigTune", mk_greg 100 18 8 (Some 8) true false false);
    ("VrefAnTune", mk_greg 0 19 8 None true false false);
    ("PlsrDacBias", mk_greg 96 19 8 (Some 8) true false false);
    ("Vthin_AltFine", mk_greg 80 20 8 None true false false);
    ("Vthin_AltCoarse", mk_greg 0 20 8 (Some 8) true false false);
    ("PlsrDAC", mk_greg 0 21 10 None true false false);
    ("DIGHITIN_SEL", mk_greg 0 21 1 (Some 10) false false false);
    ("DINJ_OVERRIDE", mk_greg 0 21 1 (Some 11) false false false);
    ("HITLD_IN", mk_greg 0 21 1 (Some 12) false false false);
    ("spare_21", mk_greg 0 21 3 (Some 13) false false true);
    ("spare_22_0", mk_greg 0 22 2 None false false true);
    ("Colpr_Addr", mk_greg 0 22 6 (Some 2) true false false);
    ("Colpr_Mode", mk_greg 0 22 2 (Some 8) true false false);
    ("spare_22_1", mk_greg 0 22 6 (Some 10) false false true);
    ("DisableColumnCnfg", mk_greg 0 23 40 None true false false);
    ("Trig_Lat", mk_greg 210 25 8 (Some 8) false false false);
    ("HitDiscCnfg", mk_greg 0 26 2 None false false false);
    ("StopModeCnfg", mk_greg 0 26 1 (Some 2) false false false);
    ("CMDcnt", mk_greg 11 26 14 (Some 3) false false false);
    ("SR_Clock", mk_greg 0 27 1 (Some 1) false false false);
    ("Latch_En", mk_greg 0 27 1 (Some 2) false false false);
    ("SR_Clr", mk_greg 0 27 1 (Some 3) false false false);
    ("CalEn", mk_greg 0 27 1 (Some 4) false false false);
    ("GateHitOr", mk_greg 0 27 1 (Some 5) false false false);
    ("spare_27_0", mk_greg 0 27 3 (Some 6) false false true);
    ("SR_Read", mk_greg 0 27 1 (Some 9) false false false);
    ("GADCStart", mk_greg 0 27 1 (Some 10) false false false);
    ("spare_27_1", mk_greg 0 27 1 (Some 11) false false true);
    ("ReadErrorReq", mk_greg 0 27 1 (Some 12) false false false);
    ("StopClkPulse", mk_greg 0 27 1 (Some 13) false false false);
    ("Efuse_Sense", mk_greg 0 27 1 (Some 14) false false false);
    ("EN_PLL", mk_greg 1 27 1 (Some 15) false false false);
    ("EN_320M", mk_greg 0 28 1 None false false false);
    ("EN_160M", mk_greg 1 28 1 (Some 1) false false false);
    ("CLK0_S2", mk_greg 1 28 1 (Some 2) false false false);
    ("CLK0_S1", mk_greg 0 28 1 (Some 3) false false false);
    ("CLK0_S0", mk_greg 0 28 1 (Some 4) false false false);
    ("CLK1_S2", mk_greg 0 28 1 (Some 5) false false false);
    ("CLK1_S1", mk_greg 0 28 1 (Some 6) false false false);
    ("CLK1_S0", mk_greg 0 28 1 (Some 7) false false false);
    ("EN_80M", mk_greg 0 28 1 (Some 8) false false false);
    ("EN_40M", mk_greg 0 28 1 (Some 9) false false false);
    ("spare_28", mk_greg 0 28 5 (Some 10) false false true);
    ("LvdsDrvSet06", mk_greg 1 28 1 (Some 15) false false false);
    ("LvdsDrvSet12", mk_greg 1 29 1 (Some 0) false false false);
    ("LvdsDrvSet30", mk_greg 1 29 1 (Some 1) false false false);
    ("LvdsDrvEn", mk_greg 1 29 1 (Some 2) false false false);
    ("spare_29_0", mk_greg 0 29 1 (Some 3) false false true);
    ("EmptyRecordCnfg", mk_greg 0 29 8 (Some 4) false false false);
    ("Clk2OutCnfg", mk_greg 0 29 1 (Some 12) false false false);
    ("No8b10b", mk_greg 0 29 1 (Some 13) false false false);
    ("spare_29_1", mk_greg 0 29 2 (Some 14) false false true);
    ("spare_30", mk_greg 0 30 12 None false false true);
    ("MonleakRange", mk_greg 0 30 1 (Some 12) false false false);
    ("TempSensDisable", mk_greg 1 30 1 (Some 13) false false false);
    ("TempSensDiodeBiasSel", mk_greg 0 30 2 (Some 14) true false false);
    ("GADCSel", mk_greg 0 31 3 None false false false);
    ("spare_31", mk_greg 0 31 1 (Some 3) false false true);
    ("ExtAnaCalSW", mk_greg 0 31 1 (Some 4) false false false);
    ("ExtDigCalSW", mk_greg 0 31 1 (Some 5) false false false);
    ("PlsrDelay", mk_greg 2 31 6 (Some 6) true false false);
    ("PlsrPwr", mk_greg 1 31 1 (Some 12) false false false);
    ("PlsrRiseUpTau", mk_greg 7 31 3 (Some 13) false false false);
    ("SELB", mk_greg 0 32 40 None false true false);
    ("spare_34_0", mk_greg 0 34 3 (Some 8) false true true);
    ("PrmpVbpMsbEn", mk_greg 0 34 1 (Some 11) false true false);
    ("spare_34_1", mk_greg 0 34 4 (Some 12) false true true);
    ("Chip_SN", mk_greg 0 35 16 None false false false);
    ("0_64", mk_greg 0 36 64 None false false true);
    ("GADCSelRB", mk_greg 0 40 3 None true false true);
    ("GADCStatus", mk_greg 0 40 1 (Some 3) false false true);
    ("GADCout", mk_greg 0 40 10 (Some 4) false false true);
    ("00", mk_greg 0 40 2 (Some 14) false false true);
    ("10101010", mk_greg 170 41 8 None false false true);
    ("EOCHLSkipped", mk_greg 0 41 8 (Some 8) false false true);
    ("CMDErrReg", mk_greg 0 42 16 None false false true);
    ("0_336", mk_greg 0 43 336 None false false true)
  ].

Inductive flavor := fei4a | fei4b.

Definition global_registers (f : flavor) : list (string * global_register) :=
  match f with
  | fei4a => fei4a_global_registers
  | fei4b => fei4b_global_registers
  end.

(** The registers wider than what is left of their address word: they
    continue in the following address words. *)
Definition multi_word_registers : list string :=
  ["ErrorMask"; "DisableColumnCnfg"; "CMDcnt"; "SELB"; "0_64"; "0_336"].

Definition fits_in_word (r : global_register) : bool :=
  bool_decide (bit_offset r + bitlength r ≤ word_width).

End Fei4Defines.

(** ** The run engine ([fei4_run_base.py]) *)

Module RunBase.

(** A module handle is a key of [_module_cfgs]: a module id, the name of a
    derived module group, or Python's [None] (the broadcast module). *)
Abbreviation handle := (option string).

(** *** Exceptions *)

Inductive exc_class :=
  | RxSyncError | EightbTenbError | FifoError | NoDataTimeout | StopTimeout
  | AnalysisError
  | ValueError | RuntimeError | KeyError | AttributeError | UnboundLocalError
  | TypeError
  | NotImplementedError | RunAbortedError
  | OtherError (name : string).

#[global] Instance exc_class_eq_dec : EqDecision exc_class.
Proof. solve_decision. Defined.

(** An exception object.  Messages are abridged (no quoting, no formatted
    arguments). *)
Inductive exception :=
  | Exc (cls : exc_class) (msg : string)
  | RunAborted (arg : exception).

Definition class_of (e : exception) : exc_class :=
  match e with
  | Exc cls _ => cls
  | RunAborted _ => RunAbortedError
  end.

(** [e.__class__.__name__] *)
Definition class_name (c : exc_class) : string :=
  match c with
  | RxSyncError => "RxSyncError"
  | EightbTenbError => "EightbTenbError"
  | FifoError => "FifoError"
  | NoDataTimeout => "NoDataTimeout"
  | StopTimeout => "StopTimeout"
  | AnalysisError => "AnalysisError"
  | ValueError => "ValueError"
  | RuntimeError => "RuntimeError"
  | KeyError => "KeyError"
  | AttributeError => "AttributeError"
  | UnboundLocalError => "UnboundLocalError"
  | TypeError => "TypeError"
  | NotImplementedError => "NotImplementedError"
  | RunAbortedError => "RunAborted"
  | OtherError name => name
  end.

(** [str(e)] *)
Fixpoint str (e : exception) : string :=
  match e with
  | Exc _ msg => msg
  | RunAborted arg => str arg
  end.

(** [isinstance(e, (C1, ..., Cn))]; the fault classes of [fifo_readout] and
    [analysis_utils] do not derive from one another. *)
Definition isinstance (e : exception) (classes : list exc_class) : bool :=
  bool_decide (class_of e ∈ classes).

(** The triple of [sys.exc_info()]: type, value, traceback. *)
Record exc_info := mk_exc_info {
  exc_type : exc_class;
  exc_value : exception;
  exc_traceback : string
}.

(** [raise cls(msg)] inside the method [where_]. *)
Definition new_exc (cls : exc_class) (msg where_ : string) : exc_info :=
  mk_exc_info cls (Exc cls msg) where_.

(** *** Module configurations *)

(** A driver or channel entry is a scalar for a real module and a list for a
    derived module group. *)
Inductive multi (A : Type) :=
  | One (a : A)
  | Many (l : list A).
Arguments One {A} a.
Arguments Many {A} l.

Definition multi_list {A} (m : multi A) : list A :=
  match m with
  | One a => [a]
  | Many l => l
  end.

#[global] Instance multi_eq_dec `{EqDecision A} : EqDecision (multi A).
Proof. solve_decision. Defined.

Definition is_scalar {A} (m : multi A) : bool :=
  match m with
  | One _ => true
  | Many _ => false
  end.

(** A module entry of [conf['modules']] after [_parse_module_cfgs] accepted
    it: the drivers [FIFO], [RX], [TX], [TLU], the channels and the flavor are
    present and not [None]; [chip_address] is present and may be [None]
    (broadcast); [TDC], [tdc_channel], [fe_configuration] and [send_data]
    default to [None]. *)
Record module_conf := mk_module_conf {
  m_fe_flavor : string;
  m_chip_address : option nat;
  m_FIFO : string;
  m_RX : string;
  m_rx_channel : nat;
  m_TX : string;
  m_tx_channel : nat;
  m_TDC : option string;
  m_tdc_channel : option nat;
  m_TLU : string;
  m_fe_configuration : option string;
  m_send_data : option string
}.

(** A value of the dict [_module_cfgs]. *)
Record module_cfg := mk_module_cfg {
  fe_flavor : option string;
  chip_address : option nat;
  FIFO : multi string;
  RX : multi string;
  rx_channel : multi nat;
  TX : multi string;
  tx_channel : multi nat;
  TDC : multi (option string);
  tdc_channel : multi (option nat);
  TLU : multi string;
  fe_configuration : option string;
  send_data : option string
}.

(** The entry of a real module (line 200). *)
Definition of_conf (c : module_conf) : module_cfg :=
  {| fe_flavor := Some (m_fe_flavor c);
     chip_address := m_chip_address c;
     FIFO := One (m_FIFO c);
     RX := One (m_RX c);
     rx_channel := One (m_rx_channel c);
     TX := One (m_TX c);
     tx_channel := One (m_tx_channel c);
     TDC := One (m_TDC c);
     tdc_channel := One (m_tdc_channel c);
     TLU := One (m_TLU c);
     fe_configuration := m_fe_configuration c;
     send_data := m_send_data c |}.

(** *** Observable calls into the collaborators *)

(** The calling context of user code: the name of the current thread and the
    module pointer [_current_module_handle]. *)
Abbreviation context := (string * option string)%type.

Inductive event :=
  (* fifo_readout *)
  | ev_print_readout_status
  | ev_reset_rx
  | ev_reset_fifo
  | ev_fifo_start (enabled_fe_channels : list string)
  (* RunBase.abort(msg) *)
  | ev_abort (msg : string)
  (* dut[driver]['OUTPUT_ENABLE'] = mask *)
  | ev_output_enable (driver : string) (mask : N)
  (* register.restored(): entering and leaving *)
  | ev_create_restore_point (h : handle)
  | ev_restore (h : handle)
  (* register_utils *)
  | ev_set_run_mode (h : handle)
  | ev_set_conf_mode (h : handle)
  (* register.save_configuration *)
  | ev_save_configuration (h : handle)
  (* raw data files *)
  | ev_open_files (selected : list string)
  | ev_close_files
  (* the methods a scan class overrides *)
  | ev_configure (c : context)
  | ev_scan (c : context)
  | ev_analyze (c : context).

#[global] Instance event_eq_dec : EqDecision event.
Proof. solve_decision. Defined.

(** *** The run object *)

(** Attribute values stored by scans. *)
Inductive value :=
  | VNone
  | VBool (b : bool)
  | VInt (z : Z)
  | VStr (s : string).

(** An [ExcThread]. *)
Record thread := mk_thread {
  t_name : string;
  t_alive : bool;
  t_exc : option exc_info
}.

Record run := mk_run {
  (* run configuration, read through [RunBase.__getattr__] *)
  reset_rx_on_error : bool;
  broadcast_commands : bool;
  threaded_scan : bool;
  (* events of [RunBase] *)
  abort_run : bool;
  stop_run : bool;
  (* attributes set by [__init__] *)
  err_queue : list exc_info;
  _module_cfgs : gmap handle module_cfg;
  _modules : gmap string (list string);
  _tx_module_groups : gmap string (list string);
  _fifo_module_groups : gmap string (list string);
  (* the keys of [_registers] and [_register_utils] *)
  _registers : gset handle;
  (* the keys of [_raw_data_files] *)
  _raw_data_files : list string;
  _module_attr : gmap handle (gmap string value);
  _scan_threads : list thread;
  _running_readout_t : list handle;
  _readout_event : bool;
  (* [fifo_readout.is_running] *)
  fifo_is_running : bool;
  _current_module_handle : handle;
  (* the modules served by the [Fei4RawDataHandle], if any *)
  raw_data_file : option (list string);
  (* absent from [__dict__] until the end of [__init__] *)
  _initialized : option bool;
  (* the other entries of the instance [__dict__] *)
  inst_dict : gmap string value;
  (* [threading.current_thread().name] *)
  current_thread : string;
  (* the callbacks of the local [ExitStack], last entered first *)
  restore_config_stack : list handle
}.

Definition set_abort_run (v : bool) (st : run) : run :=
  {| reset_rx_on_error := reset_rx_on_error st;
     broadcast_commands := broadcast_commands st;
     threaded_scan := threaded_scan st;
     abort_run := v;
     stop_run := stop_run st;
     err_queue := err_queue st;
     _module_cfgs := _module_cfgs st;
     _modules := _modules st;
     _tx_module_groups := _tx_module_groups st;
     _fifo_module_groups := _fifo_module_groups st;
     _registers := _registers st;
     _raw_data_files := _raw_data_files st;
     _module_attr := _module_attr st;
     _scan_threads := _scan_threads st;
     _running_readout_t := _running_readout_t st;
     _readout_event := _readout_event st;
     fifo_is_running := fifo_is_running st;
     _current_module_handle := _current_module_handle st;
     raw_data_file := raw_data_file st;
     _initialized := _initialized st;
     inst_dict := inst_dict st;
     current_thread := current_thread st;
     restore_config_stack := restore_config_stack st |}.

Definition set_stop_run (v : bool) (st : run) : run :=
  {| reset_rx_on_error := reset_rx_on_error st;
     broadcast_commands := broadcast_commands st;
     threaded_scan := threaded_scan st;
     abort_run := abort_run st;
     stop_run := v;
     err_queue := err_queue st;
     _module_cfgs := _module_cfgs st;
     _modules := _modules st;
     _tx_module_groups := _tx_module_groups st;
     _fifo_module_groups := _fifo_module_groups st;
     _registers := _registers st;
     _raw_data_files := _raw_data_files st;
     _module_attr := _module_attr st;
     _scan_threads := _scan_threads st;
     _running_readout_t := _running_readout_t st;
     _readout_event := _readout_event st;
     fifo_is_running := fifo_is_running st;
     _current_module_handle := _current_module_handle st;
     raw_data_file := raw_data_file st;
     _initialized := _initialized st;
     inst_dict := inst_dict st;
     current_thread := current_thread st;
     restore_config_stack := restore_config_stack st |}.

Definition set_err_queue (v : list exc_info) (st : run) : run :=
  {| reset_rx_on_error := reset_rx_on_error st;
     broadcast_commands := broadcast_commands st;
     threaded_scan := threaded_scan st;
     abort_run := abort_run st;
     stop_run := stop_run st;
     err_queue := v;
     _module_cfgs := _module_cfgs st;
     _modules := _modules st;
     _tx_module_groups := _tx_module_groups st;
     _fifo_module_groups := _fifo_module_groups st;
     _registers := _registers st;
     _raw_data_files := _raw_data_files st;
     _module_attr := _module_attr st;
     _scan_threads := _scan_threads st;
     _running_readout_t := _running_readout_t st;
     _readout_event := _readout_event st;
     fifo_is_running := fifo_is_running st;
     _current_module_handle := _current_module_handle st;
     raw_data_file := raw_data_file st;
     _initialized := _initialized st;
     inst_dict := inst_dict st;
     current_thread := current_thread st;
     restore_config_stack := restore_config_stack st |}.

Definition set_module_cfgs (v : gmap handle module_cfg) (st : run) : run :=
  {| reset_rx_on_error := reset_rx_on_error st;
     broadcast_commands := broadcast_commands st;
     threaded_scan := threaded_scan st;
     abort_run := abort_run st;
     stop_run := stop_run st;
     err_queue := err_queue st;
     _module_cfgs := v;
     _modules := _modules st;
     _tx_module_groups := _tx_module_groups st;
     _fifo_module_groups := _fifo_module_groups st;
     _registers := _registers st;
     _raw_data_files := _raw_data_files st;
     _module_attr := _module_attr st;
     _scan_threads := _scan_threads st;
     _running_readout_t := _running_readout_t st;
     _readout_event := _readout_event st;
     fifo_is_running := fifo_is_running st;
     _current_module_handle := _current_module_handle st;
     raw_data_file := raw_data_file st;
     _initialized := _initialized st;
     inst_dict := inst_dict st;
     current_thread := current_thread st;
     restore_config_stack := restore_config_stack st |}.

Definition set_modules (v : gmap string (list string)) (st : run) : run :=
  {| reset_rx_on_error := reset_rx_on_error st;
     broadcast_commands := broadcast_commands st;
     threaded_scan := threaded_scan st;
     abort_run := abort_run st;
     stop_run := stop_run st;
     err_queue := err_queue st;
     _module_cfgs := _module_cfgs st;
     _modules := v;
     _tx_module_groups := _tx_module_groups st;
     _fifo_module_groups := _fifo_module_groups st;
     _registers := _registers st;
     _raw_data_files := _raw_data_files st;
     _module_attr := _module_attr st;
     _scan_threads := _scan_threads st;
     _running_readout_t := _running_readout_t st;
     _readout_event := _readout_event st;
     fifo_is_running := fifo_is_running st;
     _current_module_handle := _current_module_handle st;
     raw_data_file := raw_data_file st;
     _initialized := _initialized st;
     inst_dict := inst_dict st;
     current_thread := current_thread st;
     restore_config_stack := restore_config_stack st |}.

Definition set_registers (v : gset handle) (st : run) : run :=
  {| reset_rx_on_error := reset_rx_on_error st;
     broadcast_commands := broadcast_commands st;
     threaded_scan := threaded_scan st;
     abort_run := abort_run st;
     stop_run := stop_run st;
     err_queue := err_queue st;
     _module_cfgs := _module_cfgs st;
     _modules := _modules st;
     _tx_module_groups := _tx_module_groups st;
     _fifo_module_groups := _fifo_module_groups st;
     _registers := v;
     _raw_data_files := _raw_data_files st;
     _module_attr := _module_attr st;
     _scan_threads := _scan_threads st;
     _running_readout_t := _running_readout_t st;
     _readout_event := _readout_event st;
     fifo_is_running := fifo_is_running st;
     _current_module_handle := _current_module_handle st;
     raw_data_file := raw_data_file st;
     _initialized := _initialized st;
     inst_dict := inst_dict st;
     current_thread := current_thread st;
     restore_config_stack := restore_config_stack st |}.

Definition set_tx_module_groups (v : gmap string (list string)) (st : run) : run :=
  {| reset_rx_on_error := reset_rx_on_error st;
     broadcast_commands := broadcast_commands st;
     threaded_scan := threaded_scan st;
     abort_run := abort_run st;
     stop_run := stop_run st;
     err_queue := err_queue st;
     _module_cfgs := _module_cfgs st;
     _modules := _modules st;
     _tx_module_groups := v;
     _fifo_module_groups := _fifo_module_groups st;
     _registers := _registers st;
     _raw_data_files := _raw_data_files st;
     _module_attr := _module_attr st;
     _scan_threads := _scan_threads st;
     _running_readout_t := _running_readout_t st;
     _readout_event := _readout_event st;
     fifo_is_running := fifo_is_running st;
     _current_module_handle := _current_module_handle st;
     raw_data_file := raw_data_file st;
     _initialized := _initialized st;
     inst_dict := inst_dict st;
     current_thread := current_thread st;
     restore_config_stack := restore_config_stack st |}.

Definition set_fifo_module_groups (v : gmap string (list string)) (st : run) : run :=
  {| reset_rx_on_error := reset_rx_on_error st;
     broadcast_commands := broadcast_commands st;
     threaded_scan := threaded_scan st;
     abort_run := abort_run st;
     stop_run := stop_run st;
     err_queue := err_queue st;
     _module_cfgs := _module_cfgs st;
     _modules := _modules st;
     _tx_module_groups := _tx_module_groups st;
     _fifo_module_groups := v;
     _registers := _registers st;
     _raw_data_files := _raw_data_files st;
     _module_attr := _module_attr st;
     _scan_threads := _scan_threads st;
     _running_readout_t := _running_readout_t st;
     _readout_event := _readout_event st;
     fifo_is_running := fifo_is_running st;
     _current_module_handle := _current_module_handle st;
     raw_data_file := raw_data_file st;
     _initialized := _initialized st;
     inst_dict := inst_dict st;
     current_thread := current_thread st;
     restore_config_stack := restore_config_stack st |}.

Definition set_raw_data_files (v : list string) (st : run) : run :=
  {| reset_rx_on_error := reset_rx_on_error st;
     broadcast_commands := broadcast_commands st;
     threaded_scan := threaded_scan st;
     abort_run := abort_run st;
     stop_run := stop_run st;
     err_queue := err_queue st;
     _module_cfgs := _module_cfgs st;
     _modules := _modules st;
     _tx_module_groups := _tx_module_groups st;
     _fifo_module_groups := _fifo_module_groups st;
     _registers := _registers st;
     _raw_data_files := v;
     _module_attr := _module_attr st;
     _scan_threads := _scan_threads st;
     _running_readout_t := _running_readout_t st;
     _readout_event := _readout_event st;
     fifo_is_running := fifo_is_running st;
     _current_module_handle := _current_module_handle st;
     raw_data_file := raw_data_file st;
     _initialized := _initialized st;
     inst_dict := inst_dict st;
     current_thread := current_thread st;
     restore_config_stack := restore_config_stack st |}.

Definition set_module_attr (v : gmap handle (gmap string value)) (st : run) : run :=
  {| reset_rx_on_error := reset_rx_on_error st;
     broadcast_commands := broadcast_commands st;
     threaded_scan := threaded_scan st;
     abort_run := abort_run st;
     stop_run := stop_run st;
     err_queue := err_queue st;
     _module_cfgs := _module_cfgs st;
     _modules := _modules st;
     _tx_module_groups := _tx_module_groups st;
     _fifo_module_groups := _fifo_module_groups st;
     _registers := _registers st;
     _raw_data_files := _raw_data_files st;
     _module_attr := v;
     _scan_threads := _scan_threads st;
     _running_readout_t := _running_readout_t st;
     _readout_event := _readout_event st;
     fifo_is_running := fifo_is_running st;
     _current_module_handle := _current_module_handle st;
     raw_data_file := raw_data_file st;
     _initialized := _initialized st;
     inst_dict := inst_dict st;
     current_thread := current_thread st;
     restore_config_stack := restore_config_stack st |}.

Definition set_scan_threads (v : list thread) (st : run) : run :=
  {| reset_rx_on_error := reset_rx_on_error st;
     broadcast_commands := broadcast_commands st;
     threaded_scan := threaded_scan st;
     abort_run := abort_run st;
     stop_run := stop_run st;
     err_queue := err_queue st;
     _module_cfgs := _module_cfgs st;
     _modules := _modules st;
     _tx_module_groups := _tx_module_groups st;
     _fifo_module_groups := _fifo_module_groups st;
     _registers := _registers st;
     _raw_data_files := _raw_data_files st;
     _module_attr := _module_attr st;
     _scan_threads := v;
     _running_readout_t := _running_readout_t st;
     _readout_event := _readout_event st;
     fifo_is_running := fifo_is_running st;
     _current_module_handle := _current_module_handle st;
     raw_data_file := raw_data_file st;
     _initialized := _initialized st;
     inst_dict := inst_dict st;
     current_thread := current_thread st;
     restore_config_stack := restore_config_stack st |}.

Definition set_running_readout_t (v : list handle) (st : run) : run :=
  {| reset_rx_on_error := reset_rx_on_error st;
     broadcast_commands := broadcast_commands st;
     threaded_scan := threaded_scan st;
     abort_run := abort_run st;
     stop_run := stop_run st;
     err_queue := err_queue st;
     _module_cfgs := _module_cfgs st;
     _modules := _modules st;
     _tx_module_groups := _tx_module_groups st;
     _fifo_module_groups := _fifo_module_groups st;
     _registers := _registers st;
     _raw_data_files := _raw_data_files st;
     _module_attr := _module_attr st;
     _scan_threads := _scan_threads st;
     _running_readout_t := v;
     _readout_event := _readout_event st;
     fifo_is_running := fifo_is_running st;
     _current_module_handle := _current_module_handle st;
     raw_data_file := raw_data_file st;
     _initialized := _initialized st;
     inst_dict := inst_dict st;
     current_thread := current_thread st;
     restore_config_stack := restore_config_stack st |}.

Definition set_readout_event (v : bool) (st : run) : run :=
  {| reset_rx_on_error := reset_rx_on_error st;
     broadcast_commands := broadcast_commands st;
     threaded_scan := threaded_scan st;
     abort_run := abort_run st;
     stop_run := stop_run st;
     err_queue := err_queue st;
     _module_cfgs := _module_cfgs st;
     _modules := _modules st;
     _tx_module_groups := _tx_module_groups st;
     _fifo_module_groups := _fifo_module_groups st;
     _registers := _registers st;
     _raw_data_files := _raw_data_files st;
     _module_attr := _module_attr st;
     _scan_threads := _scan_threads st;
     _running_readout_t := _running_readout_t st;
     _readout_event := v;
     fifo_is_running := fifo_is_running st;
     _current_module_handle := _current_module_handle st;
     raw_data_file := raw_data_file st;
     _initialized := _initialized st;
     inst_dict := inst_dict st;
     current_thread := current_thread st;
     restore_config_stack := restore_config_stack st |}.

Definition set_fifo_is_running (v : bool) (st : run) : run :=
  {| reset_rx_on_error := reset_rx_on_error st;
     broadcast_commands := broadcast_commands st;
     threaded_scan := threaded_scan st;
     abort_run := abort_run st;
     stop_run := stop_run st;
     err_queue := err_queue st;
     _module_cfgs := _module_cfgs st;
     _modules := _modules st;
     _tx_module_groups := _tx_module_groups st;
     _fifo_module_groups := _fifo_module_groups st;
     _registers := _registers st;
     _raw_data_files := _raw_data_files st;
     _module_attr := _module_attr st;
     _scan_threads := _scan_threads st;
     _running_readout_t := _running_readout_t st;
     _readout_event := _readout_event st;
     fifo_is_running := v;
     _current_module_handle := _current_module_handle st;
     raw_data_file := raw_data_file st;
     _initialized := _initialized st;
     inst_dict := inst_dict st;
     current_thread := current_thread st;
     restore_config_stack := restore_config_stack st |}.

Definition set_current_module_handle (v : handle) (st : run) : run :=
  {| reset_rx_on_error := reset_rx_on_error st;
     broadcast_commands := broadcast_commands st;
     threaded_scan := threaded_scan st;
     abort_run := abort_run st;
     stop_run := stop_run st;
     err_queue := err_queue st;
     _module_cfgs := _module_cfgs st;
     _modules := _modules st;
     _tx_module_groups := _tx_module_groups st;
     _fifo_module_groups := _fifo_module_groups st;
     _registers := _registers st;
     _raw_data_files := _raw_data_files st;
     _module_attr := _module_attr st;
     _scan_threads := _scan_threads st;
     _running_readout_t := _running_readout_t st;
     _readout_event := _readout_event st;
     fifo_is_running := fifo_is_running st;
     _current_module_handle := v;
     raw_data_file := raw_data_file st;
     _initialized := _initialized st;
     inst_dict := inst_dict st;
     current_thread := current_thread st;
     restore_config_stack := restore_config_stack st |}.

Definition set_raw_data_file (v : option (list string)) (st : run) : run :=
  {| reset_rx_on_error := reset_rx_on_error st;
     broadcast_commands := broadcast_commands st;
     threaded_scan := threaded_scan st;
     abort_run := abort_run st;
     stop_run := stop_run st;
     err_queue := err_queue st;
     _module_cfgs := _module_cfgs st;
     _modules := _modules st;
     _tx_module_groups := _tx_module_groups st;
     _fifo_module_groups := _fifo_module_groups st;
     _registers := _registers st;
     _raw_data_files := _raw_data_files st;
     _module_attr := _module_attr st;
     _scan_threads := _scan_threads st;
     _running_readout_t := _running_readout_t st;
     _readout_event := _readout_event st;
     fifo_is_running := fifo_is_running st;
     _current_module_handle := _current_module_handle st;
     raw_data_file := v;
     _initialized := _initialized st;
     inst_dict := inst_dict st;
     current_thread := current_thread st;
     restore_config_stack := restore_config_stack st |}.

Definition set_initialized (v : option bool) (st : run) : run :=
  {| reset_rx_on_error := reset_rx_on_error st;
     broadcast_commands := broadcast_commands st;
     threaded_scan := threaded_scan st;
     abort_run := abort_run st;
     stop_run := stop_run st;
     err_queue := err_queue st;
     _module_cfgs := _module_cfgs st;
     _modules := _modules st;
     _tx_module_groups := _tx_module_groups st;
     _fifo_module_groups := _fifo_module_groups st;
     _registers := _registers st;
     _raw_data_files := _raw_data_files st;
     _module_attr := _module_attr st;
     _scan_threads := _scan_threads st;
     _running_readout_t := _running_readout_t st;
     _readout_event := _readout_event st;
     fifo_is_running := fifo_is_running st;
     _current_module_handle := _current_module_handle st;
     raw_data_file := raw_data_file st;
     _initialized := v;
     inst_dict := inst_dict st;
     current_thread := current_thread st;
     restore_config_stack := restore_config_stack st |}.

Definition set_inst_dict (v : gmap string value) (st : run) : run :=
  {| reset_rx_on_error := reset_rx_on_error st;
     broadcast_commands := broadcast_commands st;
     threaded_scan := threaded_scan st;
     abort_run := abort_run st;
     stop_run := stop_run st;
     err_queue := err_queue st;
     _module_cfgs := _module_cfgs st;
     _modules := _modules st;
     _tx_module_groups := _tx_module_groups st;
     _fifo_module_groups := _fifo_module_groups st;
     _registers := _registers st;
     _raw_data_files := _raw_data_files st;
     _module_attr := _module_attr st;
     _scan_threads := _scan_threads st;
     _running_readout_t := _running_readout_t st;
     _readout_event := _readout_event st;
     fifo_is_running := fifo_is_running st;
     _current_module_handle := _current_module_handle st;
     raw_data_file := raw_data_file st;
     _initialized := _initialized st;
     inst_dict := v;
     current_thread := current_thread st;
     restore_config_stack := restore_config_stack st |}.

Definition set_current_thread (v : string) (st : run) : run :=
  {| reset_rx_on_error := reset_rx_on_error st;
     broadcast_commands := broadcast_commands st;
     threaded_scan := threaded_scan st;
     abort_run := abort_run st;
     stop_run := stop_run st;
     err_queue := err_queue st;
     _module_cfgs := _module_cfgs st;
     _modules := _modules st;
     _tx_module_groups := _tx_module_groups st;
     _fifo_module_groups := _fifo_module_groups st;
     _registers := _registers st;
     _raw_data_files := _raw_data_files st;
     _module_attr := _module_attr st;
     _scan_threads := _scan_threads st;
     _running_readout_t := _running_readout_t st;
     _readout_event := _readout_event st;
     fifo_is_running := fifo_is_running st;
     _current_module_handle := _current_module_handle st;
     raw_data_file := raw_data_file st;
     _initialized := _initialized st;
     inst_dict := inst_dict st;
     current_thread := v;
     restore_config_stack := restore_config_stack st |}.

Definition set_restore_config_stack (v : list handle) (st : run) : run :=
  {| reset_rx_on_error := reset_rx_on_error st;
     broadcast_commands := broadcast_commands st;
     threaded_scan := threaded_scan st;
     abort_run := abort_run st;
     stop_run := stop_run st;
     err_queue := err_queue st;
     _module_cfgs := _module_cfgs st;
     _modules := _modules st;
     _tx_module_groups := _tx_module_groups st;
     _fifo_module_groups := _fifo_module_groups st;
     _registers := _registers st;
     _raw_data_files := _raw_data_files st;
     _module_attr := _module_attr st;
     _scan_threads := _scan_threads st;
     _running_readout_t := _running_readout_t st;
     _readout_event := _readout_event st;
     fifo_is_running := fifo_is_running st;
     _current_module_handle := _current_module_handle st;
     raw_data_file := raw_data_file st;
     _initialized := _initialized st;
     inst_dict := inst_dict st;
     current_thread := current_thread st;
     restore_config_stack := v |}.

(** *** Methods as state transformers that may raise *)

Inductive outcome (A : Type) :=
  | Return (a : A)
  | Raise (e : exc_info).
Arguments Return {A} a.
Arguments Raise {A} e.

(** What a call leaves behind: the collaborator calls it made, the run
    object afterwards, and how it ended. *)
Record result (A : Type) := mk_result {
  emitted : list event;
  final : run;
  out : outcome A
}.
Arguments mk_result {A} _ _ _.
Arguments emitted {A} _.
Arguments final {A} _.
Arguments out {A} _.

Definition M (A : Type) : Type := run → result A.

Definition ret {A} (a : A) : M A := λ st, mk_result [] st (Return a).

Definition bind {A B} (m : M A) (k : A → M B) : M B := λ st,
  let r := m st in
  match out r with
  | Return a =>
      let r' := k a (final r) in
      mk_result (emitted r ++ emitted r') (final r') (out r')
  | Raise e => mk_result (emitted r) (final r) (Raise e)
  end.

#[global] Instance M_ret : MRet M := @ret.
#[global] Instance M_bind : MBind M := λ A B k m, bind m k.

Definition raise {A} (e : exc_info) : M A := λ st, mk_result [] st (Raise e).
Definition gets {A} (f : run → A) : M A := λ st, mk_result [] st (Return (f st)).
Definition modify (f : run → run) : M unit := λ st, mk_result [] (f st) (Return ()).
Definition emit (ev : event) : M unit := λ st, mk_result [ev] st (Return ()).

(** [try: m finally: fin] *)
Definition try_finally {A} (m : M A) (fin : M unit) : M A := λ st,
  let r := m st in
  let r' := fin (final r) in
  mk_result (emitted r ++ emitted r') (final r')
    (match out r' with
     | Return _ => out r
     | Raise e => Raise e
     end).

(** [try: m except Exception: handler(sys.exc_info()) else: orelse] *)
Definition try_except_else (m : M unit) (handler : exc_info → M unit)
    (orelse : M unit) : M unit := λ st,
  let r := m st in
  let r' := match out r with
            | Return _ => orelse (final r)
            | Raise e => handler e (final r)
            end in
  mk_result (emitted r ++ emitted r') (final r') (out r').

(** [for x in l: if self.abort_run.is_set(): break; body(x)] *)
Fixpoint for_unless_abort {A} (l : list A) (body : A → M unit) : M unit :=
  match l with
  | [] => ret ()
  | x :: l' =>
      aborted ← gets abort_run;
      if aborted : bool then ret ()
      else body x ;; for_unless_abort l' body
  end.

(** [for x in l: body(x)] *)
Fixpoint for_each {A} (l : list A) (body : A → M unit) : M unit :=
  match l with
  | [] => ret ()
  | x :: l' => body x ;; for_each l' body
  end.


(** *** Fault handling *)

(** Modelled from the spec: [RunBase.abort] is defined in
    [pybar/run_manager.py], which is not among the sources; it reports the
    message and sets the run-wide abort flag. *)
Definition abort (msg : string) : M unit :=
  emit (ev_abort msg) ;; modify (set_abort_run true).

(** [handle_err], lines 848-864. *)
Definition handle_err (exc : exc_info) : M unit :=
  reset ← gets reset_rx_on_error;
  if reset && isinstance (exc_value exc) [RxSyncError; EightbTenbError] then
    emit ev_print_readout_status ;;
    emit ev_reset_rx
  else
    aborted ← gets abort_run;
    (if negb aborted then
       abort (class_name (class_of (exc_value exc)) +:+ ": " +:+ str (exc_value exc))
     else ret ()) ;;
    modify (λ st, set_err_queue (err_queue st ++ [exc]) st).

(** *** The current module *)

(** Python's [a in b] on strings. *)
Fixpoint is_substring (a b : string) : bool :=
  String.prefix a b ||
  match b with
  | EmptyString => false
  | String _ b' => is_substring a b'
  end.

(** The keys of a dict, in its iteration order. *)
Definition keys `{Countable K} {V} (d : gmap K V) : list K := (map_to_list d).*1.

(** The list comprehension of line 138. *)
Definition module_handles (st : run) : list string :=
  omap (λ module_id : handle,
          match module_id with
          | Some i => if is_substring i (current_thread st) then Some i else None
          | None => None
          end)
       (keys (_module_cfgs st)).

(** The branch of [current_module_handle] for an unset pointer, lines
    137-144: the handle is the module id found in the name of the current
    thread. *)
Definition handle_from_thread_name : M handle :=
  hs ← gets module_handles;
  match hs with
  | [] => ret None
  | [h] => ret (Some h)
  | _ => raise (new_exc RuntimeError
             "Could not determine module handle. Thread name contains multiple module IDs"
             "current_module_handle")
  end.

(** The property [current_module_handle], lines 134-146. *)
Definition current_module_handle : M handle :=
  ptr ← gets _current_module_handle;
  match ptr with
  | None => handle_from_thread_name
  | Some h => ret (Some h)
  end.

(** The property [is_initialized], lines 127-132. *)
Definition is_initialized (st : run) : bool :=
  match _initialized st with
  | Some b => b
  | None => false
  end.

(** [self._module_cfgs[h]] *)
Definition get_module_cfg (h : handle) : M module_cfg :=
  cfgs ← gets _module_cfgs;
  match cfgs !! h with
  | Some cfg => ret cfg
  | None => raise (new_exc KeyError "module handle" "_module_cfgs")
  end.

(** [self.dut['TX']['OUTPUT_ENABLE'] = mask]: [self.dut] is the [DutHandle]
    made from the configuration of the current module handle, whose ['TX']
    is one driver or, for a list, every driver of the list. *)
Definition dut_TX_output_enable (mask : N) : M unit :=
  h ← current_module_handle;
  cfg ← get_module_cfg h;
  for_each (multi_list (TX cfg)) (λ tx, emit (ev_output_enable tx mask)).

(** [reduce(lambda x, y: x | y, set([1 << ch for ch in chs]))], and
    [1 << ch] for a single channel. *)
Definition channel_mask (chs : list nat) : N :=
  foldr N.lor 0%N ((λ ch, N.shiftl 1 (N.of_nat ch)) <$> chs).

(** [[self._module_cfgs[name]['TX'] for name in self._modules]] *)
Fixpoint module_TXs (names : list string) : M (list string) :=
  match names with
  | [] => ret []
  | name :: names' =>
      cfg ← get_module_cfg (Some name);
      txs ← module_TXs names';
      ret (multi_list (TX cfg) ++ txs)
  end.

(** The channels of the comprehension of line 976: the entries of
    [_module_cfgs] whose ['TX'] equals [tx] and whose key is a module. *)
Definition tx_channels_of (tx : string) (st : run) : list nat :=
  omap (λ kv : handle * module_cfg,
          match kv.1, TX kv.2, tx_channel kv.2 with
          | Some name, One t, One ch =>
              if decide (t = tx ∧ is_Some (_modules st !! name)) then Some ch else None
          | _, _, _ => None
          end)
       (map_to_list (_module_cfgs st)).

(** [select_module], lines 966-985. *)
Definition select_module (module_id : handle) : M unit :=
  cfgs ← gets _module_cfgs;
  match cfgs !! module_id with
  | None => raise (new_exc ValueError "Module ID is not valid" "select_module")
  | Some cfg =>
      modify (set_current_module_handle module_id) ;;
      match module_id with
      | None =>
          modules ← gets _modules;
          txs ← module_TXs (keys modules);
          for_each (remove_dups txs)
            (λ tx, chs ← gets (tx_channels_of tx);
                   emit (ev_output_enable tx (channel_mask chs)))
      | Some name =>
          modules ← gets _modules;
          groups ← gets _tx_module_groups;
          if decide (is_Some (modules !! name)) then
            dut_TX_output_enable (channel_mask (multi_list (tx_channel cfg)))
          else if decide (is_Some (groups !! name)) then
            dut_TX_output_enable (channel_mask (multi_list (tx_channel cfg)))
          else ret ()
      end
  end.

(** [deselect_module], lines 987-991. *)
Definition deselect_module : M unit :=
  dut_TX_output_enable 0 ;;
  modify (set_current_module_handle None).

(** The context manager [access_module], lines 956-964, around a body. *)
Definition access_module (module_id : handle) (body : M unit) : M unit :=
  try_finally
    (select_module module_id ;; body ;; deselect_module)
    (modify (set_current_module_handle None)).

(** [self.register] and [self.register_utils], lines 148-154. *)
Definition get_register : M handle :=
  h ← current_module_handle;
  regs ← gets _registers;
  if decide (h ∈ regs) then ret h
  else raise (new_exc KeyError "module handle" "_registers").

(** *** Raw data files *)

(** [open_files], lines 1004-1023.  In the last branch the [RuntimeError] is
    built but not raised, and the loop then finds [selected_modules]
    unbound.  Opening a file reads [_registers] and [_module_cfgs] at the
    module; [Fei4RawDataHandle.init] (line 1205) compares the number of open
    files with the number of selected configurations. *)
Definition open_files : M unit :=
  h ← current_module_handle;
  modules ← gets _modules;
  groups ← gets _tx_module_groups;
  selected ←
    match h with
    | None => ret (keys modules)
    | Some name =>
        if decide (is_Some (modules !! name)) then ret [name]
        else match groups !! name with
             | Some members => ret members
             | None => raise (new_exc UnboundLocalError "selected_modules" "open_files")
             end
    end;
  for_each selected
    (λ sel, regs ← gets _registers;
            if decide (Some sel ∈ regs) then
              get_module_cfg (Some sel) ;;
              emit (ev_open_files [sel]) ;;
              modify (λ st, set_raw_data_files (list_union (_raw_data_files st) [sel]) st)
            else raise (new_exc KeyError "module handle" "_registers")) ;;
  files ← gets _raw_data_files;
  cfgs ← gets _module_cfgs;
  if decide (length files = length (filter (λ k, k ∈ (Some <$> selected)) (keys cfgs))) then
    modify (set_raw_data_file (Some selected))
  else raise (new_exc ValueError "Selected modules do not match number of raw data files." "Fei4RawDataHandle.init").

(** [close_files], lines 1025-1031. *)
Definition close_files : M unit :=
  emit ev_close_files ;;
  modify (set_raw_data_files []) ;;
  modify (set_raw_data_file None).

(** The context manager [access_files], lines 993-1002. *)
Definition access_files (body : M unit) : M unit :=
  try_finally
    (open_files ;; body ;; close_files)
    (modify (set_raw_data_files []) ;; modify (set_raw_data_file None)).


(** *** The methods a scan class overrides *)

(** What the engine sees of [configure], [scan] or [analyze]: the faults the
    method reports through [handle_err] while it runs (the readout's errback)
    and the exception it ends with, if any. *)
Record user_code := mk_user_code {
  reports : list exc_info;
  raises : option exc_info
}.

Class ScanClass := {
  configure_impl : context → user_code;
  scan_impl : context → user_code;
  analyze_impl : context → user_code
}.

Definition run_user_code (ev : context → event) (impl : context → user_code) : M unit :=
  thr ← gets current_thread;
  ptr ← gets _current_module_handle;
  emit (ev (thr, ptr)) ;;
  for_each (reports (impl (thr, ptr))) handle_err ;;
  match raises (impl (thr, ptr)) with
  | Some e => raise e
  | None => ret ()
  end.

Section Run.
Context `{ScanClass}.

Definition configure : M unit := run_user_code ev_configure configure_impl.
Definition scan : M unit := run_user_code ev_scan scan_impl.
Definition analyze : M unit := run_user_code ev_analyze analyze_impl.

(** *** Register snapshots and chip modes *)

(** Modelled from the spec: [FEI4Register.restored] is defined in
    [pybar/fei4/register.py], which is not among the sources.  Entering the
    context captures the register snapshot; leaving it, on every exit path,
    reapplies the snapshot. *)
Definition with_restored (body : M unit) : M unit :=
  h ← get_register;
  emit (ev_create_restore_point h) ;;
  try_finally body (emit (ev_restore h)).

(** [restore_config_stack.enter_context(self.register.restored(...))] *)
Definition enter_restored : M unit :=
  h ← get_register;
  emit (ev_create_restore_point h) ;;
  modify (λ st, set_restore_config_stack (h :: restore_config_stack st) st).

(** [with contextlib.ExitStack() as restore_config_stack: body]: the
    entered contexts are left in reverse order when the block is left. *)
Definition with_exit_stack (body : M unit) : M unit :=
  modify (set_restore_config_stack []) ;;
  try_finally body
    (stack ← gets restore_config_stack;
     for_each stack (λ h, emit (ev_restore h)) ;;
     modify (set_restore_config_stack [])).

Definition set_run_mode : M unit :=
  h ← get_register; emit (ev_set_run_mode h).

Definition set_conf_mode : M unit :=
  h ← get_register; emit (ev_set_conf_mode h).

(** The three [fifo_readout] calls before a scan. *)
Definition prime_readout : M unit :=
  emit ev_reset_rx ;; emit ev_reset_fifo ;; emit ev_print_readout_status.

(** *** Scan threads *)

(** [ExcThread(target=self.scan, name=module_id)]; a thread made with
    [name=None] gets a default name. *)
Definition new_thread (module_id : handle) : thread :=
  mk_thread (default "Thread-1" module_id) false None.

(** [t.start()] with [ExcThread.run], lines 1175-1184: the scan runs under
    the thread's name and its exception is kept in [t.exc].  The thread is
    run to its end here, before its caller goes on. *)
Definition thread_start (t : thread) : M thread := λ st,
  let r := scan (set_current_thread (t_name t) st) in
  mk_result (emitted r) (set_current_thread (current_thread st) (final r))
    (Return (mk_thread (t_name t) false
               (match out r with
                | Return _ => None
                | Raise e => Some e
                end))).

(** [for t in self._scan_threads: t.start()] *)
Fixpoint start_threads (ts : list thread) : M (list thread) :=
  match ts with
  | [] => ret []
  | t :: ts' =>
      t' ← thread_start t;
      ts'' ← start_threads ts';
      ret (t' :: ts'')
  end.

(** The join loop (lines 660-668 and 740-748), in the schedule in which
    each thread is joined once, after it has ended: [ExcThread.join] raises
    the kept exception, the thread is removed and the fault handled. *)
Definition join_threads : M unit :=
  ts ← gets _scan_threads;
  for_each ts
    (λ t, match t_exc t with
          | Some e =>
              modify (λ st, set_scan_threads
                              (filter (λ t', t_name t' ≠ t_name t) (_scan_threads st)) st) ;;
              handle_err e
          | None => ret ()
          end).

Definition start_and_join : M unit :=
  ts ← gets _scan_threads;
  ts' ← start_threads ts;
  modify (set_scan_threads ts') ;;
  join_threads.

(** [itertools.izip_longest] of the given lists: the i-th tuple holds the i-th
    element of every list, [None] where a list is too short. *)
Definition izip_longest (lists : list (list string)) : list (list handle) :=
  (λ i, (λ l : list string, l !! i) <$> lists) <$> seq 0 (foldr max 0 (length <$> lists)).

(** *** [do_run], lines 620-784 *)

(** [broadcast_commands] and [threaded_scan], lines 627-678. *)
Definition do_run_broadcast_threaded : M unit :=
  groups ← gets _tx_module_groups;
  modules ← gets _modules;
  with_exit_stack
    (for_unless_abort (keys groups ++ keys modules)
       (λ module_id, access_module (Some module_id) (enter_restored ;; configure)) ;;
     for_unless_abort (keys groups)
       (λ module_id, access_module (Some module_id) set_run_mode) ;;
     prime_readout ;;
     access_module None
       (access_files
          (modify (set_scan_threads []) ;;
           for_unless_abort (keys groups)
             (λ module_id,
                modify (λ st, set_scan_threads
                                (_scan_threads st ++ [new_thread (Some module_id)]) st)) ;;
           start_and_join ;;
           modify (set_scan_threads [])))) ;;
  for_unless_abort (keys groups)
    (λ module_id, access_module (Some module_id) set_conf_mode).

(** [broadcast_commands] without [threaded_scan], lines 680-707. *)
Definition do_run_broadcast_sequential : M unit :=
  groups ← gets _tx_module_groups;
  for_unless_abort (map_to_list groups)
    (λ '(tx_module_id, tx_group),
       with_exit_stack
         (for_unless_abort (tx_module_id :: tx_group)
            (λ module_id, access_module (Some module_id) (enter_restored ;; configure)) ;;
          access_module (Some tx_module_id)
            (set_run_mode ;;
             prime_readout ;;
             modify (set_stop_run false) ;;
             access_files scan)) ;;
       access_module (Some tx_module_id) set_conf_mode).

(** [threaded_scan] without [broadcast_commands], lines 709-759. *)
Definition do_run_individual_threaded : M unit :=
  modify (set_scan_threads []) ;;
  groups ← gets _tx_module_groups;
  for_unless_abort (izip_longest (map_to_list groups).*2)
    (λ tx_module_ids,
       with_exit_stack
         (for_unless_abort tx_module_ids
            (λ module_id,
               access_module module_id (enter_restored ;; configure ;; set_run_mode) ;;
               prime_readout ;;
               modify (λ st, set_scan_threads
                               (_scan_threads st ++ [new_thread module_id]) st)) ;;
          access_module None
            (access_files
               (modify (set_stop_run false) ;;
                start_and_join ;;
                modify (set_scan_threads [])))) ;;
       for_unless_abort tx_module_ids
         (λ module_id, access_module module_id set_conf_mode)).

(** Lines 769-780: the scan of the selected module, from its configuration
    to the end of its data taking. *)
Definition scan_in_run_mode : M unit :=
  configure ;;
  set_run_mode ;;
  prime_readout ;;
  modify (set_stop_run false) ;;
  access_files scan.

(** Neither flag, lines 761-782. *)
Definition do_run_individual_sequential : M unit :=
  modules ← gets _modules;
  for_unless_abort (keys modules)
    (λ module_id,
       modify (set_stop_run false) ;;
       access_module (Some module_id)
         (with_restored (scan_in_run_mode ;; set_conf_mode))).

Definition do_run : M unit :=
  broadcast ← gets broadcast_commands;
  threaded ← gets threaded_scan;
  (if broadcast : bool then
     if threaded : bool then do_run_broadcast_threaded
     else do_run_broadcast_sequential
   else
     if threaded : bool then do_run_individual_threaded
     else do_run_individual_sequential) ;;
  emit ev_print_readout_status.

(** *** [post_run], lines 786-806 *)

Definition well_known : list exc_class :=
  [RxSyncError; EightbTenbError; FifoError; NoDataTimeout; StopTimeout; AnalysisError].

Definition save_configuration : M unit :=
  h ← get_register; emit (ev_save_configuration h).

(** The loop over the modules, lines 788-797. *)
Definition analyze_modules : M unit :=
  modules ← gets _modules;
  for_unless_abort (keys modules)
    (λ module_id,
       access_module (Some module_id)
         (try_except_else analyze handle_err save_configuration)).

(** The outcome raised for a queued fault, lines 802-806. *)
Definition reported (exc : exc_info) : exc_info :=
  if isinstance (exc_value exc) well_known then
    mk_exc_info RunAbortedError (RunAborted (exc_value exc)) "post_run"
  else exc.

(** Lines 799-806. *)
Definition report_first_fault : M unit :=
  queue ← gets err_queue;
  match queue with
  | [] => ret ()
  | exc :: queue' =>
      modify (set_err_queue queue') ;;
      raise (reported exc)
  end.

Definition post_run : M unit :=
  analyze_modules ;; report_first_fault.

End Run.

(** *** Per-module attributes, lines 933-954 *)

(** The attributes that [__init__] (lines 85-110) stores in the instance
    [__dict__] before [_initialized]. *)
Definition init_attributes : list string :=
  ["err_queue"; "global_lock"; "_module_cfgs"; "_modules"; "_tx_module_groups";
   "_fifo_module_groups"; "_registers"; "_register_utils"; "_raw_data_files";
   "_scan_parameters"; "_module_attr"; "_scan_threads"; "_running_readout_t";
   "_readout_lock"; "_readout_event"; "_duts"; "fifo_readout";
   "_current_module_handle"; "raw_data_file"].

(** [name in self.__dict__] *)
Definition in_dict (name : string) (st : run) : bool :=
  bool_decide (name ∈ init_attributes)
  || (bool_decide (name = "_initialized") && bool_decide (is_Some (_initialized st)))
  || bool_decide (is_Some (inst_dict st !! name)).

Definition truthy (v : value) : bool :=
  match v with
  | VNone => false
  | VBool b => b
  | VInt z => negb (Z.eqb z 0)
  | VStr s => negb (String.eqb s "")
  end.

(** [object.__setattr__]: the entries of [__dict__] that the record keeps
    as typed fields are written there; the list- and dict-valued attributes of
    [init_attributes] are assigned by the methods that own them and not
    through a [value]. *)
Definition object_setattr (name : string) (v : value) (st : run) : run :=
  if decide (name = "_initialized") then set_initialized (Some (truthy v)) st
  else if decide (name = "_current_module_handle") then
    match v with
    | VNone => set_current_module_handle None st
    | VStr s => set_current_module_handle (Some s) st
    | _ => st
    end
  else if decide (name ∈ init_attributes) then st
  else set_inst_dict (<[name := v]> (inst_dict st)) st.

(** [self._module_attr[h]] *)
Definition get_module_attr (h : handle) : M (gmap string value) :=
  attr ← gets _module_attr;
  match attr !! h with
  | Some attrs => ret attrs
  | None => raise (new_exc KeyError "module handle" "_module_attr")
  end.

(** [__setattr__], lines 933-939. *)
Definition __setattr__ (name : string) (v : value) : M unit :=
  st ← gets id;
  if is_initialized st && negb (in_dict name st) then
    h ← current_module_handle;
    attrs ← get_module_attr h;
    modify (λ st, set_module_attr (<[h := <[name := v]> attrs]> (_module_attr st)) st)
  else
    modify (object_setattr name v).

Section Attributes.

(** [RunBase.__getattr__] is defined in [pybar/run_manager.py], which is not
    among the sources: what the base class answers for a name is a
    parameter. *)
Variable RunBase_getattr : string → outcome value.

(** [__getattr__], lines 941-954: Python calls it when the attribute is not
    found in the usual places. *)
Definition __getattr__ (name : string) : M value :=
  st ← gets id;
  found ←
    (if is_initialized st then
       h ← current_module_handle;
       attrs ← get_module_attr h;
       ret (attrs !! name)
     else ret None);
  match found with
  | Some v => ret v
  | None =>
      match RunBase_getattr name with
      | Return v => ret v
      | Raise e =>
          if decide (exc_type e = AttributeError) then
            if is_initialized st then
              raise (new_exc AttributeError "has no attribute" "__getattr__")
            else raise e
          else raise e
      end
  end.

End Attributes.

(** *** Readout registration, lines 1072-1115 *)

Definition thread_names (ts : list thread) : list string := t_name <$> ts.

Definition alive_names (ts : list thread) : list string :=
  t_name <$> filter (λ t, t_alive t = true) ts.

(** [len(set(a) & set(b))] *)
Definition len_set_and (a b : list handle) : nat :=
  length (remove_dups (list_intersection a b)).

(** The channels to enable, lines 1103-1110.  For the broadcast module the
    source builds a [set] of the ['RX'] entries of every configuration; a list
    entry, as the derived groups have, is not hashable. *)
Definition enabled_fe_channels : M (list string) :=
  h ← current_module_handle;
  cfgs ← gets _module_cfgs;
  modules ← gets _modules;
  groups ← gets _tx_module_groups;
  match h with
  | None =>
      if forallb (λ kv : handle * module_cfg, is_scalar (RX kv.2)) (map_to_list cfgs)
      then ret (remove_dups ((map_to_list cfgs).*2 ≫= λ c, multi_list (RX c)))
      else raise (new_exc TypeError "unhashable type: list" "start_readout")
  | Some name =>
      if decide (is_Some (modules !! name)) then
        cfg ← get_module_cfg h; ret (multi_list (RX cfg))
      else if decide (is_Some (groups !! name)) then
        cfg ← get_module_cfg h; ret (multi_list (RX cfg))
      else ret []
  end.

(** The guards and the registration, lines 1084-1095 (the call is made
    without scan parameters). *)
Definition register_reader : M unit :=
  ts ← gets _scan_threads;
  thr ← gets current_thread;
  running ← gets _running_readout_t;
  if negb (bool_decide (ts = [])) && negb (bool_decide (thr ∈ thread_names ts)) then
    raise (new_exc RuntimeError "Thread name is not valid." "start_readout")
  else if negb (bool_decide (ts = [])) && bool_decide (Some thr ∈ running) then
    raise (new_exc RuntimeError "Thread is already actively reading FIFO." "start_readout")
  else if negb (bool_decide (ts = [])) then
    modify (λ st, set_running_readout_t (_running_readout_t st ++ [Some thr]) st) ;;
    modify (set_readout_event false)
  else
    h ← current_module_handle;
    modify (λ st, set_running_readout_t (_running_readout_t st ++ [h]) st) ;;
    modify (set_readout_event false).

(** One turn of the waiting loop, lines 1096-1115; [true] when the loop is
    left. *)
Definition poll_start : M bool :=
  signalled ← gets _readout_event;
  if signalled : bool then ret true
  else
    aborted ← gets abort_run;
    if aborted : bool then ret true
    else
      ts ← gets _scan_threads;
      running ← gets _running_readout_t;
      if bool_decide (len_set_and running (Some <$> alive_names ts)
                      = length (remove_dups (alive_names ts)))
         || bool_decide (ts = [])
      then
        is_running ← gets fifo_is_running;
        (if negb is_running then
           chs ← enabled_fe_channels;
           emit (ev_fifo_start chs) ;;
           modify (set_fifo_is_running true) ;;
           modify (set_readout_event true)
         else ret ()) ;;
        ret true
      else ret false.

(** The loop, for at most [fuel] turns; [false] when the caller is still
    waiting after them. *)
Fixpoint wait_start (fuel : nat) : M bool :=
  match fuel with
  | 0 => ret false
  | S fuel' =>
      left ← poll_start;
      if left : bool then ret true else wait_start fuel'
  end.

Definition start_readout (fuel : nat) : M bool :=
  register_reader ;; wait_start fuel.


(** *** Module registry, lines 168-273 *)

(** The run object as lines 85-95 of [__init__] leave it, for a run
    configuration and a calling thread. *)
Definition new_run (reset_rx broadcast threaded : bool) (thread_name : string) : run :=
  {| reset_rx_on_error := reset_rx;
     broadcast_commands := broadcast;
     threaded_scan := threaded;
     abort_run := false;
     stop_run := false;
     err_queue := [];
     _module_cfgs := ∅;
     _modules := ∅;
     _tx_module_groups := ∅;
     _fifo_module_groups := ∅;
     _registers := ∅;
     _raw_data_files := [];
     _module_attr := ∅;
     _scan_threads := [];
     _running_readout_t := [];
     _readout_event := false;
     fifo_is_running := false;
     _current_module_handle := None;
     raw_data_file := None;
     _initialized := None;
     inst_dict := ∅;
     current_thread := thread_name;
     restore_config_stack := [] |}.

(** [_parse_module_cfgs], lines 168-203, on the entries of
    [conf['modules']]; the checks for missing items are met by every
    [module_conf]. *)
Definition _parse_module_cfgs (conf_modules : gmap string module_conf) : M unit :=
  if decide (conf_modules = ∅) then
    raise (new_exc ValueError "No module configuration specified" "_parse_module_cfgs")
  else
    for_each (map_to_list conf_modules)
      (λ '(module_id, module_cfg),
         if is_substring "module_group" module_id then
           raise (new_exc ValueError "The module ID contains the reserved name module_group."
                    "_parse_module_cfgs")
         else
           modify (λ st, set_module_cfgs (<[Some module_id := of_conf module_cfg]> (_module_cfgs st)) st) ;;
           modify (λ st, set_modules (<[module_id := [module_id]]> (_modules st)) st)).

(** [{key: value for (key, value) in self._module_cfgs.items() if key in self._modules}] *)
Definition real_modules (st : run) : list (string * module_cfg) :=
  omap (λ kv : handle * module_cfg,
          match kv.1 with
          | Some name =>
              if decide (is_Some (_modules st !! name)) then Some (name, kv.2) else None
          | None => None
          end)
       (map_to_list (_module_cfgs st)).

(** The scalar entry of a configuration under a key. *)
Definition scalar {A} (m : multi A) : list A :=
  match m with
  | One a => [a]
  | Many _ => []
  end.

(** Modelled from the spec: [groupby_dict] is defined in
    [pybar/utils/utils.py], which is not among the sources; it partitions the
    keys of a dict of configurations by the value they have under one key. *)
Definition groupby_dict (d : list (string * module_cfg)) (key : module_cfg → multi string)
    : gmap string (list string) :=
  list_to_map
    ((λ v, (v, (filter (λ kv, key kv.2 = One v) d).*1))
       <$> remove_dups (d.*2 ≫= λ c, scalar (key c))).

(** [[cfg for module_id, cfg in self._module_cfgs.items() if module_id in module_group]] *)
Definition group_cfgs (module_group : list string) (st : run) : list module_cfg :=
  (filter (λ kv : handle * module_cfg, kv.1 ∈ (Some <$> module_group))
          (map_to_list (_module_cfgs st))).*2.

(** [[self._module_cfgs[module_id] for module_id in self._modules]] *)
Fixpoint module_cfgs_of (names : list string) : M (list module_cfg) :=
  match names with
  | [] => ret []
  | name :: names' =>
      cfg ← get_module_cfg (Some name);
      cfgs ← module_cfgs_of names';
      ret (cfg :: cfgs)
  end.

(** [list(set([cfg[key] for cfg in cfgs]))] *)
Definition uniq `{EqDecision A} (key : module_cfg → multi A) (cfgs : list module_cfg) : multi A :=
  Many (remove_dups (cfgs ≫= λ c, scalar (key c))).

(** The entry for [None], lines 212-224. *)
Definition all_drivers_cfg (cfgs : list module_cfg) : module_cfg :=
  {| fe_flavor := None;
     chip_address := None;
     FIFO := uniq FIFO cfgs;
     RX := uniq RX cfgs;
     rx_channel := uniq rx_channel cfgs;
     TX := uniq TX cfgs;
     tx_channel := uniq tx_channel cfgs;
     TDC := uniq TDC cfgs;
     tdc_channel := uniq tdc_channel cfgs;
     TLU := uniq TLU cfgs;
     fe_configuration := None;
     send_data := None |}.

(** The entry of a command-line group, lines 237-249. *)
Definition tx_group_cfg (flavor : option string) (tx : string) (cfgs : list module_cfg)
    : module_cfg :=
  {| fe_flavor := flavor;
     chip_address := None;
     FIFO := uniq FIFO cfgs;
     RX := uniq RX cfgs;
     rx_channel := uniq rx_channel cfgs;
     TX := One tx;
     tx_channel := uniq tx_channel cfgs;
     TDC := uniq TDC cfgs;
     tdc_channel := uniq tdc_channel cfgs;
     TLU := uniq TLU cfgs;
     fe_configuration := None;
     send_data := None |}.

(** The entry of a FIFO group, lines 257-269. *)
Definition fifo_group_cfg (fifo : string) (cfgs : list module_cfg) : module_cfg :=
  {| fe_flavor := None;
     chip_address := None;
     FIFO := One fifo;
     RX := uniq RX cfgs;
     rx_channel := uniq rx_channel cfgs;
     TX := uniq TX cfgs;
     tx_channel := uniq tx_channel cfgs;
     TDC := uniq TDC cfgs;
     tdc_channel := uniq tdc_channel cfgs;
     TLU := uniq TLU cfgs;
     fe_configuration := None;
     send_data := None |}.

Definition fe_flavor_error (tx : string) : exc_info :=
  new_exc ValueError
    ("Parameter fe_flavor must be the same for module group TX=" +:+ tx)
    "_set_default_cfg".

Definition chip_address_error (tx : string) : exc_info :=
  new_exc ValueError
    ("Parameter chip_address must be different for each module in module group TX=" +:+ tx)
    "_set_default_cfg".

Definition multi_fifo_error : exc_info :=
  new_exc NotImplementedError "Handling of more than one FIFO is not implemented."
    "_set_default_cfg".

(** The body of the loop over the command-line groups, lines 228-250. *)
Definition derive_tx_group (tx : string) (module_group : list string) : M unit :=
  cfgs ← gets (group_cfgs module_group);
  let fe_flavors := remove_dups (fe_flavor <$> cfgs) in
  if decide (length fe_flavors ≠ 1) then raise (fe_flavor_error tx)
  else
    let chip_addresses := remove_dups (chip_address <$> cfgs) in
    if decide (length module_group ≠ length chip_addresses
               ∨ (length module_group ≠ 1 ∧ None ∈ chip_addresses))
    then raise (chip_address_error tx)
    else
      modify (λ st, set_module_cfgs
                      (<[Some ("module_group_TX=" +:+ tx)
                         := tx_group_cfg (default None (head fe_flavors)) tx cfgs]>
                         (_module_cfgs st)) st) ;;
      modify (λ st, set_tx_module_groups
                      (<["module_group_TX=" +:+ tx := module_group]> (_tx_module_groups st)) st).

(** The body of the loop over the FIFO groups, lines 256-270. *)
Definition derive_fifo_group (fifo : string) (module_group : list string) : M unit :=
  cfgs ← gets (group_cfgs module_group);
  modify (λ st, set_module_cfgs
                  (<[Some ("module_group_FIFO=" +:+ fifo) := fifo_group_cfg fifo cfgs]>
                     (_module_cfgs st)) st) ;;
  modify (λ st, set_fifo_module_groups
                  (<["module_group_FIFO=" +:+ fifo := module_group]> (_fifo_module_groups st)) st).

(** [_set_default_cfg], lines 205-273. *)
Definition _set_default_cfg : M unit :=
  modules ← gets _modules;
  all ← module_cfgs_of (keys modules);
  modify (λ st, set_module_cfgs (<[None := all_drivers_cfg all]> (_module_cfgs st)) st) ;;
  tx_groups ← gets (λ st, groupby_dict (real_modules st) TX);
  for_each (map_to_list tx_groups) (λ '(tx, module_group), derive_tx_group tx module_group) ;;
  fifo_groups ← gets (λ st, groupby_dict (real_modules st) FIFO);
  if decide (1 < size fifo_groups) then raise multi_fifo_error
  else
    for_each (map_to_list fifo_groups)
      (λ '(fifo, module_group), derive_fifo_group fifo module_group) ;;
    modify (λ st, set_module_attr ((λ _, ∅) <$> _module_cfgs st) st).

(** [__init__], lines 81-110. *)
Definition __init__ (conf_modules : gmap string module_conf) : M unit :=
  _parse_module_cfgs conf_modules ;;
  _set_default_cfg ;;
  modify (set_scan_threads []) ;;
  modify (set_running_readout_t []) ;;
  modify (set_readout_event false) ;;
  modify (set_current_module_handle None) ;;
  modify (set_raw_data_file None) ;;
  modify (set_initialized (Some true)).

(** What [init_modules] (lines 428-522) adds to the run object: a register
    object and its utilities for every module and every command-line group
    (lines 447 and 485-486). *)
Definition init_modules (st : run) : run :=
  set_registers
    (list_to_set ((Some <$> keys (_modules st)) ++ (Some <$> keys (_tx_module_groups st))))
    st.

End RunBase.

(** ** Sample runs *)

Module Samples.
Import RunBase.

Definition sample_module (flavor : string) (addr : option nat) (fifo tx rx : string)
    (channel : nat) : module_conf :=
  {| m_fe_flavor := flavor;
     m_chip_address := addr;
     m_FIFO := fifo;
     m_RX := rx;
     m_rx_channel := channel;
     m_TX := tx;
     m_tx_channel := channel;
     m_TDC := None;
     m_tdc_channel := None;
     m_TLU := "TRIGGER_CH0";
     m_fe_configuration := None;
     m_send_data := None |}.

(** One module on one command line. *)
Definition one_module : gmap string module_conf :=
  {[ "module_0" := sample_module "fei4b" (Some 0) "SRAM" "CMD_CH0" "DATA_CH0" 0 ]}.

(** Two modules with distinct addresses on one command line. *)
Definition two_modules : gmap string module_conf :=
  {[ "module_0" := sample_module "fei4b" (Some 0) "SRAM" "CMD_CH0" "DATA_CH0" 0;
     "module_1" := sample_module "fei4b" (Some 1) "SRAM" "CMD_CH0" "DATA_CH1" 1 ]}.

(** Two modules on one command line, one of them addressed by broadcast. *)
Definition with_broadcast_member : gmap string module_conf :=
  {[ "module_0" := sample_module "fei4b" (Some 0) "SRAM" "CMD_CH0" "DATA_CH0" 0;
     "module_1" := sample_module "fei4b" None "SRAM" "CMD_CH0" "DATA_CH1" 1 ]}.

(** Two modules on two command lines that deliver into different FIFOs. *)
Definition two_fifos : gmap string module_conf :=
  {[ "module_0" := sample_module "fei4b" (Some 0) "SRAM" "CMD_CH0" "DATA_CH0" 0;
     "module_1" := sample_module "fei4b" (Some 1) "SRAM_2" "CMD_CH1" "DATA_CH1" 1 ]}.

(** Two modules with the same address on one command line that deliver into
    different FIFOs. *)
Definition two_fifos_one_address : gmap string module_conf :=
  {[ "module_0" := sample_module "fei4b" (Some 0) "SRAM" "CMD_CH0" "DATA_CH0" 0;
     "module_1" := sample_module "fei4b" (Some 0) "SRAM_2" "CMD_CH0" "DATA_CH1" 1 ]}.

(** The run object between [_parse_module_cfgs] and [_set_default_cfg]. *)
Definition after_parse (conf_modules : gmap string module_conf) : run :=
  final (_parse_module_cfgs conf_modules (new_run false false false "MainThread")).

(** A scan class whose methods report nothing and return. *)
Definition quiet_code : user_code := mk_user_code [] None.

Definition quiet_scan : ScanClass :=
  {| configure_impl := λ _, quiet_code;
     scan_impl := λ _, quiet_code;
     analyze_impl := λ _, quiet_code |}.

(** The run object once [__init__] and [init_modules] are through, in the
    main thread. *)
Definition ready (reset_rx broadcast threaded : bool)
    (conf_modules : gmap string module_conf) : run :=
  init_modules
    (final (__init__ conf_modules (new_run reset_rx broadcast threaded "MainThread"))).

(** Three faults reported one after the other by different threads: a
    receiver fault, a fault of no well-known class, a buffer fault. *)
Definition F1 : exc_info := new_exc RxSyncError "RX sync error" "module_0".
Definition F2 : exc_info := new_exc (OtherError "IOError") "disk full" "module_1".
Definition F3 : exc_info := new_exc FifoError "FIFO overflow" "module_0".

(** A run at teardown with the given faults queued and the abort flag
    set. *)
Definition torn_down (queue : list exc_info) : run :=
  set_err_queue queue (set_abort_run true (ready false false false two_modules)).

(** A base class that knows no attribute. *)
Definition no_attribute : string → outcome value :=
  λ _, Raise (new_exc AttributeError "has no attribute" "RunBase.__getattr__").



End Samples.

(** ** Layout of the register tables *)

Module Fei4Layout.
Import Fei4Defines.

(** An entry of the ['pixel_registers'] dict.  ['pxstrobe'] is the first
    latch of the register, or the string ['SR'] for the entry that has no
    latch ([None] here). *)
Record pixel_register := mk_pxreg {
  px_value : N;
  px_bitlength : nat;
  pxstrobe : option nat;
  px_littleendian : bool
}.

(** [fei4a['pixel_registers']], lines 141-149 (descriptions dropped); [fei4b]
    is [dict(fei4a)] updated on ['flavor'] and ['global_registers'] only and
    shares this table. *)
Definition pixel_registers : list (string * pixel_register) :=
  [ ("Enable", mk_pxreg 1 1 (Some 0) false);
    ("TDAC", mk_pxreg 16 5 (Some 1) true);
    ("C_High", mk_pxreg 1 1 (Some 6) false);
    ("C_Low", mk_pxreg 1 1 (Some 7) false);
    ("Imon", mk_pxreg 1 1 (Some 8) false);
    ("FDAC", mk_pxreg 8 4 (Some 9) false);
    ("EnableDigInj", mk_pxreg 0 1 None false) ].

(** The position of the first bit of a global register, counted from bit 0
    of address word 0. *)
Definition first_bit (r : global_register) : nat :=
  address r * word_width + bit_offset r.

(** Bit [p] of the address space belongs to the register. *)
Definition covers (p : nat) (r : global_register) : bool :=
  (first_bit r <=? p) && (p <? first_bit r + bitlength r).

(** The names of the entries that bit [p] belongs to. *)
Definition owners (p : nat) (table : list (string * global_register)) : list string :=
  (filter (λ e, covers p e.2 = true) table).*1.

(** The entries of the table follow one another without a gap from bit
    [start] on, each at least one bit long; the result is the bit after the
    last entry. *)
Fixpoint contiguous (start : nat) (table : list (string * global_register)) : option nat :=
  match table with
  | [] => Some start
  | e :: table' =>
      if bool_decide (first_bit e.2 = start ∧ 0 < bitlength e.2)
      then contiguous (start + bitlength e.2) table'
      else None
  end.

(** Latch [p] belongs to the pixel register. *)
Definition latches (p : nat) (r : pixel_register) : bool :=
  match pxstrobe r with
  | Some s => (s <=? p) && (p <? s + px_bitlength r)
  | None => false
  end.

Definition latch_owners (p : nat) : list string :=
  (filter (λ e, latches p e.2 = true) pixel_registers).*1.

(** The number a string of [0]s and [1]s spells, most significant bit
    first. *)
Fixpoint binary_aux (acc : N) (s : string) : N :=
  match s with
  | EmptyString => acc
  | String c s' => binary_aux (2 * acc + (if Ascii.eqb c "1"%char then 1 else 0))%N s'
  end.

Definition binary (s : string) : N := binary_aux 0 s.

(** The address space of the global registers: 64 words. *)
Definition address_bits : nat := 64 * word_width.

End Fei4Layout.

(** ** The items of a module configuration *)

Module ModuleConf.
Import RunBase.

(** An entry of [conf['modules']] as the configuration file gives it: a dict
    from item names to values. *)
Abbreviation raw_cfg := (gmap string value).

(** Line 37. *)
Definition _reserved_driver_names : list string := ["FIFO"; "TX"; "RX"; "TLU"; "TDC"].

(** [d.setdefault(key, None)] *)
Definition setdefault (key : string) (d : raw_cfg) : raw_cfg :=
  match d !! key with
  | Some _ => d
  | None => <[key := VNone]> d
  end.

(** [key not in d or d[key] is None] *)
Definition undefined (key : string) (d : raw_cfg) : bool :=
  match d !! key with
  | None | Some VNone => true
  | Some _ => false
  end.

Definition no_parameter (name module_id : string) : exc_info :=
  new_exc ValueError
    ("No parameter " +:+ name +:+ " defined for module " +:+ module_id)
    "_parse_module_cfgs".

Definition reserved_name : exc_info :=
  new_exc ValueError "The module ID contains the reserved name module_group."
    "_parse_module_cfgs".

(** The loop over the reserved driver names, lines 180-187: the dict as
    the loop leaves it, and the exception it raises, if any. *)
Fixpoint check_drivers (module_id : string) (names : list string) (d : raw_cfg)
    : raw_cfg * option exc_info :=
  match names with
  | [] => (d, None)
  | driver_name :: names' =>
      if decide (driver_name = "TDC") then
        check_drivers module_id names' (setdefault "TDC" d)
      else if undefined driver_name d then
        (d, Some (no_parameter driver_name module_id))
      else check_drivers module_id names' d
  end.

(** The checks and defaults for one module, lines 178-198: the dict of the
    module afterwards (it is updated in place) and the exception raised, if
    any. *)
Definition check_module_cfg (module_id : string) (d : raw_cfg) : raw_cfg * option exc_info :=
  if is_substring "module_group" module_id then (d, Some reserved_name)
  else
    let r := check_drivers module_id _reserved_driver_names d in
    match r.2 with
    | Some e => r
    | None =>
        let d := r.1 in
        if undefined "rx_channel" d then (d, Some (no_parameter "rx_channel" module_id))
        else if undefined "tx_channel" d then (d, Some (no_parameter "tx_channel" module_id))
        else if undefined "fe_flavor" d then (d, Some (no_parameter "fe_flavor" module_id))
        else if bool_decide (d !! "chip_address" = None) then
          (d, Some (no_parameter "chip_address" module_id))
        else
          (setdefault "send_data" (setdefault "fe_configuration" (setdefault "tdc_channel" d)),
           None)
    end.

Definition of_option {A} (f : A → value) (o : option A) : value :=
  match o with
  | Some a => f a
  | None => VNone
  end.

Definition VNat (n : nat) : value := VInt (Z.of_nat n).

(** The dict of an accepted module, item by item. *)
Definition raw_of (c : module_conf) : raw_cfg :=
  list_to_map
    [ ("fe_flavor", VStr (m_fe_flavor c));
      ("chip_address", of_option VNat (m_chip_address c));
      ("FIFO", VStr (m_FIFO c));
      ("RX", VStr (m_RX c));
      ("rx_channel", VNat (m_rx_channel c));
      ("TX", VStr (m_TX c));
      ("tx_channel", VNat (m_tx_channel c));
      ("TDC", of_option VStr (m_TDC c));
      ("tdc_channel", of_option VNat (m_tdc_channel c));
      ("TLU", VStr (m_TLU c));
      ("fe_configuration", of_option VStr (m_fe_configuration c));
      ("send_data", of_option VStr (m_send_data c)) ].

(** The items that have to be there and not [None], in the order of the
    checks. *)
Definition required_items : list string :=
  ["FIFO"; "TX"; "RX"; "TLU"; "rx_channel"; "tx_channel"; "fe_flavor"].

(** The items that default to [None]. *)
Definition optional_items : list string :=
  ["TDC"; "tdc_channel"; "fe_configuration"; "send_data"].

(** A module as minimal as the checks allow. *)
Definition minimal : raw_cfg :=
  list_to_map
    [ ("FIFO", VStr "SRAM"); ("TX", VStr "CMD_CH0"); ("RX", VStr "DATA_CH0");
      ("TLU", VStr "TRIGGER_CH0"); ("rx_channel", VInt 0); ("tx_channel", VInt 0);
      ("fe_flavor", VStr "fei4b"); ("chip_address", VNone) ].

End ModuleConf.

(** ** Leaving the readout *)

Module Readout.
Import RunBase.

(** [l.remove(x)]: the list without its first [x]; nothing when [x] is not
    in the list, where Python raises a ValueError. *)
Fixpoint list_remove (x : handle) (l : list handle) : option (list handle) :=
  match l with
  | [] => None
  | y :: l' => if decide (x = y) then Some l' else (y ::.) <$> list_remove x l'
  end.

Definition not_in_list : exc_info :=
  new_exc ValueError "list.remove(x): x not in list" "stop_readout".

(** Modelled from the spec: [FifoReadout.stop] is defined in
    [pybar/daq/fifo_readout.py], which is not among the sources; it takes the
    physical reader from running to idle. *)
Definition fifo_stop : M unit := modify (set_fifo_is_running false).

(** [self._running_readout_t.remove(h)] *)
Definition remove_reader (h : handle) : M unit :=
  running ← gets _running_readout_t;
  match list_remove h running with
  | Some running' => modify (set_running_readout_t running')
  | None => raise not_in_list
  end.

(** The guards and the deregistration, lines 1118-1129. *)
Definition unregister_reader : M unit :=
  ts ← gets _scan_threads;
  thr ← gets current_thread;
  running ← gets _running_readout_t;
  if negb (bool_decide (ts = [])) && negb (bool_decide (thr ∈ thread_names ts)) then
    raise (new_exc RuntimeError "Thread name is not valid." "stop_readout")
  else if negb (bool_decide (ts = [])) && negb (bool_decide (Some thr ∈ running)) then
    raise (new_exc RuntimeError "Thread is not reading FIFO." "stop_readout")
  else if negb (bool_decide (ts = [])) then
    remove_reader (Some thr) ;;
    modify (set_readout_event false)
  else
    h ← current_module_handle;
    remove_reader h ;;
    modify (set_readout_event false).

(** One turn of the waiting loop, lines 1130-1140; [true] when the loop is
    left. *)
Definition poll_stop : M bool :=
  signalled ← gets _readout_event;
  if signalled : bool then ret true
  else
    aborted ← gets abort_run;
    if aborted : bool then ret true
    else
      ts ← gets _scan_threads;
      running ← gets _running_readout_t;
      if bool_decide (len_set_and running (Some <$> alive_names ts) = 0)
         || bool_decide (ts = [])
      then
        is_running ← gets fifo_is_running;
        (if is_running : bool then
           fifo_stop ;;
           modify (set_readout_event true)
         else ret ()) ;;
        ret true
      else ret false.

(** The loop, for at most [fuel] turns; [false] when the caller is still
    waiting after them. *)
Fixpoint wait_stop (fuel : nat) : M bool :=
  match fuel with
  | 0 => ret false
  | S fuel' =>
      left ← poll_stop;
      if left : bool then ret true else wait_stop fuel'
  end.

(** [stop_readout], lines 1117-1140. *)
Definition stop_readout (fuel : nat) : M bool :=
  unregister_reader ;; wait_stop fuel.

(** The finally clause of [readout], lines 1067-1070. *)
Definition stop_if_aborted : M unit :=
  aborted ← gets abort_run;
  if aborted : bool then
    is_running ← gets fifo_is_running;
    if is_running : bool then fifo_stop else ret ()
  else ret ().

(** The context manager [readout], lines 1057-1070, around a body (the call
    is made without scan parameters); [false] when one of the two waiting
    loops is still waiting after [fuel] turns. *)
Definition readout (fuel : nat) (body : M unit) : M bool :=
  started ← start_readout fuel;
  if started : bool then
    try_finally (body ;; stop_readout fuel) stop_if_aborted
  else ret false.

End Readout.

Module ReadoutSamples.
Import RunBase.

(** A threaded scan of two modules: both scan threads are alive, none has
    registered for the readout, and the thread of [module_0] is running. *)
Definition two_threads : run :=
  set_scan_threads [mk_thread "module_0" true None; mk_thread "module_1" true None]
    (set_current_thread "module_0" (Samples.ready false false true Samples.two_modules)).

(** The same once the thread of [module_1] has registered. *)
Definition second_thread_waiting : run :=
  set_running_readout_t [Some "module_1"] two_threads.

(** The thread of [module_0] as the only active reader of a running FIFO
    readout. *)
Definition last_reader : run :=
  set_fifo_is_running true (set_running_readout_t [Some "module_0"] two_threads).

(** A sequential scan with [module_0] selected, before the readout. *)
Definition sequential_scan : run :=
  set_current_module_handle (Some "module_0")
    (Samples.ready false false false Samples.two_modules).

End ReadoutSamples.

(** ** Handles for several drivers *)

Module Handles.
Import RunBase.

(** The basil DUT is outside the repository.  What [RhlHandle] needs of it:
    reading and writing an item of a named driver ([dut[m][name]]), and
    whether the driver is a [RegisterHardwareLayer].  Each may raise. *)
Class Dut (D : Type) := {
  dut_get : D → string → string → outcome Z;
  dut_set : D → string → string → Z → outcome D;
  is_register_layer : D → string → outcome bool
}.

(** A DUT as a dict of drivers, each a dict of items; a driver that is not a
    register layer has no items to read or write. *)
Record driver := mk_driver {
  register_layer : bool;
  items : gmap string Z
}.

Definition no_driver : exc_info := new_exc KeyError "driver" "Dut.__getitem__".
Definition no_item : exc_info := new_exc KeyError "item" "RegisterHardwareLayer".

#[global] Instance dict_dut : Dut (gmap string driver) := {
  dut_get d m name :=
    match d !! m with
    | None => Raise no_driver
    | Some drv =>
        match items drv !! name with
        | Some v => Return v
        | None => Raise no_item
        end
    end;
  dut_set d m name v :=
    match d !! m with
    | None => Raise no_driver
    | Some drv => Return (<[m := mk_driver (register_layer drv) (<[name := v]> (items drv))]> d)
    end;
  is_register_layer d m :=
    match d !! m with
    | None => Raise no_driver
    | Some drv => Return (register_layer drv)
    end
}.

Section RhlHandle.
Context {D : Type} `{!Dut D}.

(** A list built element by element; the first element that raises ends
    it. *)
Fixpoint collect {A B} (f : A → outcome B) (l : list A) : outcome (list B) :=
  match l with
  | [] => Return []
  | x :: l' =>
      match f x with
      | Raise e => Raise e
      | Return y =>
          match collect f l' with
          | Raise e => Raise e
          | Return ys => Return (y :: ys)
          end
      end
  end.

Definition duplicate_entries : exc_info :=
  new_exc ValueError "Parameter module_names contains duplicate entries." "RhlHandle.__init__".

Definition not_register_layers : exc_info :=
  new_exc ValueError
    "Not all modules are of type basil.HL.RegisterHardwareLayer.RegisterHardwareLayer."
    "RhlHandle.__init__".

Definition different_values : exc_info :=
  new_exc RuntimeError "Returned values are different." "RhlHandle.__getitem__".

(** [RhlHandle.__init__], lines 1238-1246: the module names the handle
    keeps. *)
Definition RhlHandle_init (dut : D) (module_names : list string) : outcome (list string) :=
  if decide (length (remove_dups module_names) ≠ length module_names) then
    Raise duplicate_entries
  else
    match module_names with
    | [] => Return []
    | _ =>
        match collect (is_register_layer dut) module_names with
        | Raise e => Raise e
        | Return kinds =>
            if forallb id kinds then Return module_names
            else Raise not_register_layers
        end
    end.

(** [RhlHandle.__getitem__], lines 1248-1254. *)
Definition RhlHandle_getitem (dut : D) (module_names : list string) (name : string)
    : outcome Z :=
  match collect (λ module_name, dut_get dut module_name name) module_names with
  | Raise e => Raise e
  | Return values =>
      match remove_dups values with
      | [_] => Return (default 0%Z (head values))
      | _ => Raise different_values
      end
  end.

(** [RhlHandle.__setitem__], lines 1256-1258: the DUT as the loop leaves it,
    and the exception that ended it, if any. *)
Fixpoint RhlHandle_setitem (dut : D) (module_names : list string) (name : string) (v : Z)
    : D * option exc_info :=
  match module_names with
  | [] => (dut, None)
  | module_name :: rest =>
      match dut_set dut module_name name v with
      | Raise e => (dut, Some e)
      | Return dut' => RhlHandle_setitem dut' rest name v
      end
  end.

End RhlHandle.

(** The laws of a DUT whose items are stored: an item written is the item
    read, and writing it leaves every other item as it is. *)
Record stores (D : Type) `{!Dut D} : Prop := {
  get_set : ∀ dut dut' m name v,
    dut_set dut m name v = Return dut' → dut_get dut' m name = Return v;
  get_set_other : ∀ dut dut' m name v m' name',
    dut_set dut m name v = Return dut' → (m', name') ≠ (m, name) →
    dut_get dut' m' name' = dut_get dut m' name'
}.

(** A DUT with two receivers that hold the same items. *)
Definition two_receivers : gmap string driver :=
  {[ "DATA_CH0" := mk_driver true {[ "ENABLE_RX" := 0%Z ]};
     "DATA_CH1" := mk_driver true {[ "ENABLE_RX" := 0%Z ]} ]}.

End Handles.

(** ** Vocabulary of the properties *)

Module Props.
Import RunBase.

Definition is_return {A} (o : outcome A) : bool :=
  match o with
  | Return _ => true
  | Raise _ => false
  end.

(** A relation between the run object before a call, the collaborator calls
    made, whether the call returned, and the run object after it. *)
Definition call_rel : Type := run → list event → bool → run → Prop.

(** The relations that hold of a method as soon as they hold of its
    steps. *)
Record closed (R : call_rel) : Prop := {
  closed_ret : ∀ st, R st [] true st;
  closed_raise : ∀ st, R st [] false st;
  closed_seq : ∀ st1 e1 b1 st2 e2 b2 st3,
    R st1 e1 b1 st2 → R st2 e2 b2 st3 → R st1 (e1 ++ e2) (b1 && b2) st3
}.

Definition respects {A} (R : call_rel) (m : M A) : Prop :=
  ∀ st, R st (emitted (m st)) (is_return (out (m st))) (final (m st)).

(** Relations between the run object before and after. *)
Definition state_rel (Q : run → run → Prop) : call_rel := λ st _ _ st', Q st st'.

(** Properties of the collaborator calls alone. *)
Definition trace_rel (P : list event → Prop) : call_rel := λ _ evs _ _, P evs.

(** Properties of the collaborator calls of the calls that return. *)
Definition return_rel (P : list event → Prop) : call_rel :=
  λ _ evs b _, b = true → P evs.


(** *** Order of the chip mode and the register snapshot *)

(** Every restore of a snapshot comes after some switch to configuration
    mode. *)
Definition conf_mode_before_restore (tr : list event) : Prop :=
  ∀ i h, tr !! i = Some (ev_restore h) →
    ∃ j g, j < i ∧ tr !! j = Some (ev_set_conf_mode g).

(** Every switch to configuration mode is followed at once by the restore
    of the snapshot of the same handle. *)
Definition restore_follows_conf_mode (tr : list event) : Prop :=
  ∀ i h, tr !! i = Some (ev_set_conf_mode h) → tr !! (S i) = Some (ev_restore h).

(** Every restore comes right after the switch to configuration mode of
    the same handle. *)
Definition conf_mode_right_before_restore (tr : list event) : Prop :=
  ∀ i h, tr !! i = Some (ev_restore h) →
    ∃ j, i = S j ∧ tr !! j = Some (ev_set_conf_mode h).

(** Between the capture of a snapshot and its restore there is no switch to
    configuration mode. *)
Definition restored_without_conf_mode (tr : list event) : Prop :=
  ∀ i h, tr !! i = Some (ev_restore h) →
    ∃ k, k < i ∧ tr !! k = Some (ev_create_restore_point h)
         ∧ ∀ j g, k < j < i → tr !! j ≠ Some (ev_set_conf_mode g).

(** The calls other than the switch to configuration mode and the
    restore. *)
Definition plain (ev : event) : bool :=
  match ev with
  | ev_set_conf_mode _ | ev_restore _ => false
  | _ => true
  end.

Definition is_restore (ev : event) : bool :=
  match ev with
  | ev_restore _ => true
  | _ => false
  end.

Definition is_conf_mode (ev : event) : bool :=
  match ev with
  | ev_set_conf_mode _ => true
  | _ => false
  end.

(** The parts of the run object that decide which module and which register
    object a call addresses. *)
Definition untouched (st st' : run) : Prop :=
  restore_config_stack st' = restore_config_stack st
  ∧ _current_module_handle st' = _current_module_handle st
  ∧ current_thread st' = current_thread st
  ∧ _module_cfgs st' = _module_cfgs st
  ∧ _registers st' = _registers st.

(** The relations that the steps outside the restore logic respect. *)
Record tolerant (R : call_rel) : Prop := {
  tolerant_closed : closed R;
  tolerant_emit : ∀ ev st, plain ev = true → R st [ev] true st;
  tolerant_modify : ∀ st st', untouched st st' → R st [] true st'
}.

(** Those that do not depend on the module pointer either. *)
Record pointer_tolerant (R : call_rel) : Prop := {
  pointer_tolerant_tolerant : tolerant R;
  pointer_tolerant_select : ∀ st p, R st [] true (set_current_module_handle p st)
}.

(** Inside the block of an [ExitStack]: plain calls only, and every handle
    on the stack afterwards was there before or had its snapshot captured. *)
Definition stack_rel : call_rel := λ st evs _ st',
  Forall (λ ev, plain ev = true) evs
  ∧ ∀ h, h ∈ restore_config_stack st' →
      h ∈ restore_config_stack st ∨ ev_create_restore_point h ∈ evs.

(** The order of the individual, sequential strategy. *)
Definition conf_mode_then_restore_rel : call_rel := λ _ evs b _,
  restore_follows_conf_mode evs ∧ (b = true → conf_mode_right_before_restore evs).

(** *** Module configurations *)

(** The run object holds the modules of [conf_modules] as
    [_parse_module_cfgs] stores them (lines 200-201), none of them with a
    reserved id (line 178). *)
Definition parsed (conf_modules : gmap string module_conf) (st : run) : Prop :=
  _module_cfgs st = kmap Some (of_conf <$> conf_modules)
  ∧ _modules st = map_imap (λ module_id _, Some [module_id]) conf_modules
  ∧ ∀ module_id, is_Some (conf_modules !! module_id) →
      is_substring "module_group" module_id = false.

(** Module [module_id], with configuration [c], is on command line [tx]. *)
Definition on_tx (conf_modules : gmap string module_conf) (tx module_id : string)
    (c : module_conf) : Prop :=
  conf_modules !! module_id = Some c ∧ m_TX c = tx.

(** Two modules of the command line differ in flavor. *)
Definition mixed_flavors (conf_modules : gmap string module_conf) (tx : string) : Prop :=
  ∃ a b ca cb,
    on_tx conf_modules tx a ca ∧ on_tx conf_modules tx b cb
    ∧ m_fe_flavor ca ≠ m_fe_flavor cb.

(** Two non-broadcast modules of the command line share a chip address. *)
Definition shared_address (conf_modules : gmap string module_conf) (tx : string) : Prop :=
  ∃ a b ca cb (address : nat),
    a ≠ b ∧ on_tx conf_modules tx a ca ∧ on_tx conf_modules tx b cb
    ∧ m_chip_address ca = Some address ∧ m_chip_address cb = Some address.

(** Two modules of the command line have the same [chip_address] entry, or
    one of them is a broadcast module ([None]). *)
Definition address_conflict (conf_modules : gmap string module_conf) (tx : string) : Prop :=
  ∃ a b ca cb,
    a ≠ b ∧ on_tx conf_modules tx a ca ∧ on_tx conf_modules tx b cb
    ∧ (m_chip_address ca = m_chip_address cb ∨ m_chip_address ca = None).

(** Two modules name different FIFOs. *)
Definition several_fifos (conf_modules : gmap string module_conf) : Prop :=
  ∃ a b ca cb,
    conf_modules !! a = Some ca ∧ conf_modules !! b = Some cb ∧ m_FIFO ca ≠ m_FIFO cb.

(** What the loop over the command-line groups relies on: the entries of
    the modules are in place. *)
Definition registry_inv (conf_modules : gmap string module_conf) (st : run) : Prop :=
  (∀ module_id c, conf_modules !! module_id = Some c →
     _module_cfgs st !! Some module_id = Some (of_conf c))
  ∧ (∀ module_id, is_Some (_modules st !! module_id) ↔ is_Some (conf_modules !! module_id)).

(** [group] lists, once each, the modules on command line [tx], and there
    is one at least. *)
Definition tx_group_of (conf_modules : gmap string module_conf) (tx : string)
    (group : list string) : Prop :=
  NoDup group
  ∧ (∃ module_id, module_id ∈ group)
  ∧ ∀ module_id, module_id ∈ group ↔ ∃ c, on_tx conf_modules tx module_id c.

End Props.

(** ** Vocabulary of the further properties *)

Module MoreProps.
Import RunBase Props.

(** The name under which the group of command line [tx] is stored. *)
Definition tx_group_name (tx : string) : string := "module_group_TX=" +:+ tx.

(** Every command-line group of the run object lists the modules of one
    command line of the configuration and has, under its name, a broadcast
    configuration for that command line in the flavor of its modules. *)
Definition tx_groups_inv (conf_modules : gmap string module_conf) (st : run) : Prop :=
  ∀ name group, _tx_module_groups st !! name = Some group →
    ∃ tx, name = tx_group_name tx
      ∧ tx_group_of conf_modules tx group
      ∧ ∃ cfg, _module_cfgs st !! Some name = Some cfg
          ∧ chip_address cfg = None
          ∧ TX cfg = One tx
          ∧ ∀ module_id c, on_tx conf_modules tx module_id c →
              fe_flavor cfg = Some (m_fe_flavor c).

(** Every module is a member of the group of its command line. *)
Definition tx_groups_cover (conf_modules : gmap string module_conf) (st : run) : Prop :=
  ∀ module_id c, conf_modules !! module_id = Some c →
    ∃ group, _tx_module_groups st !! tx_group_name (m_TX c) = Some group
             ∧ module_id ∈ group.

(** *** Faults *)




(** *** Register snapshots *)

Definition is_snapshot (ev : event) : bool :=
  match ev with
  | ev_create_restore_point _ | ev_restore _ => true
  | _ => false
  end.

(** How often the snapshot of [h] is captured, and how often reapplied. *)
Definition captures (h : handle) (evs : list event) : nat :=
  length (filter (λ ev, ev = ev_create_restore_point h) evs).

Definition restores (h : handle) (evs : list event) : nat :=
  length (filter (λ ev, ev = ev_restore h) evs).

(** How often [h] is on the restore stack. *)
Definition pending (h : handle) (st : run) : nat :=
  length (filter (λ g, g = h) (restore_config_stack st)).

(** Every snapshot captured is reapplied or still on the restore stack. *)
Definition snapshot_rel : call_rel := λ st evs _ st',
  ∀ h, captures h evs + pending h st = restores h evs + pending h st'.

(** Every snapshot is reapplied as often as it is captured. *)
Definition balanced (evs : list event) : Prop :=
  ∀ h, captures h evs = restores h evs.

(** The relations that the steps outside the snapshot logic respect. *)
Record quiet (R : call_rel) : Prop := {
  quiet_closed : closed R;
  quiet_emit : ∀ ev st, is_snapshot ev = false → R st [ev] true st;
  quiet_modify : ∀ st st',
    restore_config_stack st' = restore_config_stack st → R st [] true st';
  quiet_returns : ∀ st evs b st', R st evs b st' → R st evs true st'
}.

(** *** Aborted runs *)

(** The calls that run code of the scan class or act on the chips, their
    register objects or the FIFO readout. *)
Definition acts_on_chip (ev : event) : bool :=
  match ev with
  | ev_configure _ | ev_scan _ | ev_analyze _
  | ev_set_run_mode _ | ev_set_conf_mode _
  | ev_create_restore_point _ | ev_restore _
  | ev_save_configuration _ | ev_fifo_start _ => true
  | _ => false
  end.

(** Once the abort flag is set it stays set, nothing acts on the chips and
    the restore stack stays as it is. *)
Definition aborted_rel : call_rel := λ st evs _ st',
  abort_run st = true →
  abort_run st' = true
  ∧ Forall (λ ev, acts_on_chip ev = false) evs
  ∧ restore_config_stack st' = restore_config_stack st.

End MoreProps.

(** * Properties *)

Import Fei4Defines RunBase Props.

(** ** Reasoning about methods *)

Ltac unfold_M :=
  unfold mbind, M_bind, mret, M_ret, bind, ret, raise, gets, modify, emit,
    try_finally, try_except_else in *.

Lemma bind_final_return {A B} (m : M A) (k : A → M B) st a :
  out (m st) = Return a → final ((m ≫= k) st) = final (k a (final (m st))).
Proof. unfold_M. intros ->. reflexivity. Qed.

Lemma bind_out_return {A B} (m : M A) (k : A → M B) st a :
  out (m st) = Return a → out ((m ≫= k) st) = out (k a (final (m st))).
Proof. unfold_M. intros ->. reflexivity. Qed.

Lemma bind_emitted_return {A B} (m : M A) (k : A → M B) st a :
  out (m st) = Return a →
  emitted ((m ≫= k) st) = emitted (m st) ++ emitted (k a (final (m st))).
Proof. unfold_M. intros ->. reflexivity. Qed.

Lemma bind_raise {A B} (m : M A) (k : A → M B) st e :
  out (m st) = Raise e →
  (m ≫= k) st = mk_result (emitted (m st)) (final (m st)) (Raise e).
Proof. unfold_M. intros ->. reflexivity. Qed.

Lemma result_eta {A} (r : result A) : mk_result (emitted r) (final r) (out r) = r.
Proof. by destruct r. Qed.

Lemma bind_ret_l {A B} (a : A) (k : A → M B) st : (mret a ≫= k) st = k a st.
Proof. unfold_M. cbn. apply result_eta. Qed.

Lemma bind_gets {A B} (f : run → A) (k : A → M B) st : (gets f ≫= k) st = k (f st) st.
Proof. unfold_M. cbn. apply result_eta. Qed.

Lemma bind_modify {B} (f : run → run) (k : () → M B) st :
  (modify f ≫= k) st = k () (f st).
Proof. unfold_M. cbn. apply result_eta. Qed.

Lemma bind_emit {B} (ev : event) (k : () → M B) st :
  (emit ev ≫= k) st
  = mk_result (ev :: emitted (k () st)) (final (k () st)) (out (k () st)).
Proof. reflexivity. Qed.

Lemma bind_pure {A B} (m : M A) (k : A → M B) st a :
  m st = mk_result [] st (Return a) → (m ≫= k) st = k a st.
Proof. intros Hm. unfold_M. rewrite Hm. cbn. apply result_eta. Qed.

Lemma bind_raise_l {A B} (e : exc_info) (k : A → M B) st :
  (raise e ≫= k) st = mk_result [] st (Raise e).
Proof. reflexivity. Qed.

Section Respects.
Variable R : call_rel.
Hypothesis HR : closed R.

Lemma respects_ret {A} (a : A) : respects R (mret a).
Proof. intros st. apply HR. Qed.

Lemma respects_raise {A} e : respects R (@raise A e).
Proof. intros st. apply HR. Qed.

Lemma respects_gets {A} (f : run → A) : respects R (gets f).
Proof. intros st. apply HR. Qed.

Lemma respects_bind {A B} (m : M A) (k : A → M B) :
  respects R m → (∀ a, respects R (k a)) → respects R (m ≫= k).
Proof.
  intros Hm Hk st. specialize (Hm st). unfold_M.
  destruct (out (m st)) eqn:Ho; cbn in *.
  - apply (closed_seq R HR _ _ true _ _ _ _ Hm (Hk a _)).
  - exact Hm.
Qed.

Lemma respects_try_finally {A} (m : M A) fin :
  respects R m → respects R fin → respects R (try_finally m fin).
Proof.
  intros Hm Hf st. specialize (Hm st). specialize (Hf (final (m st))).
  unfold_M. cbn.
  replace (is_return _) with
    (is_return (out (m st)) && is_return (out (fin (final (m st))))).
  - eapply closed_seq; eauto.
  - destruct (out (m st)), (out (fin _)); reflexivity.
Qed.

Lemma respects_for_each {A} (l : list A) body :
  (∀ x, respects R (body x)) → respects R (for_each l body).
Proof.
  intros Hb. induction l as [|x l IH]; cbn.
  - apply respects_ret.
  - apply respects_bind; [apply Hb | intros _; apply IH].
Qed.

Lemma respects_for_unless_abort {A} (l : list A) body :
  (∀ x, respects R (body x)) → respects R (for_unless_abort l body).
Proof.
  intros Hb. induction l as [|x l IH]; cbn.
  - apply respects_ret.
  - apply respects_bind; [apply respects_gets | intros []].
    + apply respects_ret.
    + apply respects_bind; [apply Hb | intros _; apply IH].
Qed.

End Respects.

Lemma state_rel_closed Q :
  (∀ st, Q st st) → (∀ st1 st2 st3, Q st1 st2 → Q st2 st3 → Q st1 st3) →
  closed (state_rel Q).
Proof. intros Hrefl Htrans. split; unfold state_rel; eauto. Qed.

Lemma trace_rel_closed P :
  P [] → (∀ e1 e2, P e1 → P e2 → P (e1 ++ e2)) → closed (trace_rel P).
Proof. intros Hnil Happ. split; unfold trace_rel; eauto. Qed.

Lemma return_rel_closed P :
  P [] → (∀ e1 e2, P e1 → P e2 → P (e1 ++ e2)) → closed (return_rel P).
Proof.
  intros Hnil Happ. split; unfold return_rel; eauto.
  intros st1 e1 b1 st2 e2 b2 st3 H1 H2 [-> ->]%andb_true_iff. eauto.
Qed.



(** Breaks a method into its steps, given [closed R] among the
    hypotheses. *)
Ltac respects_step :=
  lazymatch goal with
  | |- respects _ (mbind _ _) => apply respects_bind; [assumption| |intros]
  | |- respects _ (mret _) => apply respects_ret; assumption
  | |- respects _ (ret _) => apply respects_ret; assumption
  | |- respects _ (raise _) => apply respects_raise; assumption
  | |- respects _ (gets _) => apply respects_gets; assumption
  | |- respects _ (try_finally _ _) => apply respects_try_finally; [assumption| |]
  | |- respects _ (for_each _ _) => apply respects_for_each; [assumption|intros]
  | |- respects _ (for_unless_abort _ _) =>
      apply respects_for_unless_abort; [assumption|intros]
  | |- respects _ (match ?x with _ => _ end) => destruct x
  end.




(** ** Command templates and register layout *)

(** C5: every command template of the table (LV1, BCR, ECR, CAL, Slow,
    RdRegister, WrRegister, WrFrontEnd, GlobalReset, GlobalPulse, RunMode,
    ConfMode) has a declared bit length equal to the sum of the lengths of its
    literal segments and of the declared lengths of the entries it refers to
    (Slow 9, ChipID 4, Address 6, GlobalData 16, PixelData 672, Width 6);
    WrRegister is 9 + 4 + 4 + 6 + 16 = 39 bits. *)
Theorem template_bitlength_is_sum_of_segments :
  templates.*1 = ["LV1"; "BCR"; "ECR"; "CAL"; "Slow"; "RdRegister"; "WrRegister";
                  "WrFrontEnd"; "GlobalReset"; "GlobalPulse"; "RunMode"; "ConfMode"]
  ∧ Forall (λ e, template_length e.2 = Some (cmd_bitlength e.2)) templates
  ∧ segment_length <$> ["Slow"; "ChipID"; "Address"; "GlobalData"; "PixelData"; "Width"]
    = Some <$> [9; 4; 6; 16; 672; 6]
  ∧ (c ← get_command "WrRegister"; template_length c) = Some (9 + 4 + 4 + 6 + 16)
  ∧ cmd_bitlength <$> get_command "WrRegister" = Some 39.
Proof.
  split; [vm_compute; reflexivity|].
  split; [|repeat split; vm_compute; reflexivity].
  apply (bool_decide_unpack _). vm_compute. exact I.
Qed.

(** C8, the claim as stated fails: CMDcnt of fei4a starts at bit 3 of
    address 26 and is 14 bits long, so it ends at bit 17, beyond the 16-bit
    address word. *)
Lemma CMDcnt_exceeds_its_word :
  let r := mk_greg 11 26 14 (Some 3) false false false in
  ("CMDcnt", r) ∈ global_registers fei4a
  ∧ ¬ (bit_offset r + bitlength r ≤ word_width).
Proof.
  split.
  - apply (bool_decide_unpack _). vm_compute. exact I.
  - vm_compute. lia.
Qed.

(** C8, amended: for every global register entry of both flavors the bit
    offset lies inside the 16-bit address word, and offset plus length is at
    most 16 exactly for the entries other than ErrorMask, DisableColumnCnfg,
    CMDcnt, SELB, 0_64 and 0_336, which continue in the following address
    words. *)
Theorem global_register_fits_unless_multi_word (f : flavor) (name : string)
    (r : global_register) :
  (name, r) ∈ global_registers f →
  bit_offset r < word_width
  ∧ (bit_offset r + bitlength r ≤ word_width ↔ name ∉ multi_word_registers).
Proof.
  revert name r.
  assert (Hall : Forall (λ e : string * global_register,
                   bit_offset e.2 < word_width
                   ∧ (bit_offset e.2 + bitlength e.2 ≤ word_width
                      ↔ e.1 ∉ multi_word_registers)) (global_registers f)).
  { destruct f; apply (bool_decide_unpack _); vm_compute; exact I. }
  intros name r Hin. exact (proj1 (Forall_forall _ _) Hall (name, r) Hin).
Qed.

Lemma global_register_fits_unless_multi_word_witness :
  let r := mk_greg 0 2 4 (Some 12) false false false in
  bit_offset r < word_width
  ∧ (bit_offset r + bitlength r ≤ word_width ↔ "Trig_Count" ∉ multi_word_registers).
Proof.
  apply (global_register_fits_unless_multi_word fei4b "Trig_Count").
  apply (bool_decide_unpack _). vm_compute. exact I.
Defined.

(** ** Fault handling *)

















(** A first fault of no well-known class comes back as it was queued. *)
Example post_run_reraises_unknown_fault :
  out (@post_run Samples.quiet_scan
         (Samples.torn_down [Samples.F2; Samples.F1; Samples.F3])) = Raise Samples.F2.
Proof. vm_compute. reflexivity. Qed.

(** A first fault of a well-known class is wrapped. *)
Example post_run_wraps_well_known_fault :
  out (@post_run Samples.quiet_scan
         (Samples.torn_down [Samples.F1; Samples.F2; Samples.F3]))
  = Raise (mk_exc_info RunAbortedError (RunAborted (Exc RxSyncError "RX sync error"))
             "post_run").
Proof. vm_compute. reflexivity. Qed.

(** ** The current module *)

Lemma current_module_handle_unset (st : run) :
  _current_module_handle st = None →
  current_module_handle st = handle_from_thread_name st.
Proof.
  intros Hptr. unfold current_module_handle. unfold_M. cbn. rewrite Hptr.
  destruct (handle_from_thread_name st) as [evs st' o]. cbn. by destruct o.
Qed.

(** C9: for every module id and every body, returning or raising (and also
    when selecting the module itself raises), the module pointer is [None]
    after [access_module]; from then on the handle of any thread is the one
    found in the name of that thread. *)
Theorem access_module_restores_pointer (module_id : handle) (body : M unit) (st : run) :
  let r := access_module module_id body st in
  _current_module_handle (final r) = None
  ∧ ∀ thread_name : string,
      current_module_handle (set_current_thread thread_name (final r))
      = handle_from_thread_name (set_current_thread thread_name (final r)).
Proof.
  split; [reflexivity|].
  intros thread_name. apply current_module_handle_unset. reflexivity.
Qed.

(** The pointer is reset when the body raises and when the module id is
    unknown. *)
Example access_module_raising_body :
  let r := access_module (Some "module_0") (raise Samples.F2)
             (Samples.ready false false false Samples.two_modules) in
  out r = Raise Samples.F2 ∧ _current_module_handle (final r) = None.
Proof. vm_compute. split; reflexivity. Qed.

Example access_module_unknown_module :
  let r := access_module (Some "module_7") (mret ())
             (Samples.ready false false false Samples.two_modules) in
  out r = Raise (new_exc ValueError "Module ID is not valid" "select_module")
  ∧ _current_module_handle (final r) = None.
Proof. vm_compute. split; reflexivity. Qed.

(** Reading the current handle leaves the run object alone. *)
Lemma current_module_handle_pure (st : run) :
  current_module_handle st = mk_result [] st (out (current_module_handle st)).
Proof.
  unfold current_module_handle, handle_from_thread_name. unfold_M. cbn.
  destruct (_current_module_handle st); [reflexivity|].
  destruct (module_handles st) as [|? []]; reflexivity.
Qed.

Lemma bind_current_module_handle {B} (k : handle → M B) (st : run) (h : handle) :
  out (current_module_handle st) = Return h →
  (current_module_handle ≫= k) st = k h st.
Proof.
  intros Hh. unfold mbind, M_bind, bind.
  rewrite current_module_handle_pure, Hh. cbn. by destruct (k h st).
Qed.

(** ** Per-module attributes *)

(** C10: on an initialized run object, assigning an attribute that is not in
    the instance dict stores it in the attribute map of the current module
    handle A; read under another handle B, the attribute is not found: for a
    fresh name (absent from the map of B and unknown to the base class) the
    read raises instead of returning the value written under A. *)
Theorem attribute_written_under_A_not_read_under_B
    (RunBase_getattr : string → outcome value) (st : run) (A B : handle)
    (name : string) (v : value) (attrs_A : gmap string value)
    (pointer : handle) (thread_name : string) :
  is_initialized st = true →
  in_dict name st = false →
  out (current_module_handle st) = Return A →
  _module_attr st !! A = Some attrs_A →
  let w := __setattr__ name v st in
  let st_B := set_current_thread thread_name (set_current_module_handle pointer (final w)) in
  out (current_module_handle st_B) = Return B →
  A ≠ B →
  (∀ attrs_B, _module_attr st !! B = Some attrs_B → attrs_B !! name = None) →
  (∃ e, RunBase_getattr name = Raise e) →
  out w = Return ()
  ∧ _module_attr (final w) = <[A := <[name := v]> attrs_A]> (_module_attr st)
  ∧ (∃ e, out (__getattr__ RunBase_getattr name st_B) = Raise e)
  ∧ out (__getattr__ RunBase_getattr name st_B) ≠ Return v.
Proof.
  intros Hinit Hdict HA Hattrs w st_B HB Hne Hfresh [e He].
  assert (Hw : w = mk_result [] (set_module_attr (<[A := <[name := v]> attrs_A]> (_module_attr st)) st)
                     (Return ())).
  { subst w. unfold __setattr__.
    unfold mbind at 1, M_bind at 1, bind at 1, gets at 1.
    cbv beta iota zeta delta [out final emitted id].
    rewrite Hinit, Hdict. cbn.
    rewrite (bind_current_module_handle _ _ _ HA).
    unfold get_module_attr. unfold_M. cbn. rewrite Hattrs. reflexivity. }
  assert (Hinit_B : is_initialized st_B = true) by (subst st_B; rewrite Hw; exact Hinit).
  assert (Hlook : _module_attr st_B !! B = _module_attr st !! B).
  { subst st_B. rewrite Hw. cbn. by rewrite lookup_insert_ne. }
  clearbody st_B.
  assert (Hread : ∃ e', out (__getattr__ RunBase_getattr name st_B) = Raise e').
  { unfold __getattr__.
    unfold mbind at 1, M_bind at 1, bind at 1, gets at 1.
    cbv beta iota zeta delta [out final emitted id].
    unfold is_initialized in *.
    destruct (_initialized st_B) as [[]|]; try discriminate.
    unfold mbind at 1, M_bind at 1, bind at 1.
    rewrite (bind_current_module_handle _ _ _ HB).
    unfold get_module_attr. unfold_M. cbn.
    rewrite Hlook. destruct (_module_attr st !! B) as [attrs_B|] eqn:HattrsB; cbn.
    - rewrite (Hfresh attrs_B eq_refl). cbn. rewrite He.
      destruct (decide _); cbn; eauto.
    - eauto. }
  rewrite Hw. cbn. repeat split; try done.
  destruct Hread as [e' ->]. discriminate.
Qed.

Lemma attribute_written_under_A_not_read_under_B_witness :
  let st := set_current_module_handle (Some "module_0")
              (Samples.ready false false false Samples.two_modules) in
  let w := __setattr__ "n_injections" (VInt 100) st in
  let st_B := set_current_thread "MainThread"
                (set_current_module_handle (Some "module_1") (final w)) in
  out w = Return ()
  ∧ _module_attr (final w)
    = <[Some "module_0" := <["n_injections" := VInt 100]> ∅]> (_module_attr st)
  ∧ (∃ e, out (__getattr__ Samples.no_attribute "n_injections" st_B) = Raise e)
  ∧ out (__getattr__ Samples.no_attribute "n_injections" st_B) ≠ Return (VInt 100).
Proof.
  apply (attribute_written_under_A_not_read_under_B Samples.no_attribute _
           (Some "module_0") (Some "module_1")).
  - vm_compute; reflexivity.
  - vm_compute; reflexivity.
  - vm_compute; reflexivity.
  - vm_compute; reflexivity.
  - vm_compute; reflexivity.
  - discriminate.
  - intros attrs_B HB. vm_compute in HB. injection HB as <-. reflexivity.
  - eexists. reflexivity.
Defined.

(** The value is read back under the handle it was written under. *)
Example attribute_read_back_under_A :
  let st := set_current_module_handle (Some "module_0")
              (Samples.ready false false false Samples.two_modules) in
  out (__getattr__ Samples.no_attribute "n_injections"
         (final (__setattr__ "n_injections" (VInt 100) st))) = Return (VInt 100).
Proof. vm_compute. reflexivity. Qed.

(** ** Readout registration *)


Lemma register_reader_sequential (st : run) (h : handle) :
  _scan_threads st = [] →
  out (current_module_handle st) = Return h →
  register_reader st
  = mk_result []
      (set_readout_event false (set_running_readout_t (_running_readout_t st ++ [h]) st))
      (Return ()).
Proof.
  intros Hts Hh. unfold register_reader.
  rewrite !bind_gets. rewrite Hts. cbn [bool_decide negb andb].
  rewrite (bool_decide_eq_true_2 ([] = []) eq_refl). cbn [negb andb].
  rewrite (bind_current_module_handle _ _ _ Hh).
  rewrite bind_modify. reflexivity.
Qed.






(** The first start of a sequential scan starts the reader. *)
Example first_start_readout_starts_reader :
  let st := set_current_module_handle (Some "module_0")
              (Samples.ready false false false Samples.two_modules) in
  let r := start_readout 1 st in
  out r = Return true
  ∧ emitted r = [ev_fifo_start ["DATA_CH0"]]
  ∧ fifo_is_running (final r) = true
  ∧ _running_readout_t (final r) = [Some "module_0"].
Proof. vm_compute. repeat split; reflexivity. Qed.

(** ** Module registry *)

(** Counting the distinct elements of a list. *)
Section RemoveDups.
Context `{EqDecision A}.
Implicit Types l : list A.

Lemma length_remove_dups_le l : length (remove_dups l) ≤ length l.
Proof. induction l; simpl; repeat case_decide; simpl; lia. Qed.

Lemma length_remove_dups_NoDup l : length (remove_dups l) = length l ↔ NoDup l.
Proof.
  induction l as [|x l IH]; simpl.
  - split; [constructor | done].
  - case_decide as Hin; simpl.
    + pose proof (length_remove_dups_le l). split; [lia|].
      intros [Hx _]%NoDup_cons. done.
    + rewrite NoDup_cons. split.
      * intros Hlen. split; [done|]. apply IH. lia.
      * intros [_ Hnd]. f_equal. by apply IH.
Qed.

Lemma length_remove_dups_1 l :
  length (remove_dups l) = 1 ↔ ∃ x, x ∈ l ∧ ∀ y, y ∈ l → y = x.
Proof.
  split.
  - intros Hlen. destruct (remove_dups l) as [|x [|? ?]] eqn:Hrd; try done.
    exists x. split.
    + apply elem_of_remove_dups. rewrite Hrd. by left.
    + intros y Hy%elem_of_remove_dups. rewrite Hrd in Hy.
      by apply list_elem_of_singleton in Hy.
  - intros (x & Hx & Hall).
    pose proof (NoDup_remove_dups l) as Hnd.
    destruct (remove_dups l) as [|a [|b k]] eqn:Hrd.
    + apply elem_of_remove_dups in Hx. rewrite Hrd in Hx. by apply elem_of_nil in Hx.
    + done.
    + assert (a = x) as ->.
      { apply Hall, elem_of_remove_dups. rewrite Hrd. by left. }
      assert (b = x) as ->.
      { apply Hall, elem_of_remove_dups. rewrite Hrd. right; by left. }
      apply NoDup_cons in Hnd as [Hnin _]. exfalso. apply Hnin. by left.
Qed.

Lemma length_remove_dups_gt_1 l :
  1 < length (remove_dups l) ↔ ∃ x y, x ∈ l ∧ y ∈ l ∧ x ≠ y.
Proof.
  split.
  - intros Hlen. pose proof (NoDup_remove_dups l) as Hnd.
    destruct (remove_dups l) as [|a [|b k]] eqn:Hrd; simpl in Hlen; try lia.
    exists a, b. repeat split.
    + apply elem_of_remove_dups. rewrite Hrd. by left.
    + apply elem_of_remove_dups. rewrite Hrd. right; by left.
    + intros ->. apply NoDup_cons in Hnd as [Hnin _]. apply Hnin. by left.
  - intros (x & y & Hx & Hy & Hne).
    destruct (remove_dups l) as [|a [|b k]] eqn:Hrd; simpl; try lia.
    + apply elem_of_remove_dups in Hx. rewrite Hrd in Hx. by apply elem_of_nil in Hx.
    + apply elem_of_remove_dups in Hx, Hy. rewrite Hrd in Hx, Hy.
      apply list_elem_of_singleton in Hx, Hy. congruence.
Qed.
End RemoveDups.

Lemma NoDup_fmap_inj_on {A B} (f : A → B) (l : list A) x y :
  NoDup (f <$> l) → x ∈ l → y ∈ l → f x = f y → x = y.
Proof.
  induction l as [|a l IH]; simpl; [by intros _ ?%elem_of_nil|].
  intros [Hnin Hnd]%NoDup_cons [->|Hx]%elem_of_cons [->|Hy]%elem_of_cons Hf; auto.
  - exfalso. apply Hnin. rewrite Hf. by apply list_elem_of_fmap_2.
  - exfalso. apply Hnin. rewrite <- Hf. by apply list_elem_of_fmap_2.
Qed.

Lemma NoDup_not_fmap {A B} `{EqDecision B} (f : A → B) (l : list A) :
  NoDup l → ¬ NoDup (f <$> l) → ∃ x y, x ∈ l ∧ y ∈ l ∧ x ≠ y ∧ f x = f y.
Proof.
  induction l as [|a l IH]; simpl; intros Hnd Hdup.
  - destruct Hdup. constructor.
  - apply NoDup_cons in Hnd as [Ha Hnd].
    destruct (decide (f a ∈ f <$> l)) as [Hin|Hnin].
    + apply list_elem_of_fmap in Hin as (y & Hfy & Hy).
      exists a, y. repeat split; [by left | by right | | done].
      intros ->. done.
    + destruct IH as (x & y & Hx & Hy & Hne & Hf); [done| |].
      * intros Hnd'. apply Hdup. by constructor.
      * exists x, y. repeat split; [by right | by right | done | done].
Qed.

Lemma NoDup_other_element {A} (l : list A) (a : A) :
  NoDup l → a ∈ l → length l ≠ 1 → ∃ b, b ∈ l ∧ b ≠ a.
Proof.
  intros Hnd Ha Hlen. destruct l as [|x [|y l]]; simpl in *; try done.
  - by apply elem_of_nil in Ha.
  - apply NoDup_cons in Hnd as [Hx _].
    apply elem_of_cons in Ha as [->|Ha].
    + exists y. split; [right; by left|]. intros ->. apply Hx. by left.
    + exists x. split; [by left|]. by intros ->.
Qed.

Lemma two_elements_length {A} (l : list A) (a b : A) :
  a ∈ l → b ∈ l → a ≠ b → length l ≠ 1.
Proof.
  intros Ha Hb Hne. destruct l as [|x [|y l]]; simpl; try lia.
  apply list_elem_of_singleton in Ha, Hb. congruence.
Qed.

Lemma NoDup_fst_filter {A B} (P : A * B → Prop) `{∀ x, Decision (P x)} (l : list (A * B)) :
  NoDup l.*1 → NoDup (filter P l).*1.
Proof.
  intros Hnd. apply (sublist_NoDup _ _ Hnd).
  apply fmap_sublist, sublist_filter.
Qed.

Lemma fst_fmap_pair {A B} (g : A → B) (l : list A) : ((λ v, (v, g v)) <$> l).*1 = l.
Proof. induction l as [|a l IH]; [done|]. cbn. by rewrite IH. Qed.

(** *** Grouping *)

Lemma NoDup_real_modules (st : run) : NoDup (real_modules st).*1.
Proof.
  unfold real_modules.
  pose proof (NoDup_fst_map_to_list (_module_cfgs st)) as Hnd.
  induction (map_to_list (_module_cfgs st)) as [|[k c] l IH]; simpl.
  - constructor.
  - simpl in Hnd. apply NoDup_cons in Hnd as [Hk Hnd].
    destruct k as [name|]; simpl; [|by apply IH].
    case_decide; [|by apply IH]. simpl. constructor; [|by apply IH].
    intros Hin. apply Hk.
    apply list_elem_of_fmap in Hin as ([name' c'] & Heq & Hin). simpl in Heq. subst name'.
    apply list_elem_of_omap in Hin as ([k' c''] & Hin & Hg). simpl in Hg.
    destruct k' as [name'|]; [|done]. case_decide; [|done]. simplify_eq.
    apply list_elem_of_fmap. by exists (Some name, c').
Qed.

Lemma elem_of_groupby_dict (d : list (string * module_cfg)) key v group :
  (v, group) ∈ map_to_list (groupby_dict d key)
  ↔ (∃ kv, kv ∈ d ∧ key kv.2 = One v)
    ∧ group = (filter (λ kv, key kv.2 = One v) d).*1.
Proof.
  unfold groupby_dict. rewrite elem_of_map_to_list.
  rewrite <- elem_of_list_to_map.
  - rewrite list_elem_of_fmap. split.
    + intros (v' & Heq & Hin). simplify_eq. split; [|done].
      apply elem_of_remove_dups, list_elem_of_bind in Hin as (c & Hv & Hc).
      apply list_elem_of_fmap in Hc as (kv & -> & Hkv).
      exists kv. split; [done|].
      destruct (key kv.2); simpl in Hv; [|by apply elem_of_nil in Hv].
      apply list_elem_of_singleton in Hv. by subst.
    + intros [(kv & Hkv & Hkey) ->]. exists v. split; [done|].
      apply elem_of_remove_dups, list_elem_of_bind. exists kv.2. split.
      * rewrite Hkey. simpl. by left.
      * by apply list_elem_of_fmap_2.
  - rewrite fst_fmap_pair. apply NoDup_remove_dups.
Qed.

Lemma size_groupby_dict (d : list (string * module_cfg)) key :
  size (groupby_dict d key) = length (remove_dups (d.*2 ≫= λ c, scalar (key c))).
Proof.
  unfold groupby_dict. rewrite map_size_list_to_map.
  - by rewrite length_fmap.
  - rewrite fst_fmap_pair. apply NoDup_remove_dups.
Qed.

Section Registry.
Variable conf : gmap string module_conf.

Lemma elem_of_real_modules (st : run) name cfg :
  registry_inv conf st →
  (name, cfg) ∈ real_modules st ↔ ∃ c, conf !! name = Some c ∧ cfg = of_conf c.
Proof.
  intros [Hcfgs Hmods]. unfold real_modules. rewrite list_elem_of_omap. split.
  - intros ([k c'] & Hin & Hg). simpl in Hg.
    destruct k as [name'|]; [|done]. case_decide as Hmod; [|done]. simplify_eq.
    apply elem_of_map_to_list in Hin.
    apply Hmods in Hmod as [c Hc]. exists c. split; [done|].
    rewrite (Hcfgs _ _ Hc) in Hin. by simplify_eq.
  - intros (c & Hc & ->). exists (Some name, of_conf c). split.
    + apply elem_of_map_to_list. by apply Hcfgs.
    + simpl. rewrite decide_True; [done|]. apply Hmods. by exists c.
Qed.

Lemma tx_groups_are_groups (st : run) tx group :
  registry_inv conf st →
  (tx, group) ∈ map_to_list (groupby_dict (real_modules st) TX) →
  tx_group_of conf tx group.
Proof.
  intros Hinv [(kv & Hkv & Hkey) ->]%elem_of_groupby_dict.
  assert (Hmem : ∀ module_id,
            module_id ∈ (filter (λ kv, TX kv.2 = One tx) (real_modules st)).*1
            ↔ ∃ c, on_tx conf tx module_id c).
  { intros module_id. rewrite list_elem_of_fmap. split.
    - intros ([name cfg] & -> & [Htx Hin]%list_elem_of_filter). simpl in *.
      apply (elem_of_real_modules _ _ _ Hinv) in Hin as (c & Hc & ->).
      exists c. split; [done|]. simpl in Htx. by simplify_eq.
    - intros (c & Hc & Htx). exists (module_id, of_conf c). split; [done|].
      apply list_elem_of_filter. split; [simpl; by rewrite Htx|].
      apply (elem_of_real_modules _ _ _ Hinv). by exists c. }
  split; [|split; [|exact Hmem]].
  - apply NoDup_fst_filter, NoDup_real_modules.
  - exists kv.1. apply list_elem_of_fmap. exists kv. split; [done|].
    by apply list_elem_of_filter.
Qed.

Lemma elem_of_group_items (st : run) tx group (kv : handle * module_cfg) :
  registry_inv conf st → tx_group_of conf tx group →
  kv ∈ filter (λ kv : handle * module_cfg, kv.1 ∈ (Some <$> group))
         (map_to_list (_module_cfgs st))
  ↔ ∃ module_id c, kv = (Some module_id, of_conf c) ∧ on_tx conf tx module_id c.
Proof.
  intros [Hcfgs _] (_ & _ & Hmem). rewrite list_elem_of_filter. split.
  - intros [Hk Hin]. destruct kv as [k cfg]. simpl in Hk.
    apply list_elem_of_fmap in Hk as (module_id & -> & Hid).
    apply Hmem in Hid as (c & Hc). exists module_id, c. split; [|done].
    apply elem_of_map_to_list in Hin. destruct Hc as [Hc _].
    rewrite (Hcfgs _ _ Hc) in Hin. by simplify_eq.
  - intros (module_id & c & -> & Hc). split.
    + simpl. apply list_elem_of_fmap_2, Hmem. by exists c.
    + apply elem_of_map_to_list, Hcfgs. by destruct Hc.
Qed.

Lemma length_group_cfgs (st : run) tx group :
  registry_inv conf st → tx_group_of conf tx group →
  length (group_cfgs group st) = length group.
Proof.
  intros Hinv Hgroup. unfold group_cfgs. rewrite length_fmap.
  rewrite <- (length_fmap fst), <- (length_fmap Some group).
  apply Permutation_length, NoDup_Permutation.
  - apply NoDup_fst_filter, NoDup_fst_map_to_list.
  - apply (NoDup_fmap_2 Some). by destruct Hgroup.
  - intros k. rewrite list_elem_of_fmap. split.
    + intros (kv & -> & Hkv).
      apply (elem_of_group_items _ _ _ _ Hinv Hgroup) in Hkv
        as (module_id & c & -> & Hc).
      simpl. apply list_elem_of_fmap_2. pose proof Hgroup as (_ & _ & Hmem).
      apply Hmem. by exists c.
    + intros (module_id & -> & Hid)%list_elem_of_fmap.
      pose proof Hgroup as (Hnd & Hne & Hmem).
      apply Hmem in Hid as (c & Hc). exists (Some module_id, of_conf c). split; [done|].
      apply (elem_of_group_items _ tx group); [done|done|].
      by exists module_id, c.
Qed.

Lemma elem_of_group_cfgs (st : run) tx group cfg :
  registry_inv conf st → tx_group_of conf tx group →
  cfg ∈ group_cfgs group st ↔ ∃ module_id c, cfg = of_conf c ∧ on_tx conf tx module_id c.
Proof.
  intros Hinv Hgroup. unfold group_cfgs. rewrite list_elem_of_fmap. split.
  - intros (kv & -> & Hkv).
    apply (elem_of_group_items _ _ _ _ Hinv Hgroup) in Hkv as (module_id & c & -> & Hc).
    by exists module_id, c.
  - intros (module_id & c & -> & Hc). exists (Some module_id, of_conf c). split; [done|].
    apply (elem_of_group_items _ _ _ _ Hinv Hgroup). by exists module_id, c.
Qed.

(** The flavor check of line 229. *)
Lemma group_flavor_check (st : run) tx group :
  registry_inv conf st → tx_group_of conf tx group →
  length (remove_dups (fe_flavor <$> group_cfgs group st)) ≠ 1 ↔ mixed_flavors conf tx.
Proof.
  intros Hinv Hgroup. split.
  - intros Hlen.
    assert (Hgt : 1 < length (remove_dups (fe_flavor <$> group_cfgs group st))).
    { pose proof Hgroup as (_ & (module_id & Hid) & Hmem).
      apply Hmem in Hid as (c & Hc).
      assert (Hin : fe_flavor (of_conf c)
                    ∈ remove_dups (fe_flavor <$> group_cfgs group st)).
      { apply elem_of_remove_dups, list_elem_of_fmap_2.
        apply (elem_of_group_cfgs _ tx group); [done|done|].
        by exists module_id, c. }
      destruct (remove_dups _) as [|? [|? ?]]; simpl in *; try lia.
      by apply elem_of_nil in Hin. }
    apply length_remove_dups_gt_1 in Hgt as (x & y & Hx & Hy & Hne).
    apply list_elem_of_fmap in Hx as (cx & -> & Hcx), Hy as (cy & -> & Hcy).
    apply (elem_of_group_cfgs _ _ _ _ Hinv Hgroup) in Hcx as (a & ca & -> & Ha).
    apply (elem_of_group_cfgs _ _ _ _ Hinv Hgroup) in Hcy as (b & cb & -> & Hb).
    exists a, b, ca, cb. split; [done|]. split; [done|].
    intros Heq. apply Hne. simpl. by rewrite Heq.
  - intros (a & b & ca & cb & Ha & Hb & Hne) Hlen.
    apply length_remove_dups_1 in Hlen as (x & _ & Hall).
    assert (fe_flavor (of_conf ca) = x) as Hxa.
    { apply Hall, list_elem_of_fmap_2, (elem_of_group_cfgs _ _ _ _ Hinv Hgroup).
      by exists a, ca. }
    assert (fe_flavor (of_conf cb) = x) as Hxb.
    { apply Hall, list_elem_of_fmap_2, (elem_of_group_cfgs _ _ _ _ Hinv Hgroup).
      by exists b, cb. }
    simpl in *. congruence.
Qed.

(** The address check of line 233. *)
Lemma group_address_check (st : run) tx group :
  registry_inv conf st → tx_group_of conf tx group →
  (length group ≠ length (remove_dups (chip_address <$> group_cfgs group st))
   ∨ (length group ≠ 1 ∧ None ∈ remove_dups (chip_address <$> group_cfgs group st)))
  ↔ address_conflict conf tx.
Proof.
  intros Hinv Hgroup.
  pose proof (length_group_cfgs _ _ _ Hinv Hgroup) as Hlen.
  pose proof Hgroup as (Hnd & _ & Hmem).
  assert (Hitems : NoDup (filter (λ kv : handle * module_cfg, kv.1 ∈ (Some <$> group))
                            (map_to_list (_module_cfgs st))))
    by apply NoDup_filter, NoDup_map_to_list.
  split.
  - intros [Hdup | [Hmany Hnone]].
    + assert (Hnot : ¬ NoDup (chip_address <$> group_cfgs group st)).
      { intros Hnd'%length_remove_dups_NoDup. rewrite length_fmap in Hnd'. lia. }
      unfold group_cfgs in Hnot. rewrite <- list_fmap_compose in Hnot.
      apply NoDup_not_fmap in Hnot as (x & y & Hx & Hy & Hne & Hf); [|done].
      apply (elem_of_group_items _ _ _ _ Hinv Hgroup) in Hx as (a & ca & -> & Ha).
      apply (elem_of_group_items _ _ _ _ Hinv Hgroup) in Hy as (b & cb & -> & Hb).
      exists a, b, ca, cb. split; [|split; [done|split; [done|by left]]].
      intros ->. destruct Ha as [Ha _], Hb as [Hb _]. congruence.
    + apply elem_of_remove_dups, list_elem_of_fmap in Hnone as (cfg & Hnone & Hcfg).
      apply (elem_of_group_cfgs _ _ _ _ Hinv Hgroup) in Hcfg as (a & ca & -> & Ha).
      assert (Hin : a ∈ group) by (apply Hmem; by exists ca).
      destruct (NoDup_other_element group a Hnd Hin Hmany) as (b & Hb & Hne).
      apply Hmem in Hb as (cb & Hb).
      exists a, b, ca, cb. split; [congruence|split; [done|split; [done|by right]]].
  - intros (a & b & ca & cb & Hne & Ha & Hb & [Heq | Hnone]).
    + left. intros Hlen'.
      assert (Hnd' : NoDup (chip_address <$> group_cfgs group st)).
      { apply length_remove_dups_NoDup. rewrite length_fmap. lia. }
      unfold group_cfgs in Hnd'. rewrite <- list_fmap_compose in Hnd'.
      assert (Hkv : (Some a, of_conf ca) = (Some b, of_conf cb)).
      { eapply (NoDup_fmap_inj_on _ _ _ _ Hnd').
        - apply (elem_of_group_items _ _ _ _ Hinv Hgroup). by exists a, ca.
        - apply (elem_of_group_items _ _ _ _ Hinv Hgroup). by exists b, cb.
        - done. }
      congruence.
    + right. split.
      * apply (two_elements_length group a b); [| |done]; apply Hmem; eauto.
      * apply elem_of_remove_dups. rewrite <- Hnone.
        apply (list_elem_of_fmap_2' _ _ (of_conf ca)); [|done].
        apply (elem_of_group_cfgs _ _ _ _ Hinv Hgroup). by exists a, ca.
Qed.

End Registry.

(** *** The loops of [_set_default_cfg] *)

Lemma parsed_registry_inv conf st : parsed conf st → registry_inv conf st.
Proof.
  intros (Hcfgs & Hmods & _). split.
  - intros module_id c Hc. rewrite Hcfgs, (lookup_kmap Some), lookup_fmap, Hc. done.
  - intros module_id. rewrite Hmods, map_lookup_imap.
    destruct (conf !! module_id); simpl; split; intros [? ?]; eauto; done.
Qed.

Lemma registry_inv_insert_cfg conf st (k : handle) cfg :
  (∀ module_id, k = Some module_id → conf !! module_id = None) →
  registry_inv conf st →
  registry_inv conf (set_module_cfgs (<[k := cfg]> (_module_cfgs st)) st).
Proof.
  intros Hk [Hcfgs Hmods]. split; [|exact Hmods].
  intros module_id c Hc. cbn. rewrite lookup_insert_ne; [by apply Hcfgs|].
  intros ->. rewrite (Hk module_id eq_refl) in Hc. done.
Qed.

Section RegistryLoops.
Variable conf : gmap string module_conf.
Hypothesis Hids :
  ∀ module_id, is_Some (conf !! module_id) → is_substring "module_group" module_id = false.

Lemma derive_tx_group_cases (st : run) tx group :
  registry_inv conf st → tx_group_of conf tx group →
  (mixed_flavors conf tx ∧ out (derive_tx_group tx group st) = Raise (fe_flavor_error tx))
  ∨ (¬ mixed_flavors conf tx ∧ address_conflict conf tx
     ∧ out (derive_tx_group tx group st) = Raise (chip_address_error tx))
  ∨ (¬ mixed_flavors conf tx ∧ ¬ address_conflict conf tx
     ∧ out (derive_tx_group tx group st) = Return ()
     ∧ registry_inv conf (final (derive_tx_group tx group st))).
Proof.
  intros Hinv Hgroup. unfold derive_tx_group. rewrite bind_gets. cbv zeta.
  pose proof (group_flavor_check conf st tx group Hinv Hgroup) as Hflavor.
  pose proof (group_address_check conf st tx group Hinv Hgroup) as Haddr.
  destruct (decide (length (remove_dups (fe_flavor <$> group_cfgs group st)) ≠ 1))
    as [Hbad|Hok].
  - left. split; [by apply Hflavor | reflexivity].
  - right. assert (¬ mixed_flavors conf tx) as Hnm by (by rewrite <- Hflavor).
    destruct (decide _) as [Hbad|Hok'].
    + left. split; [done|]. split; [by apply Haddr | reflexivity].
    + right. split; [done|]. split; [by rewrite <- Haddr|].
      rewrite !bind_modify. split; [reflexivity|]. cbn.
      destruct Hinv as [Hcfgs Hmods]. split; [|exact Hmods].
      intros module_id c Hc. cbn. rewrite lookup_insert_ne; [by apply Hcfgs|].
      intros [= <-].
      pose proof (Hids _ (mk_is_Some _ _ Hc)) as Hfalse.
      assert (true = false) by (rewrite <- Hfalse; reflexivity). done.
Qed.

Lemma tx_group_loop (l : list (string * list string)) (st : run) :
  (∀ tx group, (tx, group) ∈ l → tx_group_of conf tx group) →
  registry_inv conf st →
  let r := for_each l (λ '(tx, module_group), derive_tx_group tx module_group) st in
  (∃ tx group, (tx, group) ∈ l ∧ mixed_flavors conf tx
               ∧ out r = Raise (fe_flavor_error tx))
  ∨ (∃ tx group, (tx, group) ∈ l ∧ address_conflict conf tx
                 ∧ out r = Raise (chip_address_error tx))
  ∨ ((∀ tx group, (tx, group) ∈ l → ¬ mixed_flavors conf tx ∧ ¬ address_conflict conf tx)
     ∧ out r = Return () ∧ registry_inv conf (final r)).
Proof.
  revert st. induction l as [|[tx group] l IH]; intros st Hgroups Hinv; cbn zeta.
  - right; right. split; [|split; [reflexivity|exact Hinv]].
    intros tx group Hin. by apply elem_of_nil in Hin.
  - cbn [for_each].
    destruct (derive_tx_group_cases st tx group Hinv)
      as [[Hmix Hout] | [(Hnm & Hconf & Hout) | (Hnm & Hnc & Hout & Hinv')]].
    { apply Hgroups. by left. }
    + left. exists tx, group. split; [by left|]. split; [done|].
      unfold mbind, M_bind, bind. by rewrite Hout.
    + right; left. exists tx, group. split; [by left|]. split; [done|].
      unfold mbind, M_bind, bind. by rewrite Hout.
    + rewrite (bind_out_return _ _ _ _ Hout), (bind_final_return _ _ _ _ Hout).
      destruct (IH (final (derive_tx_group tx group st)))
        as [(tx' & g' & Hin & Hmix & Hout') | [(tx' & g' & Hin & Hconf & Hout')
            | (Hall & Hout' & Hinv'')]]; [|done|..].
      { intros tx' g' Hin. apply Hgroups. by right. }
      * left. exists tx', g'. split; [by right|done].
      * right; left. exists tx', g'. split; [by right|done].
      * right; right. split; [|done].
        intros tx' g' [[= -> ->]|Hin]%elem_of_cons; [done|by apply (Hall _ g')].
Qed.

Lemma get_module_cfg_some (st : run) (h : handle) cfg :
  _module_cfgs st !! h = Some cfg → get_module_cfg h st = mk_result [] st (Return cfg).
Proof. intros Hh. unfold get_module_cfg. by rewrite bind_gets, Hh. Qed.

Lemma module_cfgs_of_returns (names : list string) (st : run) :
  registry_inv conf st →
  (∀ name, name ∈ names → is_Some (conf !! name)) →
  ∃ cfgs, module_cfgs_of names st = mk_result [] st (Return cfgs).
Proof.
  intros [Hcfgs _]. induction names as [|name names IH]; intros Hnames;
    cbn [module_cfgs_of].
  - by exists [].
  - destruct (Hnames name) as [c Hc]; [by left|].
    destruct IH as [cfgs Hrest]; [intros n Hn; apply Hnames; by right|].
    exists (of_conf c :: cfgs).
    unfold mbind, M_bind, bind.
    rewrite (get_module_cfg_some st _ _ (Hcfgs _ _ Hc)). cbn [out final emitted].
    rewrite Hrest. reflexivity.
Qed.

Lemma tx_has_group (st : run) tx a ca :
  registry_inv conf st → on_tx conf tx a ca →
  ∃ group, (tx, group) ∈ map_to_list (groupby_dict (real_modules st) TX).
Proof.
  intros Hinv [Ha Htx]. eexists. apply elem_of_groupby_dict. split; [|reflexivity].
  exists (a, of_conf ca). split.
  - apply (elem_of_real_modules conf); [done|]. by exists ca.
  - simpl. by rewrite Htx.
Qed.

Lemma fifo_group_count (st : run) :
  registry_inv conf st →
  1 < size (groupby_dict (real_modules st) FIFO) ↔ several_fifos conf.
Proof.
  intros Hinv. rewrite size_groupby_dict, length_remove_dups_gt_1.
  assert (Hval : ∀ x, x ∈ (real_modules st).*2 ≫= (λ c, scalar (FIFO c))
                      ↔ ∃ a ca, conf !! a = Some ca ∧ x = m_FIFO ca).
  { intros x. rewrite list_elem_of_bind. split.
    - intros (cfg & Hx & Hcfg). apply list_elem_of_fmap in Hcfg as ([a cfg'] & -> & Hin).
      apply (elem_of_real_modules conf _ _ _ Hinv) in Hin as (ca & Hca & ->).
      simpl in Hx. apply list_elem_of_singleton in Hx. by exists a, ca.
    - intros (a & ca & Hca & ->). exists (of_conf ca). split; [simpl; by left|].
      apply list_elem_of_fmap. exists (a, of_conf ca). split; [done|].
      apply (elem_of_real_modules conf); [done|]. by exists ca. }
  split.
  - intros (x & y & Hx & Hy & Hne).
    apply Hval in Hx as (a & ca & Ha & ->), Hy as (b & cb & Hb & ->).
    by exists a, b, ca, cb.
  - intros (a & b & ca & cb & Ha & Hb & Hne).
    exists (m_FIFO ca), (m_FIFO cb). split; [|split; [|done]]; apply Hval; eauto.
Qed.

Lemma derive_fifo_group_returns fifo group (st : run) :
  ∃ st', derive_fifo_group fifo group st = mk_result [] st' (Return ()).
Proof.
  unfold derive_fifo_group. rewrite bind_gets, !bind_modify. eexists. reflexivity.
Qed.

Lemma fifo_group_loop_returns (l : list (string * list string)) (st : run) :
  out (for_each l (λ '(fifo, module_group), derive_fifo_group fifo module_group) st)
  = Return ().
Proof.
  revert st. induction l as [|[fifo group] l IH]; intros st; cbn [for_each]; [done|].
  destruct (derive_fifo_group_returns fifo group st) as [st' Hst'].
  unfold mbind, M_bind, bind. rewrite Hst'. cbn [out final emitted]. apply IH.
Qed.

End RegistryLoops.

(** How [_set_default_cfg] ends, for the modules it finds parsed. *)
Lemma _set_default_cfg_outcome (conf : gmap string module_conf) (st : run) :
  parsed conf st →
  (∃ tx, mixed_flavors conf tx ∧ out (_set_default_cfg st) = Raise (fe_flavor_error tx))
  ∨ (∃ tx, address_conflict conf tx
           ∧ out (_set_default_cfg st) = Raise (chip_address_error tx))
  ∨ ((∀ tx, ¬ mixed_flavors conf tx ∧ ¬ address_conflict conf tx)
     ∧ several_fifos conf ∧ out (_set_default_cfg st) = Raise multi_fifo_error)
  ∨ ((∀ tx, ¬ mixed_flavors conf tx ∧ ¬ address_conflict conf tx)
     ∧ ¬ several_fifos conf ∧ out (_set_default_cfg st) = Return ()).
Proof.
  intros Hparsed. pose proof (parsed_registry_inv _ _ Hparsed) as Hinv.
  destruct Hparsed as (_ & _ & Hids).
  unfold _set_default_cfg. rewrite bind_gets.
  destruct (module_cfgs_of_returns conf (keys (_modules st)) st Hinv) as [all Hall].
  { intros name Hname. unfold keys in Hname.
    apply list_elem_of_fmap in Hname as ([name' v] & -> & Hin).
    apply elem_of_map_to_list in Hin. apply Hinv. by exists v. }
  rewrite (bind_pure _ _ _ _ Hall), bind_modify, bind_gets.
  set (st1 := set_module_cfgs _ st).
  assert (Hinv1 : registry_inv conf st1) by (by apply registry_inv_insert_cfg).
  set (groups := map_to_list (groupby_dict (real_modules st1) TX)).
  destruct (tx_group_loop conf Hids groups st1)
    as [(tx & g & Hin & Hmix & Hout) | [(tx & g & Hin & Hconf & Hout)
        | (Hvalid & Hout & Hinv2)]]; [|done|..].
  { intros tx g Hin. by apply (tx_groups_are_groups conf st1). }
  - left. exists tx. split; [done|]. by rewrite (bind_raise _ _ _ _ Hout).
  - right; left. exists tx. split; [done|]. by rewrite (bind_raise _ _ _ _ Hout).
  - right; right.
    assert (Hall_tx : ∀ tx, ¬ mixed_flavors conf tx ∧ ¬ address_conflict conf tx).
    { intros tx. split.
      - intros Hmix. pose proof Hmix as (a & _ & ca & _ & Ha & _).
        destruct (tx_has_group conf st1 tx a ca Hinv1 Ha) as [g Hg].
        by destruct (Hvalid tx g Hg).
      - intros Hconf. pose proof Hconf as (a & _ & ca & _ & _ & Ha & _).
        destruct (tx_has_group conf st1 tx a ca Hinv1 Ha) as [g Hg].
        by destruct (Hvalid tx g Hg). }
    rewrite (bind_out_return _ _ _ _ Hout), bind_gets.
    set (st2 := final _) in *.
    pose proof (fifo_group_count conf st2 Hinv2) as Hcount.
    destruct (decide (1 < size (groupby_dict (real_modules st2) FIFO))) as [Hmany|Hone].
    + left. split; [done|]. split; [by apply Hcount | reflexivity].
    + right. split; [done|]. split; [by rewrite <- Hcount|].
      by rewrite (bind_out_return _ _ _ _ (fifo_group_loop_returns _ _)).
Qed.

(** *** [_parse_module_cfgs] *)

Lemma foldl_insert_lookup `{Countable K} {V A} (f : A → K) (g : A → V)
    (l : list A) (m0 : gmap K V) (k : K) (v : V) :
  NoDup (f <$> l) →
  foldl (λ m a, <[f a := g a]> m) m0 l !! k = Some v
  ↔ (∃ a, a ∈ l ∧ f a = k ∧ g a = v) ∨ ((∀ a, a ∈ l → f a ≠ k) ∧ m0 !! k = Some v).
Proof.
  revert m0. induction l as [|a l IH]; intros m0 Hnd; cbn [foldl].
  - split.
    + intros Hk. right. split; [|done]. by intros a ?%elem_of_nil.
    + intros [(a & ?%elem_of_nil & _) | [_ ?]]; done.
  - cbn in Hnd. apply NoDup_cons in Hnd as [Ha Hnd]. rewrite (IH _ Hnd). split.
    + intros [(a' & Hin & Hf & Hg) | [Hnone Hk]].
      * left. exists a'. split; [by right | done].
      * apply lookup_insert_Some in Hk as [[<- <-] | [Hne Hk]].
        -- left. exists a. split; [by left | done].
        -- right. split; [|done]. intros a' [->|Hin]%elem_of_cons; auto.
    + intros [(a' & [->|Hin]%elem_of_cons & Hf & Hg) | [Hnone Hk]].
      * right. split.
        -- intros a' Hin Heq. apply Ha. rewrite Hf, <- Heq.
           by apply list_elem_of_fmap_2.
        -- rewrite <- Hf, <- Hg. apply lookup_insert_eq.
      * left. by exists a'.
      * right. split; [intros a' Hin; apply Hnone; by right|].
        rewrite lookup_insert_ne; [done|]. apply Hnone. by left.
Qed.

Lemma parse_loop (l : list (string * module_conf)) (st : run) :
  let r := for_each l
             (λ '(module_id, module_cfg),
                if is_substring "module_group" module_id then
                  raise (new_exc ValueError
                           "The module ID contains the reserved name module_group."
                           "_parse_module_cfgs")
                else
                  modify (λ st, set_module_cfgs
                                  (<[Some module_id := of_conf module_cfg]> (_module_cfgs st)) st) ;;
                  modify (λ st, set_modules
                                  (<[module_id := [module_id]]> (_modules st)) st)) st in
  out r = Return () →
  Forall (λ kv, is_substring "module_group" kv.1 = false) l
  ∧ _module_cfgs (final r)
    = foldl (λ m kv, <[Some kv.1 := of_conf kv.2]> m) (_module_cfgs st) l
  ∧ _modules (final r) = foldl (λ m kv, <[kv.1 := [kv.1]]> m) (_modules st) l.
Proof.
  revert st. induction l as [|[module_id c] l IH]; intros st; cbn zeta; cbn [for_each foldl].
  - intros _. by repeat split.
  - destruct (is_substring "module_group" module_id) eqn:Hid.
    + rewrite bind_raise_l. discriminate.
    + unfold mbind at 1, M_bind at 1, bind at 1.
      rewrite !bind_modify. cbn [out final emitted modify].
      set (st' := set_modules _ _).
      intros Hout.
      assert (Hout' : out (for_each l
                (λ '(module_id, module_cfg),
                   if is_substring "module_group" module_id then
                     raise (new_exc ValueError
                              "The module ID contains the reserved name module_group."
                              "_parse_module_cfgs")
                   else
                     modify (λ st, set_module_cfgs
                               (<[Some module_id := of_conf module_cfg]> (_module_cfgs st)) st) ;;
                     modify (λ st, set_modules
                               (<[module_id := [module_id]]> (_modules st)) st)) st')
              = Return ()).
      { destruct (out (for_each l _ st')) eqn:Ho; [by destruct a | done]. }
      destruct (IH st' Hout') as (Hall & Hcfgs & Hmods).
      rewrite Hout' in *. cbn [out final emitted].
      split; [by constructor|]. split; [exact Hcfgs | exact Hmods].
Qed.

(** What [_parse_module_cfgs] accepts, [_set_default_cfg] finds parsed. *)
Lemma _parse_module_cfgs_parsed (conf : gmap string module_conf) (st : run) :
  _module_cfgs st = ∅ → _modules st = ∅ →
  out (_parse_module_cfgs conf st) = Return () →
  parsed conf (final (_parse_module_cfgs conf st)).
Proof.
  intros Hcfgs0 Hmods0. unfold _parse_module_cfgs.
  destruct (decide (conf = ∅)); [discriminate|].
  intros Hout. destruct (parse_loop (map_to_list conf) st Hout) as (Hall & Hcfgs & Hmods).
  split; [|split].
  - rewrite Hcfgs, Hcfgs0. apply map_eq. intros k. apply option_eq. intros v.
    rewrite (foldl_insert_lookup (λ kv, Some kv.1) (λ kv, of_conf kv.2)).
    + rewrite lookup_kmap_Some by apply _. split.
      * intros [([module_id c] & Hin & <- & <-) | [_ ?]]; [|done].
        exists module_id. split; [done|].
        apply elem_of_map_to_list in Hin. by rewrite lookup_fmap, Hin.
      * intros (module_id & -> & Hv). left.
        apply lookup_fmap_Some in Hv as (c & <- & Hc).
        exists (module_id, c). split; [by apply elem_of_map_to_list | done].
    + change (NoDup ((Some ∘ fst) <$> map_to_list conf)).
      rewrite (list_fmap_compose fst Some). apply (NoDup_fmap_2 Some).
      apply NoDup_fst_map_to_list.
  - rewrite Hmods, Hmods0. apply map_eq. intros k. apply option_eq. intros v.
    rewrite (foldl_insert_lookup (λ kv, kv.1) (λ kv, [kv.1])).
    + rewrite map_lookup_imap. split.
      * intros [([module_id c] & Hin & <- & <-) | [_ ?]]; [|done].
        apply elem_of_map_to_list in Hin. simpl. by rewrite Hin.
      * intros Hv. left. destruct (conf !! k) as [c|] eqn:Hc; [|done].
        simpl in Hv. injection Hv as <-.
        exists (k, c). split; [by apply elem_of_map_to_list | done].
    + apply NoDup_fst_map_to_list.
  - intros module_id [c Hc].
    apply elem_of_map_to_list in Hc.
    exact (proj1 (Forall_forall _ _) Hall (module_id, c) Hc).
Qed.

(** The parsed state of a concrete configuration, by evaluation. *)
Lemma parsed_by_evaluation (conf : gmap string module_conf) (st : run) :
  _module_cfgs st = kmap Some (of_conf <$> conf) →
  _modules st = map_imap (λ module_id _, Some [module_id]) conf →
  map_Forall (λ module_id _, is_substring "module_group" module_id = false) conf →
  parsed conf st.
Proof.
  intros Hcfgs Hmods Hids. split; [done|]. split; [done|].
  intros module_id [c Hc]. exact (Hids module_id c Hc).
Qed.

Ltac prove_parsed :=
  apply parsed_by_evaluation;
  [ vm_compute; reflexivity
  | vm_compute; reflexivity
  | apply (bool_decide_unpack _); vm_compute; exact I ].

Lemma uniform_flavor_by_evaluation (conf : gmap string module_conf) (flavor : string) :
  map_Forall (λ _ c, m_fe_flavor c = flavor) conf → ∀ tx, ¬ mixed_flavors conf tx.
Proof.
  intros Hall tx (a & b & ca & cb & [Ha _] & [Hb _] & Hne).
  apply Hne. by rewrite (Hall a ca Ha), (Hall b cb Hb).
Qed.

(** C4, the claim as stated fails: with a broadcast module ([chip_address]
    None) next to an addressed one on the same command line the derivation
    raises the chip-address error, though no two non-broadcast members share
    an address. *)
Lemma broadcast_member_raises_address_error :
  out (_set_default_cfg (Samples.after_parse Samples.with_broadcast_member))
  = Raise (chip_address_error "CMD_CH0")
  ∧ ¬ ∃ tx, shared_address Samples.with_broadcast_member tx.
Proof.
  split; [vm_compute; reflexivity|].
  intros (tx & a & b & ca & cb & address & Hne & [Ha _] & [Hb _] & Haddr_a & Haddr_b).
  assert (Honly : map_Forall (λ module_id c, is_Some (m_chip_address c) → module_id = "module_0")
                    Samples.with_broadcast_member)
    by (apply (bool_decide_unpack _); vm_compute; exact I).
  apply Hne.
  rewrite (Honly a ca Ha), (Honly b cb Hb); [done|rewrite Haddr_b|rewrite Haddr_a]; eauto.
Qed.

(** C4, amended: for a parsed configuration whose command-line groups are
    uniform in flavor, [_set_default_cfg] raises the chip-address error if and
    only if some command line carries two distinct modules that have the same
    [chip_address] entry or of which one is a broadcast module (None). A
    command line whose modules have pairwise distinct, non-broadcast addresses,
    or which carries one module only, passes the check. *)
Theorem chip_address_error_iff_conflict (conf : gmap string module_conf) (st : run) :
  parsed conf st →
  (∀ tx, ¬ mixed_flavors conf tx) →
  (∃ tx, out (_set_default_cfg st) = Raise (chip_address_error tx))
  ↔ (∃ tx, address_conflict conf tx).
Proof.
  intros Hparsed Hflavor.
  destruct (_set_default_cfg_outcome conf st Hparsed)
    as [(tx & Hmix & _) | [(tx & Hconf & Hout) | [(Hvalid & _ & Hout) | (Hvalid & _ & Hout)]]].
  - destruct (Hflavor tx Hmix).
  - split; [by exists tx | by exists tx].
  - split.
    + intros [tx Hout']. rewrite Hout in Hout'. discriminate.
    + intros [tx Hconf]. by destruct (Hvalid tx).
  - split.
    + intros [tx Hout']. rewrite Hout in Hout'. discriminate.
    + intros [tx Hconf]. by destruct (Hvalid tx).
Qed.

Lemma chip_address_error_iff_conflict_witness :
  (∃ tx, out (_set_default_cfg (Samples.after_parse Samples.with_broadcast_member))
         = Raise (chip_address_error tx))
  ↔ (∃ tx, address_conflict Samples.with_broadcast_member tx).
Proof.
  apply (chip_address_error_iff_conflict Samples.with_broadcast_member
           (Samples.after_parse Samples.with_broadcast_member)).
  - prove_parsed.
  - apply (uniform_flavor_by_evaluation _ "fei4b").
    apply (bool_decide_unpack _). vm_compute. exact I.
Defined.

(** Distinct addresses pass. *)
Example distinct_addresses_derive :
  out (_set_default_cfg (Samples.after_parse Samples.two_modules)) = Return ().
Proof. vm_compute. reflexivity. Qed.

(** C7, the claim as stated fails: two modules that name different FIFOs but
    share command line and chip address are turned down by the address check
    of the command-line group, before the FIFOs are counted. *)
Lemma two_fifos_rejected_by_address_check :
  several_fifos Samples.two_fifos_one_address
  ∧ out (_set_default_cfg (Samples.after_parse Samples.two_fifos_one_address))
    = Raise (chip_address_error "CMD_CH0")
  ∧ out (_set_default_cfg (Samples.after_parse Samples.two_fifos_one_address))
    ≠ Raise multi_fifo_error.
Proof.
  assert (Hout : out (_set_default_cfg (Samples.after_parse Samples.two_fifos_one_address))
                 = Raise (chip_address_error "CMD_CH0")) by (vm_compute; reflexivity).
  split; [|split; [exact Hout | rewrite Hout; discriminate]].
  exists "module_0", "module_1", (Samples.sample_module "fei4b" (Some 0) "SRAM" "CMD_CH0" "DATA_CH0" 0),
    (Samples.sample_module "fei4b" (Some 0) "SRAM_2" "CMD_CH0" "DATA_CH1" 1).
  split; [vm_compute; reflexivity|]. split; [vm_compute; reflexivity|]. discriminate.
Qed.

(** C7, amended: for a parsed configuration, [_set_default_cfg] raises the
    NotImplementedError exactly when the modules name more than one FIFO and
    every command-line group passes its flavor and address checks; with more
    than one FIFO the configuration fails in every case (with the error of the
    first failing command-line check otherwise), and with one FIFO shared by
    all modules the NotImplementedError is not raised. *)
Theorem multi_fifo_error_iff_several_fifos (conf : gmap string module_conf) (st : run) :
  parsed conf st →
  (out (_set_default_cfg st) = Raise multi_fifo_error
   ↔ several_fifos conf ∧ ∀ tx, ¬ mixed_flavors conf tx ∧ ¬ address_conflict conf tx)
  ∧ (several_fifos conf → ∃ e, out (_set_default_cfg st) = Raise e)
  ∧ (¬ several_fifos conf → out (_set_default_cfg st) ≠ Raise multi_fifo_error).
Proof.
  intros Hparsed.
  destruct (_set_default_cfg_outcome conf st Hparsed)
    as [(tx & Hmix & Hout) | [(tx & Hconf & Hout)
        | [(Hvalid & Hmany & Hout) | (Hvalid & Hone & Hout)]]];
    rewrite Hout.
  - split; [split; [discriminate|]|split; [eauto|discriminate]].
    intros [_ Hvalid]. by destruct (Hvalid tx).
  - split; [split; [discriminate|]|split; [eauto|discriminate]].
    intros [_ Hvalid]. by destruct (Hvalid tx).
  - split; [split; [done|done]|split; [eauto|done]].
  - split; [split; [discriminate|]|split; [done|discriminate]].
    by intros [Hmany _].
Qed.

Lemma multi_fifo_error_iff_several_fifos_witness :
  (out (_set_default_cfg (Samples.after_parse Samples.two_fifos)) = Raise multi_fifo_error
   ↔ several_fifos Samples.two_fifos
     ∧ ∀ tx, ¬ mixed_flavors Samples.two_fifos tx ∧ ¬ address_conflict Samples.two_fifos tx)
  ∧ (several_fifos Samples.two_fifos
     → ∃ e, out (_set_default_cfg (Samples.after_parse Samples.two_fifos)) = Raise e)
  ∧ (¬ several_fifos Samples.two_fifos
     → out (_set_default_cfg (Samples.after_parse Samples.two_fifos)) ≠ Raise multi_fifo_error).
Proof.
  apply (multi_fifo_error_iff_several_fifos Samples.two_fifos
           (Samples.after_parse Samples.two_fifos)).
  prove_parsed.
Defined.

(** Two FIFOs behind valid command-line groups: the explicit rejection. *)
Example two_fifos_not_implemented :
  out (_set_default_cfg (Samples.after_parse Samples.two_fifos)) = Raise multi_fifo_error.
Proof. vm_compute. reflexivity. Qed.

(** ** Scan life cycle *)

(** *** Steps outside the restore logic *)

Section Tolerant.
Variable R : call_rel.
Hypothesis HT : tolerant R.

Lemma tolerant_respects_emit ev : plain ev = true → respects R (emit ev).
Proof. intros Hev st. by apply (tolerant_emit R HT). Qed.

Lemma tolerant_respects_modify f :
  (∀ st, untouched st (f st)) → respects R (modify f).
Proof. intros Hf st. apply (tolerant_modify R HT), Hf. Qed.

Ltac tolerant_steps :=
  pose proof (tolerant_closed R HT);
  repeat first
    [ respects_step
    | apply tolerant_respects_emit; reflexivity
    | apply tolerant_respects_modify; intros ?; by repeat split ].

Lemma handle_err_tolerant exc : respects R (handle_err exc).
Proof. unfold handle_err, abort. tolerant_steps. Qed.

Lemma current_module_handle_tolerant : respects R current_module_handle.
Proof. unfold current_module_handle, handle_from_thread_name. tolerant_steps. Qed.

Lemma get_module_cfg_tolerant h : respects R (get_module_cfg h).
Proof. unfold get_module_cfg. tolerant_steps. Qed.

Lemma get_register_tolerant : respects R get_register.
Proof.
  pose proof current_module_handle_tolerant.
  unfold get_register. tolerant_steps; auto.
Qed.

Lemma module_TXs_tolerant names : respects R (module_TXs names).
Proof.
  pose proof get_module_cfg_tolerant.
  induction names; cbn [module_TXs]; tolerant_steps; auto.
Qed.

Lemma dut_TX_output_enable_tolerant mask : respects R (dut_TX_output_enable mask).
Proof.
  pose proof get_module_cfg_tolerant. pose proof current_module_handle_tolerant.
  unfold dut_TX_output_enable. tolerant_steps; auto.
Qed.

Lemma run_user_code_tolerant ev impl :
  (∀ c, plain (ev c) = true) → respects R (run_user_code ev impl).
Proof.
  intros Hev. pose proof handle_err_tolerant.
  unfold run_user_code. tolerant_steps; auto.
  apply tolerant_respects_emit, Hev.
Qed.

Lemma set_run_mode_tolerant : respects R set_run_mode.
Proof. pose proof get_register_tolerant. unfold set_run_mode. tolerant_steps; auto. Qed.

Lemma prime_readout_tolerant : respects R prime_readout.
Proof. unfold prime_readout. tolerant_steps. Qed.

Lemma open_files_tolerant : respects R open_files.
Proof.
  pose proof get_module_cfg_tolerant. pose proof current_module_handle_tolerant.
  unfold open_files. tolerant_steps; auto.
Qed.

Lemma close_files_tolerant : respects R close_files.
Proof. unfold close_files. tolerant_steps. Qed.

Lemma access_files_tolerant body : respects R body → respects R (access_files body).
Proof.
  intros Hbody. pose proof open_files_tolerant. pose proof close_files_tolerant.
  unfold access_files. tolerant_steps; auto.
Qed.

Lemma configure_tolerant `{ScanClass} : respects R configure.
Proof. unfold configure. by apply run_user_code_tolerant. Qed.

Lemma scan_tolerant `{ScanClass} : respects R scan.
Proof. unfold scan. by apply run_user_code_tolerant. Qed.

Lemma scan_in_run_mode_tolerant `{ScanClass} : respects R scan_in_run_mode.
Proof.
  pose proof configure_tolerant. pose proof scan_tolerant.
  pose proof set_run_mode_tolerant. pose proof prime_readout_tolerant.
  unfold scan_in_run_mode. tolerant_steps; auto.
  by apply access_files_tolerant.
Qed.

Lemma join_threads_tolerant : respects R join_threads.
Proof. pose proof handle_err_tolerant. unfold join_threads. tolerant_steps; auto. Qed.

End Tolerant.

Section PointerTolerant.
Variable R : call_rel.
Hypothesis HP : pointer_tolerant R.

Lemma pointer_respects_select p : respects R (modify (set_current_module_handle p)).
Proof. intros st. apply (pointer_tolerant_select R HP). Qed.

Lemma access_module_tolerant module_id body :
  respects R body → respects R (access_module module_id body).
Proof.
  intros Hbody. pose proof (pointer_tolerant_tolerant R HP) as HT.
  pose proof (tolerant_closed R HT).
  pose proof (dut_TX_output_enable_tolerant R HT).
  pose proof (module_TXs_tolerant R HT).
  pose proof pointer_respects_select.
  unfold access_module, select_module, deselect_module.
  repeat first
    [ respects_step
    | apply tolerant_respects_emit; [assumption|reflexivity]
    | done ].
Qed.

End PointerTolerant.

(** *** Orders of calls *)

Lemma restore_follows_conf_mode_app e1 e2 :
  restore_follows_conf_mode e1 → restore_follows_conf_mode e2 →
  restore_follows_conf_mode (e1 ++ e2).
Proof.
  intros H1 H2 i h [Hi | [Hle Hi]]%lookup_app_Some.
  - by apply lookup_app_l_Some, H1.
  - apply H2 in Hi. rewrite lookup_app_r by lia.
    by replace (S i - length e1) with (S (i - length e1)) by lia.
Qed.

Lemma restore_follows_conf_mode_without evs :
  Forall (λ ev, is_conf_mode ev = false) evs → restore_follows_conf_mode evs.
Proof.
  intros Hall i h Hi. by apply (Forall_lookup_1 _ _ _ _ Hall) in Hi.
Qed.

Lemma restore_follows_conf_mode_pair h :
  restore_follows_conf_mode [ev_set_conf_mode h; ev_restore h].
Proof. intros [|[|i]] h' Hi; simplify_eq/=; done. Qed.

Lemma conf_mode_right_before_restore_app e1 e2 :
  conf_mode_right_before_restore e1 → conf_mode_right_before_restore e2 →
  conf_mode_right_before_restore (e1 ++ e2).
Proof.
  intros H1 H2 i h [Hi | [Hle Hi]]%lookup_app_Some.
  - destruct (H1 i h Hi) as (j & -> & Hj). exists j. split; [done|].
    by apply lookup_app_l_Some.
  - destruct (H2 _ h Hi) as (j & Heq & Hj). exists (length e1 + j). split; [lia|].
    rewrite lookup_app_r by lia. by replace (length e1 + j - length e1) with j by lia.
Qed.

Lemma conf_mode_right_before_restore_without evs :
  Forall (λ ev, is_restore ev = false) evs → conf_mode_right_before_restore evs.
Proof.
  intros Hall i h Hi. by apply (Forall_lookup_1 _ _ _ _ Hall) in Hi.
Qed.

Lemma conf_mode_right_before_restore_pair h :
  conf_mode_right_before_restore [ev_set_conf_mode h; ev_restore h].
Proof.
  intros [|[|i]] h' Hi; simplify_eq/=. by exists 0.
Qed.

Lemma restored_without_conf_mode_app e1 e2 :
  restored_without_conf_mode e1 → restored_without_conf_mode e2 →
  restored_without_conf_mode (e1 ++ e2).
Proof.
  intros H1 H2 i h [Hi | [Hle Hi]]%lookup_app_Some.
  - destruct (H1 i h Hi) as (k & Hlt & Hk & Hnone). exists k.
    split; [done|]. split; [by apply lookup_app_l_Some|].
    intros j g Hj. rewrite lookup_app_l; [by apply Hnone|].
    apply lookup_lt_Some in Hi. lia.
  - destruct (H2 _ h Hi) as (k & Hlt & Hk & Hnone). exists (length e1 + k).
    split; [lia|]. split.
    + rewrite lookup_app_r by lia.
      by replace (length e1 + k - length e1) with k by lia.
    + intros j g Hj. rewrite lookup_app_r by lia. apply Hnone. lia.
Qed.

Lemma restored_without_conf_mode_without evs :
  Forall (λ ev, is_restore ev = false) evs → restored_without_conf_mode evs.
Proof.
  intros Hall i h Hi. by apply (Forall_lookup_1 _ _ _ _ Hall) in Hi.
Qed.

(** The calls of an [ExitStack] block: plain calls, then the restores of
    the handles on the stack, each captured in the block. *)
Lemma restored_without_conf_mode_block body (stack : list handle) :
  Forall (λ ev, plain ev = true) body →
  (∀ h, h ∈ stack → ev_create_restore_point h ∈ body) →
  restored_without_conf_mode (body ++ (ev_restore <$> stack)).
Proof.
  intros Hplain Hstack i h [Hi | [Hle Hi]]%lookup_app_Some.
  - by apply (Forall_lookup_1 _ _ _ _ Hplain) in Hi.
  - apply list_lookup_fmap_Some in Hi as (h' & [= ->] & Hh').
    apply list_elem_of_lookup_2, Hstack, list_elem_of_lookup_1 in Hh' as [k Hk].
    exists k. pose proof (lookup_lt_Some _ _ _ Hk).
    split; [lia|]. split; [by apply lookup_app_l_Some|].
    intros j g Hj [Hj' | [_ Hj']]%lookup_app_Some.
    + by apply (Forall_lookup_1 _ _ _ _ Hplain) in Hj'.
    + by apply list_lookup_fmap_Some in Hj' as (? & ? & _).
Qed.

Lemma plain_not_restore evs :
  Forall (λ ev, plain ev = true) evs → Forall (λ ev, is_restore ev = false) evs.
Proof. intros Hall. eapply Forall_impl; [exact Hall|]. by intros []. Qed.

Lemma plain_not_conf_mode evs :
  Forall (λ ev, plain ev = true) evs → Forall (λ ev, is_conf_mode ev = false) evs.
Proof. intros Hall. eapply Forall_impl; [exact Hall|]. by intros []. Qed.

(** *** The relations the proofs use *)

Lemma stack_rel_pointer_tolerant : pointer_tolerant stack_rel.
Proof.
  split; [split; [split|..]|]; unfold stack_rel.
  - intros st. split; [constructor | by left].
  - intros st. split; [constructor | by left].
  - intros st1 e1 b1 st2 e2 b2 st3 [Hp1 Hs1] [Hp2 Hs2]. split.
    + by apply Forall_app.
    + intros h [Hh | Hh]%Hs2.
      * apply Hs1 in Hh as [?|?]; [by left | right; apply elem_of_app; by left].
      * right. apply elem_of_app. by right.
  - intros ev st Hev. split; [by repeat constructor | by left].
  - intros st st' (Hstack & _). split; [constructor|]. rewrite Hstack. by left.
  - intros st p. split; [constructor | by left].
Qed.

Lemma without_restore_pointer_tolerant :
  pointer_tolerant (trace_rel (Forall (λ ev, is_restore ev = false))).
Proof.
  split; [split; [apply trace_rel_closed|..]|]; unfold trace_rel.
  - constructor.
  - intros e1 e2 H1 H2. by apply Forall_app.
  - intros [] st Hev; by repeat constructor.
  - constructor.
  - constructor.
Qed.

Lemma restored_without_conf_mode_pointer_tolerant :
  pointer_tolerant (trace_rel restored_without_conf_mode).
Proof.
  split; [split; [apply trace_rel_closed|..]|]; unfold trace_rel.
  - by intros i h Hi.
  - apply restored_without_conf_mode_app.
  - intros ev st Hev. apply restored_without_conf_mode_without.
    destruct ev; by repeat constructor.
  - by intros st st' _ i h Hi.
  - by intros st p i h Hi.
Qed.

Lemma conf_mode_then_restore_rel_closed : closed conf_mode_then_restore_rel.
Proof.
  split; unfold conf_mode_then_restore_rel.
  - intros st. split; [by intros i h Hi | by intros _ i h Hi].
  - intros st. split; [by intros i h Hi | done].
  - intros st1 e1 b1 st2 e2 b2 st3 [Ha1 Hb1] [Ha2 Hb2]. split.
    + by apply restore_follows_conf_mode_app.
    + intros [-> ->]%andb_true_iff.
      apply conf_mode_right_before_restore_app; auto.
Qed.

Lemma conf_mode_then_restore_rel_plain evs b st st' :
  Forall (λ ev, plain ev = true) evs → conf_mode_then_restore_rel st evs b st'.
Proof.
  intros Hplain. split.
  - by apply restore_follows_conf_mode_without, plain_not_conf_mode.
  - intros _. by apply conf_mode_right_before_restore_without, plain_not_restore.
Qed.

Lemma conf_mode_then_restore_rel_pointer_tolerant :
  pointer_tolerant conf_mode_then_restore_rel.
Proof.
  split; [split; [apply conf_mode_then_restore_rel_closed|..]|].
  - intros ev st Hev. apply conf_mode_then_restore_rel_plain. by repeat constructor.
  - intros st st' _. apply conf_mode_then_restore_rel_plain. constructor.
  - intros st p. apply conf_mode_then_restore_rel_plain. constructor.
Qed.

Lemma plain_tolerant : tolerant (trace_rel (Forall (λ ev, plain ev = true))).
Proof.
  split; [apply trace_rel_closed|..]; unfold trace_rel.
  - constructor.
  - intros e1 e2 H1 H2. by apply Forall_app.
  - intros ev st Hev. by repeat constructor.
  - constructor.
Qed.

Lemma untouched_tolerant : tolerant (state_rel untouched).
Proof.
  split; [apply state_rel_closed|..]; unfold state_rel, untouched.
  - done.
  - intros st1 st2 st3 (?&?&?&?&?) (?&?&?&?&?). repeat split; congruence.
  - done.
  - done.
Qed.

(** *** Register objects and snapshots *)

Lemma get_register_pure (st : run) :
  get_register st = mk_result [] st (out (get_register st)).
Proof.
  unfold get_register.
  destruct (out (current_module_handle st)) as [h|e] eqn:Hh.
  - rewrite (bind_current_module_handle _ _ _ Hh), bind_gets.
    by destruct (decide _).
  - unfold mbind, M_bind, bind. by rewrite current_module_handle_pure, Hh.
Qed.

Lemma module_handles_untouched (st st' : run) :
  untouched st st' → module_handles st' = module_handles st.
Proof. intros (_ & _ & Hthr & Hcfgs & _). unfold module_handles. by rewrite Hthr, Hcfgs. Qed.

Lemma current_module_handle_untouched (st st' : run) :
  untouched st st' → out (current_module_handle st') = out (current_module_handle st).
Proof.
  intros Hun. pose proof (module_handles_untouched _ _ Hun) as Hmh.
  destruct Hun as (_ & Hptr & _).
  unfold current_module_handle, handle_from_thread_name. rewrite !bind_gets, Hptr.
  destruct (_current_module_handle st); [done|]. rewrite !bind_gets, Hmh.
  by destruct (module_handles st) as [|? []].
Qed.

Lemma get_register_untouched (st st' : run) :
  untouched st st' → out (get_register st') = out (get_register st).
Proof.
  intros Hun. pose proof (current_module_handle_untouched _ _ Hun) as Hh.
  destruct Hun as (_ & _ & _ & _ & Hregs).
  unfold get_register, mbind, M_bind, bind.
  rewrite (current_module_handle_pure st), (current_module_handle_pure st'), Hh.
  destruct (out (current_module_handle st)); cbn [out final emitted]; [|done].
  unfold gets. cbn [out final emitted]. rewrite Hregs. by destruct (decide _).
Qed.

Lemma set_conf_mode_at (st : run) (h : handle) :
  out (get_register st) = Return h →
  set_conf_mode st = mk_result [ev_set_conf_mode h] st (Return ()).
Proof.
  intros Hh. unfold set_conf_mode, mbind, M_bind, bind.
  by rewrite get_register_pure, Hh.
Qed.

Lemma for_each_emit {A} (f : A → event) (l : list A) (st : run) :
  for_each l (λ x, emit (f x)) st = mk_result (f <$> l) st (Return ()).
Proof.
  induction l as [|x l IH]; cbn [for_each]; [done|].
  by rewrite bind_emit, IH.
Qed.

(** The block of an [ExitStack]. *)
Lemma with_exit_stack_restores_without_conf_mode (body : M unit) :
  respects stack_rel body →
  respects (trace_rel restored_without_conf_mode) (with_exit_stack body).
Proof.
  intros Hbody st. unfold trace_rel, with_exit_stack. rewrite bind_modify.
  unfold try_finally. cbn [emitted].
  destruct (Hbody (set_restore_config_stack [] st)) as [Hplain Hstack].
  rewrite bind_gets. unfold mbind, M_bind, bind. rewrite for_each_emit.
  cbn [out final emitted]. rewrite app_nil_r.
  apply restored_without_conf_mode_block; [done|].
  intros h Hh. apply Hstack in Hh as [Hh|Hh]; [|done].
  cbn in Hh. by apply elem_of_nil in Hh.
Qed.

Lemma enter_restored_stack_rel : respects stack_rel enter_restored.
Proof.
  intros st. unfold enter_restored, mbind, M_bind, bind. rewrite get_register_pure.
  destruct (out (get_register st)) as [h|e]; cbn.
  - split; [by repeat constructor|].
    intros h' [->|Hh']%elem_of_cons; [right; by left | by left].
  - split; [constructor | by left].
Qed.

Lemma thread_start_stack_rel `{ScanClass} t : respects stack_rel (thread_start t).
Proof.
  intros st. unfold thread_start. cbn [emitted final out].
  destruct (scan_tolerant stack_rel
              (pointer_tolerant_tolerant _ stack_rel_pointer_tolerant)
              (set_current_thread (t_name t) st)) as [Hplain Hstack].
  split; [exact Hplain|]. intros h Hh. exact (Hstack h Hh).
Qed.

Lemma start_and_join_stack_rel `{ScanClass} : respects stack_rel start_and_join.
Proof.
  pose proof (pointer_tolerant_tolerant _ stack_rel_pointer_tolerant) as HT.
  pose proof (tolerant_closed _ HT).
  assert (Hstart : ∀ ts, respects stack_rel (start_threads ts)).
  { induction ts as [|t ts IH]; cbn [start_threads]; repeat respects_step; auto.
    apply thread_start_stack_rel. }
  unfold start_and_join. repeat respects_step; auto.
  - apply tolerant_respects_modify; [done|]. intros ?. by repeat split.
  - by apply join_threads_tolerant.
Qed.

Lemma then_set_conf_mode (body : M unit) (st : run) (h : handle) :
  untouched st (final (body st)) →
  out (get_register st) = Return h →
  (body ;; set_conf_mode) st
  = match out (body st) with
    | Return _ =>
        mk_result (emitted (body st) ++ [ev_set_conf_mode h]) (final (body st)) (Return ())
    | Raise e => mk_result (emitted (body st)) (final (body st)) (Raise e)
    end.
Proof.
  intros Hun Hh. unfold mbind, M_bind, bind.
  destruct (out (body st)); [|done].
  rewrite (set_conf_mode_at (final (body st)) h); [done|].
  by rewrite (get_register_untouched _ _ Hun).
Qed.

(** The block of [register.restored] in the individual, sequential strategy:
    plain calls that address the same register object throughout, then the
    switch to configuration mode. *)
Lemma with_restored_conf_mode_then_restore (body : M unit) :
  respects (trace_rel (Forall (λ ev, plain ev = true))) body →
  respects (state_rel untouched) body →
  respects conf_mode_then_restore_rel (with_restored (body ;; set_conf_mode)).
Proof.
  intros Hplain Hun st. specialize (Hplain st). specialize (Hun st).
  unfold trace_rel in Hplain. unfold state_rel in Hun.
  unfold with_restored.
  destruct (out (get_register st)) as [h|e] eqn:Hh.
  - rewrite (bind_pure get_register _ st h) by (by rewrite get_register_pure, Hh).
    rewrite bind_emit. unfold try_finally.
    rewrite (then_set_conf_mode body st h Hun Hh).
    assert (Hpre : Forall (λ ev, plain ev = true)
                     (ev_create_restore_point h :: emitted (body st)))
      by (by constructor).
    destruct (out (body st)) as [[]|e]; cbn [out final emitted is_return app emit].
    + replace (ev_create_restore_point h :: (emitted (body st) ++ [ev_set_conf_mode h])
                 ++ [ev_restore h])
        with ((ev_create_restore_point h :: emitted (body st))
                ++ [ev_set_conf_mode h; ev_restore h])
        by (cbn; by rewrite <- !app_assoc).
      split.
      * apply restore_follows_conf_mode_app;
          [by apply restore_follows_conf_mode_without, plain_not_conf_mode
          |apply restore_follows_conf_mode_pair].
      * intros _. apply conf_mode_right_before_restore_app;
          [by apply conf_mode_right_before_restore_without, plain_not_restore
          |apply conf_mode_right_before_restore_pair].
    + split; [|done].
      apply restore_follows_conf_mode_without. constructor; [done|].
      apply Forall_app. split; [by apply plain_not_conf_mode | by repeat constructor].
  - unfold mbind, M_bind, bind. rewrite get_register_pure, Hh.
    apply conf_mode_then_restore_rel_closed.
Qed.

(** *** The four strategies *)

Section Strategies.
Context `{ScanClass}.

Lemma set_conf_mode_restored_without_conf_mode :
  respects (trace_rel restored_without_conf_mode) set_conf_mode.
Proof.
  pose proof restored_without_conf_mode_pointer_tolerant as HP.
  pose proof (pointer_tolerant_tolerant _ HP) as HT.
  pose proof (tolerant_closed _ HT).
  unfold set_conf_mode. repeat respects_step.
  - by apply get_register_tolerant.
  - intros st. apply restored_without_conf_mode_without. by repeat constructor.
Qed.

Lemma conf_mode_loop_restored_without_conf_mode {A} (l : list A) (f : A → handle) :
  respects (trace_rel restored_without_conf_mode)
    (for_unless_abort l (λ x, access_module (f x) set_conf_mode)).
Proof.
  pose proof restored_without_conf_mode_pointer_tolerant as HP.
  pose proof (tolerant_closed _ (pointer_tolerant_tolerant _ HP)).
  repeat respects_step.
  apply access_module_tolerant; [done|].
  apply set_conf_mode_restored_without_conf_mode.
Qed.

Ltac stack_step :=
  lazymatch goal with
  | |- respects _ (modify _) =>
      apply tolerant_respects_modify; [assumption | intros ?; by repeat split]
  | |- respects _ (access_module _ _) => apply access_module_tolerant; [assumption|]
  | |- respects _ (access_files _) => apply access_files_tolerant; [assumption|]
  | |- respects _ enter_restored => apply enter_restored_stack_rel
  | |- respects _ start_and_join => apply start_and_join_stack_rel
  | |- respects _ configure => apply configure_tolerant; assumption
  | |- respects _ scan => apply scan_tolerant; assumption
  | |- respects _ set_run_mode => apply set_run_mode_tolerant; assumption
  | |- respects _ prime_readout => apply prime_readout_tolerant; assumption
  | |- _ => respects_step
  end.

Ltac stack_steps :=
  pose proof stack_rel_pointer_tolerant as HP;
  pose proof (pointer_tolerant_tolerant _ HP) as HT;
  pose proof (tolerant_closed _ HT);
  repeat stack_step.

Lemma do_run_broadcast_threaded_order :
  respects (trace_rel restored_without_conf_mode) do_run_broadcast_threaded.
Proof.
  pose proof restored_without_conf_mode_pointer_tolerant as HPr.
  pose proof (tolerant_closed _ (pointer_tolerant_tolerant _ HPr)) as Hclosed.
  unfold do_run_broadcast_threaded.
  apply respects_bind; [done|by apply respects_gets|intros groups].
  apply respects_bind; [done|by apply respects_gets|intros modules].
  apply respects_bind; [done| |intros _].
  - apply with_exit_stack_restores_without_conf_mode. clear Hclosed. stack_steps.
  - apply (conf_mode_loop_restored_without_conf_mode _ Some).
Qed.

Lemma do_run_broadcast_sequential_order :
  respects (trace_rel restored_without_conf_mode) do_run_broadcast_sequential.
Proof.
  pose proof restored_without_conf_mode_pointer_tolerant as HPr.
  pose proof (tolerant_closed _ (pointer_tolerant_tolerant _ HPr)) as Hclosed.
  unfold do_run_broadcast_sequential.
  apply respects_bind; [done|by apply respects_gets|intros groups].
  apply respects_for_unless_abort; [done|intros [tx_module_id tx_group]].
  apply respects_bind; [done| |intros _].
  - apply with_exit_stack_restores_without_conf_mode. clear Hclosed. stack_steps.
  - apply access_module_tolerant; [done|].
    apply set_conf_mode_restored_without_conf_mode.
Qed.

Lemma do_run_individual_threaded_order :
  respects (trace_rel restored_without_conf_mode) do_run_individual_threaded.
Proof.
  pose proof restored_without_conf_mode_pointer_tolerant as HPr.
  pose proof (pointer_tolerant_tolerant _ HPr) as HTr.
  pose proof (tolerant_closed _ HTr) as Hclosed.
  unfold do_run_individual_threaded.
  apply respects_bind; [done| |intros _].
  { apply tolerant_respects_modify; [done|]. intros ?. by repeat split. }
  apply respects_bind; [done|by apply respects_gets|intros groups].
  apply respects_for_unless_abort; [done|intros tx_module_ids].
  apply respects_bind; [done| |intros _].
  - apply with_exit_stack_restores_without_conf_mode. clear Hclosed. stack_steps.
  - apply (conf_mode_loop_restored_without_conf_mode _ id).
Qed.

Lemma do_run_individual_sequential_order :
  respects conf_mode_then_restore_rel do_run_individual_sequential.
Proof.
  pose proof conf_mode_then_restore_rel_pointer_tolerant as HP.
  pose proof (pointer_tolerant_tolerant _ HP) as HT.
  pose proof (tolerant_closed _ HT) as Hclosed.
  unfold do_run_individual_sequential.
  apply respects_bind; [done|by apply respects_gets|intros modules].
  apply respects_for_unless_abort; [done|intros module_id].
  apply respects_bind; [done| |intros _].
  { apply tolerant_respects_modify; [done|]. intros ?. by repeat split. }
  apply access_module_tolerant; [done|].
  apply with_restored_conf_mode_then_restore.
  - apply scan_in_run_mode_tolerant, plain_tolerant.
  - apply scan_in_run_mode_tolerant, untouched_tolerant.
Qed.

End Strategies.

(** C2, the claim as stated fails: with broadcast commands and one module
    on one command line, the snapshots of the module and of its group are
    restored (calls 17 and 18) before the group is switched to configuration
    mode (call 20); no switch to configuration mode comes before them. *)
Lemma broadcast_restores_before_conf_mode :
  ¬ conf_mode_before_restore
      (emitted (@do_run Samples.quiet_scan (Samples.ready false true false Samples.one_module))).
Proof.
  assert (Htr : emitted (@do_run Samples.quiet_scan
                           (Samples.ready false true false Samples.one_module))
          = [ev_output_enable "CMD_CH0" 1;
             ev_create_restore_point (Some "module_group_TX=CMD_CH0");
             ev_configure ("MainThread", Some "module_group_TX=CMD_CH0");
             ev_output_enable "CMD_CH0" 0; ev_output_enable "CMD_CH0" 1;
             ev_create_restore_point (Some "module_0");
             ev_configure ("MainThread", Some "module_0");
             ev_output_enable "CMD_CH0" 0; ev_output_enable "CMD_CH0" 1;
             ev_set_run_mode (Some "module_group_TX=CMD_CH0"); ev_reset_rx;
             ev_reset_fifo; ev_print_readout_status; ev_open_files ["module_0"];
             ev_scan ("MainThread", Some "module_group_TX=CMD_CH0");
             ev_close_files; ev_output_enable "CMD_CH0" 0;
             ev_restore (Some "module_0");
             ev_restore (Some "module_group_TX=CMD_CH0");
             ev_output_enable "CMD_CH0" 1;
             ev_set_conf_mode (Some "module_group_TX=CMD_CH0");
             ev_output_enable "CMD_CH0" 0; ev_print_readout_status])
    by (vm_compute; reflexivity).
  rewrite Htr. intros Hclaim.
  destruct (Hclaim 17 (Some "module_0") eq_refl) as (j & g & Hlt & Hj).
  do 17 (destruct j as [|j]; [discriminate Hj|]). lia.
Qed.

(** C2, amended: only the individual, sequential strategy leaves run mode
    before it restores the registers: there every switch to configuration mode
    is followed at once by the restore of the snapshot of the same module, and
    when [do_run] returns every restore comes right after the switch to
    configuration mode of its module.  The three strategies that keep the
    snapshots on a restore stack (broadcast commands, threaded or not, and the
    individual threaded scan) reapply every snapshot without any switch to
    configuration mode between its capture and its restore: the stack is
    unwound first. *)
Theorem conf_mode_and_restore_order `{ScanClass} (st : run) :
  let tr := emitted (do_run st) in
  if broadcast_commands st || threaded_scan st
  then restored_without_conf_mode tr
  else restore_follows_conf_mode tr
       ∧ (out (do_run st) = Return () → conf_mode_right_before_restore tr).
Proof.
  pose proof restored_without_conf_mode_pointer_tolerant as HPr.
  pose proof (pointer_tolerant_tolerant _ HPr) as HTr.
  pose proof (tolerant_closed _ HTr) as Hclosed_r.
  pose proof conf_mode_then_restore_rel_pointer_tolerant as HPc.
  pose proof (pointer_tolerant_tolerant _ HPc) as HTc.
  pose proof (tolerant_closed _ HTc) as Hclosed_c.
  cbn zeta. unfold do_run. rewrite !bind_gets.
  destruct (broadcast_commands st), (threaded_scan st); cbn [orb].
  - apply (respects_bind _ Hclosed_r _ _ do_run_broadcast_threaded_order
             (λ _, tolerant_respects_emit _ HTr ev_print_readout_status eq_refl)).
  - apply (respects_bind _ Hclosed_r _ _ do_run_broadcast_sequential_order
             (λ _, tolerant_respects_emit _ HTr ev_print_readout_status eq_refl)).
  - apply (respects_bind _ Hclosed_r _ _ do_run_individual_threaded_order
             (λ _, tolerant_respects_emit _ HTr ev_print_readout_status eq_refl)).
  - pose proof (respects_bind _ Hclosed_c _ _ do_run_individual_sequential_order
                  (λ _, tolerant_respects_emit _ HTc ev_print_readout_status eq_refl) st)
      as [Hfollow Hbefore].
    split; [exact Hfollow|]. intros Hout. apply Hbefore. by rewrite Hout.
Qed.

(** The individual, sequential scan of one module in full. *)
Example individual_sequential_scan_of_one_module :
  emitted (@do_run Samples.quiet_scan (Samples.ready false false false Samples.one_module))
  = [ev_output_enable "CMD_CH0" 1;
     ev_create_restore_point (Some "module_0");
     ev_configure ("MainThread", Some "module_0");
     ev_set_run_mode (Some "module_0"); ev_reset_rx; ev_reset_fifo;
     ev_print_readout_status; ev_open_files ["module_0"];
     ev_scan ("MainThread", Some "module_0"); ev_close_files;
     ev_set_conf_mode (Some "module_0"); ev_restore (Some "module_0");
     ev_output_enable "CMD_CH0" 0; ev_print_readout_status].
Proof. vm_compute. reflexivity. Qed.

(** The individual, sequential scan of one module returns, and its restore
    comes right after the switch to configuration mode. *)
Lemma conf_mode_and_restore_order_witness :
  out (@do_run Samples.quiet_scan (Samples.ready false false false Samples.one_module))
  = Return ()
  ∧ conf_mode_right_before_restore
      (emitted (@do_run Samples.quiet_scan
                  (Samples.ready false false false Samples.one_module))).
Proof.
  split; [vm_compute; reflexivity|].
  pose proof (@conf_mode_and_restore_order Samples.quiet_scan
                (Samples.ready false false false Samples.one_module)) as Horder.
  cbv zeta in Horder.
  assert (Hstrategy : broadcast_commands (Samples.ready false false false Samples.one_module)
                      || threaded_scan (Samples.ready false false false Samples.one_module)
                      = false) by reflexivity.
  rewrite Hstrategy in Horder. apply Horder.
  vm_compute. reflexivity.
Defined.

(** ** More on the register tables *)

Import Fei4Layout.

Lemma contiguous_le (table : list (string * global_register)) (start stop : nat) :
  contiguous start table = Some stop → start ≤ stop.
Proof.
  revert start. induction table as [|e table IH]; intros start; cbn [contiguous].
  - intros [= ->]. lia.
  - case_bool_decide as He; [|done]. intros Hrest%IH. lia.
Qed.

Lemma contiguous_owners (table : list (string * global_register)) (start stop p : nat) :
  contiguous start table = Some stop →
  (start ≤ p < stop → ∃ name, owners p table = [name])
  ∧ (p < start ∨ stop ≤ p → owners p table = []).
Proof.
  revert start. induction table as [|e table IH]; intros start; cbn [contiguous].
  - intros [= ->]. split; [lia | done].
  - case_bool_decide as He; [|done]. destruct He as [Hfirst Hlen]. intros Hrest.
    pose proof (contiguous_le _ _ _ Hrest) as Hle.
    destruct (IH _ Hrest) as [IHin IHout].
    unfold owners in *. rewrite filter_cons.
    destruct (decide (covers p e.2 = true)) as [Hc|Hc].
    + unfold covers in Hc. apply andb_true_iff in Hc as [Hge%Nat.leb_le Hlt%Nat.ltb_lt].
      rewrite fmap_cons, IHout by lia. split; [by eexists | lia].
    + assert (Hout : p < start ∨ start + bitlength e.2 ≤ p).
      { unfold covers in Hc. apply not_true_is_false, andb_false_iff in Hc
          as [Hge%Nat.leb_gt | Hlt%Nat.ltb_ge]; lia. }
      split.
      * intros Hp. apply IHin. lia.
      * intros Hp. apply IHout. lia.
Qed.

(** X1: the entries of the global register tables tile the address space.
    In fei4b every bit of the 64 address words (1024 bits) belongs to exactly
    one entry; in fei4a, which has no entry at address 0, every bit of words 1
    to 63 belongs to exactly one entry and no bit of word 0 belongs to any;
    no entry of either table reaches beyond word 63. *)
Theorem global_registers_tile_the_address_space (p : nat) :
  (p < address_bits →
   (∃ name, owners p (global_registers fei4b) = [name])
   ∧ if p <? word_width then owners p (global_registers fei4a) = []
     else ∃ name, owners p (global_registers fei4a) = [name])
  ∧ (address_bits ≤ p →
     owners p (global_registers fei4a) = [] ∧ owners p (global_registers fei4b) = []).
Proof.
  assert (Ha : contiguous word_width (global_registers fei4a) = Some address_bits)
    by (vm_compute; reflexivity).
  assert (Hb : contiguous 0 (global_registers fei4b) = Some address_bits)
    by (vm_compute; reflexivity).
  destruct (contiguous_owners _ _ _ p Ha) as [Ha_in Ha_out].
  destruct (contiguous_owners _ _ _ p Hb) as [Hb_in Hb_out].
  split.
  - intros Hp. split; [apply Hb_in; lia|].
    destruct (p <? word_width) eqn:Hw.
    + apply Nat.ltb_lt in Hw. apply Ha_out. by left.
    + apply Nat.ltb_ge in Hw. apply Ha_in. lia.
  - intros Hp. split; [apply Ha_out | apply Hb_out]; by right.
Qed.

Lemma global_registers_tile_the_address_space_witness :
  (∃ name, owners 419 (global_registers fei4b) = [name])
  ∧ ∃ name, owners 419 (global_registers fei4a) = [name].
Proof.
  apply (proj1 (global_registers_tile_the_address_space 419)).
  vm_compute. lia.
Defined.

(** X2: in both flavors no two global register entries share a name and
    every default value fits the declared bit length of its entry; an entry
    whose name is a string of 0s and 1s is a constant: it has the length of
    its name and the value the name spells. *)
Theorem global_register_defaults_fit (f : flavor) :
  NoDup (global_registers f).*1
  ∧ Forall (λ e : string * global_register,
              (Fei4Defines.value e.2 < 2 ^ N.of_nat (bitlength e.2))%N
              ∧ (all_bits e.1 = true →
                 bitlength e.2 = String.length e.1 ∧ Fei4Defines.value e.2 = binary e.1))
      (global_registers f).
Proof.
  split.
  - destruct f; apply (bool_decide_unpack _); vm_compute; exact I.
  - apply Forall_forall. intros e He.
    assert (Hcheck : forallb (λ e : string * global_register,
              (Fei4Defines.value e.2 <? 2 ^ N.of_nat (bitlength e.2))%N
              && (negb (all_bits e.1)
                  || (Nat.eqb (bitlength e.2) (String.length e.1)
                      && N.eqb (Fei4Defines.value e.2) (binary e.1))))
              (global_registers f) = true) by (destruct f; vm_compute; reflexivity).
    rewrite forallb_forall in Hcheck. apply list_elem_of_In in He.
    specialize (Hcheck e He). apply andb_true_iff in Hcheck as [Hfit Hconst].
    split; [by apply N.ltb_lt|]. intros Hbits. rewrite Hbits in Hconst. simpl in Hconst.
    apply andb_true_iff in Hconst as [Hlen Hval].
    split; [by apply Nat.eqb_eq | by apply N.eqb_eq].
Qed.

(** X3: the pixel registers with a latch occupy the thirteen latches 0 to 12,
    each latch belonging to exactly one register (Enable 0, TDAC 1-5, C_High
    6, C_Low 7, Imon 8, FDAC 9-12), and no latch beyond; the shift-register
    entry EnableDigInj has none; every default value fits its bit length. *)
Theorem pixel_registers_tile_the_latches (p : nat) :
  (if p <? 13 then ∃ name, latch_owners p = [name] else latch_owners p = [])
  ∧ Forall (λ e : string * pixel_register,
              (px_value e.2 < 2 ^ N.of_nat (px_bitlength e.2))%N) pixel_registers.
Proof.
  split.
  - destruct (p <? 13) eqn:Hp.
    + apply Nat.ltb_lt in Hp.
      do 13 (destruct p as [|p]; [by eexists|]). lia.
    + apply Nat.ltb_ge in Hp. unfold latch_owners.
      assert (Hall : Forall (λ e : string * pixel_register,
                       match pxstrobe e.2 with
                       | Some s => s + px_bitlength e.2 ≤ 13
                       | None => True
                       end) pixel_registers)
        by (unfold pixel_registers;
            repeat (apply Forall_cons_2; [simpl; first [lia | exact I]|]);
            apply Forall_nil_2).
      induction Hall as [|e table He _ IH]; [reflexivity|].
      rewrite filter_cons. destruct (decide (latches p e.2 = true)) as [Hc|Hc]; [|exact IH].
      unfold latches in Hc. destruct (pxstrobe e.2); [|done].
      apply andb_true_iff in Hc as [_ Hlt%Nat.ltb_lt]. lia.
  - apply (bool_decide_unpack _). vm_compute. exact I.
Qed.

(** ** Module configurations: checks and defaults *)

Import ModuleConf.

Lemma undefined_setdefault_ne (key key' : string) (d : raw_cfg) :
  key ≠ key' → undefined key (setdefault key' d) = undefined key d.
Proof.
  intros Hne. unfold undefined, setdefault.
  destruct (d !! key'); [done|]. by rewrite lookup_insert_ne.
Qed.

Lemma lookup_setdefault_ne (key key' : string) (d : raw_cfg) :
  key ≠ key' → setdefault key' d !! key = d !! key.
Proof.
  intros Hne. unfold setdefault.
  destruct (d !! key'); [done|]. by rewrite lookup_insert_ne.
Qed.

Lemma lookup_setdefault (key : string) (d : raw_cfg) :
  setdefault key d !! key = Some (default VNone (d !! key)).
Proof.
  unfold setdefault. destruct (d !! key) eqn:Hk; [done|]. by rewrite lookup_insert_eq.
Qed.

Lemma setdefault_subseteq (key : string) (d : raw_cfg) : d ⊆ setdefault key d.
Proof.
  unfold setdefault. destruct (d !! key) eqn:Hk; [done|]. by apply insert_subseteq.
Qed.

Lemma check_drivers_reserved (module_id : string) (d : raw_cfg) :
  check_drivers module_id _reserved_driver_names d
  = if undefined "FIFO" d then (d, Some (no_parameter "FIFO" module_id))
    else if undefined "TX" d then (d, Some (no_parameter "TX" module_id))
    else if undefined "RX" d then (d, Some (no_parameter "RX" module_id))
    else if undefined "TLU" d then (d, Some (no_parameter "TLU" module_id))
    else (setdefault "TDC" d, None).
Proof.
  unfold _reserved_driver_names. cbn [check_drivers].
  repeat (rewrite decide_False by discriminate).
  rewrite decide_True by reflexivity.
  by repeat destruct (undefined _ d).
Qed.

(** The first of the required items that is undefined. *)
Lemma find_undefined_cases (d : raw_cfg) (items : list string) :
  match list_find (λ k, undefined k d = true) items with
  | Some (_, k) => k ∈ items ∧ undefined k d = true
  | None => Forall (λ k, undefined k d = false) items
  end.
Proof.
  destruct (list_find _ items) as [[i k]|] eqn:Hfind.
  - apply list_find_Some in Hfind as (Hi & Hk & _). split; [|done].
    by eapply list_elem_of_lookup_2.
  - apply list_find_None in Hfind. eapply Forall_impl; [exact Hfind|].
    intros k Hk. simpl in Hk. by destruct (undefined k d).
Qed.

(** X4: [_parse_module_cfgs] checks the items of a module in a fixed order
    and reports the first one that is missing.  For a module id without the
    reserved name, the ValueError names the first of FIFO, TX, RX, TLU,
    rx_channel, tx_channel, fe_flavor that is absent or None; if all of them
    are defined it names chip_address when that key is absent (a chip_address
    of None, the broadcast address, is accepted); otherwise the module is
    accepted.  A module id with the reserved name is refused before its items
    are looked at, and its dict is left as it was. *)
Theorem check_module_cfg_reports_first_missing_item (module_id : string) (d : raw_cfg) :
  (check_module_cfg module_id d).2
  = if is_substring "module_group" module_id then Some reserved_name
    else match list_find (λ k, undefined k d = true) required_items with
         | Some (_, k) => Some (no_parameter k module_id)
         | None =>
             if bool_decide (d !! "chip_address" = None)
             then Some (no_parameter "chip_address" module_id)
             else None
         end.
Proof.
  unfold check_module_cfg. destruct (is_substring "module_group" module_id); [done|].
  rewrite check_drivers_reserved. unfold required_items. cbn [list_find].
  destruct (undefined "FIFO" d) eqn:H1; [rewrite decide_True by done; reflexivity|].
  rewrite decide_False by done.
  destruct (undefined "TX" d) eqn:H2; [rewrite decide_True by done; reflexivity|].
  rewrite decide_False by done.
  destruct (undefined "RX" d) eqn:H3; [rewrite decide_True by done; reflexivity|].
  rewrite decide_False by done.
  destruct (undefined "TLU" d) eqn:H4; [rewrite decide_True by done; reflexivity|].
  rewrite decide_False by done.
  cbn [fst snd]. rewrite !undefined_setdefault_ne by discriminate.
  rewrite lookup_setdefault_ne by discriminate.
  destruct (undefined "rx_channel" d) eqn:H5; [rewrite decide_True by done; reflexivity|].
  rewrite decide_False by done.
  destruct (undefined "tx_channel" d) eqn:H6; [rewrite decide_True by done; reflexivity|].
  rewrite decide_False by done.
  destruct (undefined "fe_flavor" d) eqn:H7; [rewrite decide_True by done; reflexivity|].
  rewrite decide_False by done.
  cbn. by destruct (bool_decide (d !! "chip_address" = None)).
Qed.

Lemma check_module_cfg_accepted (module_id : string) (d : raw_cfg) :
  (check_module_cfg module_id d).2 = None →
  is_substring "module_group" module_id = false
  ∧ Forall (λ k, undefined k d = false) required_items
  ∧ is_Some (d !! "chip_address")
  ∧ (check_module_cfg module_id d).1
    = setdefault "send_data"
        (setdefault "fe_configuration" (setdefault "tdc_channel" (setdefault "TDC" d))).
Proof.
  intros Hok. pose proof Hok as Hfirst.
  rewrite check_module_cfg_reports_first_missing_item in Hfirst.
  destruct (is_substring "module_group" module_id) eqn:Hid; [done|].
  pose proof (find_undefined_cases d required_items) as Hfind.
  destruct (list_find _ required_items) as [[i k]|]; [done|].
  case_bool_decide as Haddr; [done|].
  split; [done|]. split; [done|].
  split; [by destruct (d !! "chip_address"); eauto|].
  pose proof Hfind as Hitems. unfold required_items in Hitems.
  apply Forall_cons in Hitems as [H1 Hitems]. apply Forall_cons in Hitems as [H2 Hitems].
  apply Forall_cons in Hitems as [H3 Hitems]. apply Forall_cons in Hitems as [H4 _].
  revert Hok. unfold check_module_cfg. rewrite Hid, check_drivers_reserved.
  rewrite H1, H2, H3, H4.
  cbn [fst snd].
  repeat (destruct (undefined _ (setdefault "TDC" d)); [done|]).
  by destruct (bool_decide _).
Qed.

(** X5: an accepted module comes out of the checks complete and otherwise
    untouched: every item it had keeps its value, the four optional items TDC,
    tdc_channel, fe_configuration and send_data are None where they were
    absent, no other key is added, and checking the result once more changes
    nothing. *)
Theorem check_module_cfg_fills_defaults (module_id : string) (d : raw_cfg) :
  (check_module_cfg module_id d).2 = None →
  let d' := (check_module_cfg module_id d).1 in
  d ⊆ d'
  ∧ (∀ k, d' !! k = if bool_decide (k ∈ optional_items)
                    then Some (default VNone (d !! k))
                    else d !! k)
  ∧ Forall (λ k, is_Some (d' !! k)) (required_items ++ "chip_address" :: optional_items)
  ∧ check_module_cfg module_id d' = (d', None).
Proof.
  intros Hok. cbn zeta.
  destruct (check_module_cfg_accepted _ _ Hok) as (Hid & Hreq & Haddr & ->).
  set (d' := setdefault _ _).
  assert (Hlookup : ∀ k, d' !! k = if bool_decide (k ∈ optional_items)
                                   then Some (default VNone (d !! k))
                                   else d !! k).
  { intros k. unfold d', optional_items.
    destruct (decide (k = "send_data")) as [->|Hk1].
    { rewrite lookup_setdefault, !lookup_setdefault_ne by discriminate.
      rewrite bool_decide_eq_true_2; [done|]. set_solver. }
    rewrite lookup_setdefault_ne by done.
    destruct (decide (k = "fe_configuration")) as [->|Hk2].
    { rewrite lookup_setdefault, !lookup_setdefault_ne by discriminate.
      rewrite bool_decide_eq_true_2; [done|]. set_solver. }
    rewrite lookup_setdefault_ne by done.
    destruct (decide (k = "tdc_channel")) as [->|Hk3].
    { rewrite lookup_setdefault, !lookup_setdefault_ne by discriminate.
      rewrite bool_decide_eq_true_2; [done|]. set_solver. }
    rewrite lookup_setdefault_ne by done.
    destruct (decide (k = "TDC")) as [->|Hk4].
    { rewrite lookup_setdefault. rewrite bool_decide_eq_true_2; [done|]. set_solver. }
    rewrite lookup_setdefault_ne by done.
    rewrite bool_decide_eq_false_2; [done|]. intros Hin.
    repeat (apply elem_of_cons in Hin as [->|Hin]; [done|]).
    by apply elem_of_nil in Hin. }
  assert (Hsub : d ⊆ d').
  { unfold d'. repeat (etrans; [|apply setdefault_subseteq]). done. }
  assert (Hund : ∀ k, undefined k d = false → undefined k d' = false).
  { intros k Hk. unfold undefined in *. destruct (d !! k) as [v|] eqn:Hv; [|done].
    by rewrite (lookup_weaken _ _ _ _ Hv Hsub). }
  split; [done|]. split; [done|]. split.
  - apply Forall_app. split.
    + eapply Forall_impl; [exact Hreq|]. intros k Hk. simpl in Hk.
      apply Hund in Hk. unfold undefined in Hk. by destruct (d' !! k); eauto.
    + apply Forall_cons. split.
      { destruct Haddr as [v Hv]. exists v. by apply (lookup_weaken _ _ _ _ Hv Hsub). }
      unfold optional_items.
      repeat (apply Forall_cons; split;
              [rewrite Hlookup, bool_decide_eq_true_2 by set_solver; eauto|]).
      constructor.
  - assert (Hagain : (check_module_cfg module_id d').2 = None).
    { rewrite check_module_cfg_reports_first_missing_item, Hid.
      assert (Hnone : list_find (λ k, undefined k d' = true) required_items = None).
      { apply list_find_None. eapply Forall_impl; [exact Hreq|].
        intros k Hk. simpl in Hk. apply Hund in Hk. by rewrite Hk. }
      rewrite Hnone. rewrite bool_decide_eq_false_2; [done|].
      destruct Haddr as [v Hv]. by rewrite (lookup_weaken _ _ _ _ Hv Hsub). }
    destruct (check_module_cfg_accepted _ _ Hagain) as (_ & _ & _ & Heq).
    rewrite (surjective_pairing (check_module_cfg module_id d')), Hagain, Heq.
    f_equal. apply map_eq. intros k.
    assert (Hstable : ∀ key d0, is_Some (d0 !! key) → setdefault key d0 = d0).
    { intros key d0 [v Hv]. unfold setdefault. by rewrite Hv. }
    rewrite (Hstable "TDC" d')
      by (rewrite Hlookup, bool_decide_eq_true_2 by (unfold optional_items; set_solver); eauto).
    rewrite (Hstable "tdc_channel" d')
      by (rewrite Hlookup, bool_decide_eq_true_2 by (unfold optional_items; set_solver); eauto).
    rewrite (Hstable "fe_configuration" d')
      by (rewrite Hlookup, bool_decide_eq_true_2 by (unfold optional_items; set_solver); eauto).
    rewrite (Hstable "send_data" d')
      by (rewrite Hlookup, bool_decide_eq_true_2 by (unfold optional_items; set_solver); eauto).
    done.
Qed.

Lemma check_module_cfg_fills_defaults_witness :
  let d' := (check_module_cfg "module_0" minimal).1 in
  minimal ⊆ d'
  ∧ (∀ k, d' !! k = if bool_decide (k ∈ optional_items)
                    then Some (default VNone (minimal !! k))
                    else minimal !! k)
  ∧ Forall (λ k, is_Some (d' !! k)) (required_items ++ "chip_address" :: optional_items)
  ∧ check_module_cfg "module_0" d' = (d', None).
Proof.
  apply (check_module_cfg_fills_defaults "module_0" minimal).
  vm_compute. reflexivity.
Defined.

(** Every [module_conf] stands for a dict that passes the checks
    unchanged. *)
Lemma raw_of_accepted (module_id : string) (c : module_conf) :
  is_substring "module_group" module_id = false →
  check_module_cfg module_id (raw_of c) = (raw_of c, None).
Proof.
  intros Hid.
  assert (Hok : (check_module_cfg module_id (raw_of c)).2 = None).
  { rewrite check_module_cfg_reports_first_missing_item, Hid.
    destruct c as [? [?|] ? ? ? ? ? [?|] [?|] ? [?|] [?|]]; vm_compute; reflexivity. }
  destruct (check_module_cfg_accepted _ _ Hok) as (_ & _ & _ & Heq).
  rewrite (surjective_pairing (check_module_cfg module_id (raw_of c))), Hok, Heq.
  reflexivity.
Qed.

(** ** Construction of the run object *)








(** ** The module registry after construction *)

Import MoreProps.

Lemma tx_group_name_inj (tx tx' : string) : tx_group_name tx = tx_group_name tx' → tx = tx'.
Proof. unfold tx_group_name. cbn. intros Heq. by simplify_eq. Qed.

Lemma tx_group_name_reserved (tx : string) :
  is_substring "module_group" (tx_group_name tx) = true.
Proof. reflexivity. Qed.

Lemma tx_group_name_not_fifo (tx fifo : string) :
  tx_group_name tx ≠ "module_group_FIFO=" +:+ fifo.
Proof. unfold tx_group_name. cbn. intros Heq. by simplify_eq. Qed.

Lemma derive_tx_group_final (st : run) (tx : string) (group : list string) :
  out (derive_tx_group tx group st) = Return () →
  ∃ cfg,
    final (derive_tx_group tx group st)
    = set_tx_module_groups (<[tx_group_name tx := group]> (_tx_module_groups st))
        (set_module_cfgs (<[Some (tx_group_name tx) := cfg]> (_module_cfgs st)) st)
    ∧ chip_address cfg = None
    ∧ TX cfg = One tx
    ∧ fe_flavor cfg = default None (head (remove_dups (fe_flavor <$> group_cfgs group st)))
    ∧ length (remove_dups (fe_flavor <$> group_cfgs group st)) = 1.
Proof.
  unfold derive_tx_group. rewrite bind_gets. cbv zeta.
  destruct (decide (length (remove_dups (fe_flavor <$> group_cfgs group st)) ≠ 1))
    as [Hbad|Hok]; [discriminate|].
  destruct (decide _) as [Hbad|_]; [discriminate|].
  intros _. rewrite !bind_modify. eexists. split; [reflexivity|].
  repeat split. by destruct (decide (length (remove_dups (fe_flavor <$> group_cfgs group st)) = 1));
    [|lia].
Qed.

Lemma group_flavor (conf : gmap string module_conf) (st : run) tx group module_id c :
  registry_inv conf st → tx_group_of conf tx group →
  length (remove_dups (fe_flavor <$> group_cfgs group st)) = 1 →
  on_tx conf tx module_id c →
  default None (head (remove_dups (fe_flavor <$> group_cfgs group st)))
  = Some (m_fe_flavor c).
Proof.
  intros Hinv Hgroup Hlen Hc.
  assert (Hin : fe_flavor (of_conf c) ∈ remove_dups (fe_flavor <$> group_cfgs group st)).
  { apply elem_of_remove_dups, list_elem_of_fmap_2.
    apply (elem_of_group_cfgs conf st tx group); [done|done|]. by exists module_id, c. }
  destruct (remove_dups _) as [|f [|? ?]]; simpl in Hlen; try lia.
  apply list_elem_of_singleton in Hin. simpl. by rewrite <- Hin.
Qed.

Lemma parse_keeps_groups (conf : gmap string module_conf) (st : run) :
  _tx_module_groups (final (_parse_module_cfgs conf st)) = _tx_module_groups st.
Proof.
  unfold _parse_module_cfgs. destruct (decide (conf = ∅)); [reflexivity|].
  generalize (map_to_list conf). intros l. revert st.
  induction l as [|[module_id c] l IH]; intros st; cbn [for_each]; [reflexivity|].
  destruct (is_substring "module_group" module_id); [reflexivity|].
  unfold mbind at 1, M_bind at 1, bind at 1.
  rewrite !bind_modify. cbn [out final emitted modify].
  rewrite IH. reflexivity.
Qed.

Section RegistryAfter.
Variable conf : gmap string module_conf.
Hypothesis Hids :
  ∀ module_id, is_Some (conf !! module_id) → is_substring "module_group" module_id = false.

Lemma not_a_module (name : string) :
  is_substring "module_group" name = true → conf !! name = None.
Proof.
  intros Hname. destruct (conf !! name) as [c|] eqn:Hc; [|done].
  rewrite Hids in Hname; [done|by exists c].
Qed.

Lemma derive_tx_group_keeps (st : run) tx group :
  registry_inv conf st → tx_groups_inv conf st → tx_group_of conf tx group →
  out (derive_tx_group tx group st) = Return () →
  let st' := final (derive_tx_group tx group st) in
  registry_inv conf st' ∧ tx_groups_inv conf st'
  ∧ _tx_module_groups st' = <[tx_group_name tx := group]> (_tx_module_groups st)
  ∧ _module_cfgs st' !! None = _module_cfgs st !! None.
Proof.
  intros Hinv Hgroups Hgroup Hout. cbn zeta.
  destruct (derive_tx_group_final st tx group Hout)
    as (cfg & -> & Haddr & Htx & Hflavor & Hlen).
  split; [|split; [|split; [reflexivity|]]].
  - pose proof (registry_inv_insert_cfg conf st (Some (tx_group_name tx)) cfg) as Hins.
    destruct Hins as [Hcfgs Hmods]; [|done|].
    { intros module_id [= <-]. by apply not_a_module. }
    split; [exact Hcfgs | exact Hmods].
  - intros name g. cbn. intros Hname.
    apply lookup_insert_Some in Hname as [[<- <-] | [Hne Hname]].
    + exists tx. split; [done|]. split; [done|]. exists cfg.
      rewrite lookup_insert_eq. split; [done|]. split; [done|]. split; [done|].
      intros module_id c Hc. rewrite Hflavor. by eapply group_flavor.
    + destruct (Hgroups name g Hname) as (tx' & -> & Hg & cfg' & Hcfg' & Hrest).
      exists tx'. split; [done|]. split; [done|]. exists cfg'.
      rewrite lookup_insert_ne by congruence. done.
  - cbn. by rewrite lookup_insert_ne.
Qed.

Lemma tx_group_loop_keeps (l : list (string * list string)) (st : run) :
  (∀ tx group, (tx, group) ∈ l → tx_group_of conf tx group) →
  NoDup l.*1 →
  registry_inv conf st → tx_groups_inv conf st →
  let r := for_each l (λ '(tx, module_group), derive_tx_group tx module_group) st in
  out r = Return () →
  registry_inv conf (final r) ∧ tx_groups_inv conf (final r)
  ∧ (∀ tx group, (tx, group) ∈ l →
       _tx_module_groups (final r) !! tx_group_name tx = Some group)
  ∧ (∀ name, (∀ tx, tx ∈ l.*1 → name ≠ tx_group_name tx) →
       _tx_module_groups (final r) !! name = _tx_module_groups st !! name)
  ∧ _module_cfgs (final r) !! None = _module_cfgs st !! None.
Proof.
  revert st. induction l as [|[tx group] l IH]; intros st Hl Hnd Hinv Hgroups; cbn zeta.
  - intros _. cbn. split; [done|]. split; [done|]. split; [|done].
    intros tx group Hin. by apply elem_of_nil in Hin.
  - cbn [for_each]. cbn in Hnd. apply NoDup_cons in Hnd as [Hfresh Hnd].
    destruct (out (derive_tx_group tx group st)) as [[]|e] eqn:Hfirst.
    2:{ rewrite (bind_raise _ _ _ _ Hfirst). discriminate. }
    rewrite (bind_out_return _ _ _ _ Hfirst), (bind_final_return _ _ _ _ Hfirst).
    destruct (derive_tx_group_keeps st tx group Hinv Hgroups) as (Hinv1 & Hgroups1 & Hmap1 & Hnone1);
      [apply Hl; by left | done |].
    set (st1 := final (derive_tx_group tx group st)) in *.
    intros Hrest.
    destruct (IH st1) as (Hinv2 & Hgroups2 & Hstored & Hkept & Hnone2); try done.
    { intros tx' g' Hin. apply Hl. by right. }
    split; [done|]. split; [done|]. split; [|split].
    + intros tx' g' [[= -> ->] | Hin]%elem_of_cons; [|by apply Hstored].
      rewrite Hkept.
      * rewrite Hmap1. apply lookup_insert_eq.
      * intros tx' Hin' Heq. apply tx_group_name_inj in Heq as <-. done.
    + intros name Hname. rewrite Hkept.
      * rewrite Hmap1. rewrite lookup_insert_ne; [done|].
        intros Heq. apply (Hname tx); [by left | done].
      * intros tx' Hin'. apply Hname. by right.
    + by rewrite Hnone2.
Qed.

Lemma derive_fifo_group_keeps (st : run) fifo group :
  registry_inv conf st → tx_groups_inv conf st →
  let st' := final (derive_fifo_group fifo group st) in
  registry_inv conf st' ∧ tx_groups_inv conf st'
  ∧ _tx_module_groups st' = _tx_module_groups st
  ∧ _module_cfgs st' !! None = _module_cfgs st !! None.
Proof.
  intros Hinv Hgroups. cbn zeta. unfold derive_fifo_group.
  rewrite bind_gets, !bind_modify. cbn [final modify].
  split; [|split; [|split; [reflexivity|]]].
  - pose proof (registry_inv_insert_cfg conf st (Some ("module_group_FIFO=" +:+ fifo))
                  (fifo_group_cfg fifo (group_cfgs group st))) as Hins.
    destruct Hins as [Hcfgs Hmods]; [|done|].
    { intros module_id [= <-]. by apply not_a_module. }
    split; [exact Hcfgs | exact Hmods].
  - intros name g. cbn. intros Hname.
    destruct (Hgroups name g Hname) as (tx' & -> & Hg & cfg' & Hcfg' & Hrest).
    exists tx'. split; [done|]. split; [done|]. exists cfg'.
    rewrite lookup_insert_ne; [done|].
    intros Heq.
    assert (Heq' : tx_group_name tx' = "module_group_FIFO=" +:+ fifo) by congruence.
    by apply tx_group_name_not_fifo in Heq'.
  - cbn. by rewrite lookup_insert_ne.
Qed.

Lemma fifo_group_loop_keeps (l : list (string * list string)) (st : run) :
  registry_inv conf st → tx_groups_inv conf st →
  let r := for_each l (λ '(fifo, module_group), derive_fifo_group fifo module_group) st in
  registry_inv conf (final r) ∧ tx_groups_inv conf (final r)
  ∧ _tx_module_groups (final r) = _tx_module_groups st
  ∧ _module_cfgs (final r) !! None = _module_cfgs st !! None.
Proof.
  revert st. induction l as [|[fifo group] l IH]; intros st Hinv Hgroups; cbn zeta.
  - done.
  - cbn [for_each].
    destruct (derive_fifo_group_returns fifo group st) as [st1 Hst1].
    destruct (derive_fifo_group_keeps st fifo group Hinv Hgroups)
      as (Hinv1 & Hgroups1 & Hmap1 & Hnone1).
    unfold mbind, M_bind, bind. rewrite Hst1 in *. cbn [out final emitted] in *.
    destruct (IH st1 Hinv1 Hgroups1) as (Hinv2 & Hgroups2 & Hmap2 & Hnone2).
    split; [done|]. split; [done|]. split; [by rewrite Hmap2|by rewrite Hnone2].
Qed.

Lemma _set_default_cfg_keeps (st : run) :
  parsed conf st → _tx_module_groups st = ∅ →
  out (_set_default_cfg st) = Return () →
  let st' := final (_set_default_cfg st) in
  registry_inv conf st' ∧ tx_groups_inv conf st' ∧ tx_groups_cover conf st'
  ∧ is_Some (_module_cfgs st' !! None)
  ∧ _module_attr st' = (λ _, ∅) <$> _module_cfgs st'.
Proof.
  intros Hparsed Hempty. pose proof (parsed_registry_inv _ _ Hparsed) as Hinv.
  unfold _set_default_cfg. rewrite bind_gets.
  destruct (module_cfgs_of_returns conf (keys (_modules st)) st Hinv) as [all Hall].
  { intros name Hname. unfold keys in Hname.
    apply list_elem_of_fmap in Hname as ([name' v] & -> & Hin).
    apply elem_of_map_to_list in Hin. apply Hinv. by exists v. }
  rewrite (bind_pure _ _ _ _ Hall), bind_modify, bind_gets.
  set (st1 := set_module_cfgs _ st).
  assert (Hinv1 : registry_inv conf st1) by (by apply registry_inv_insert_cfg).
  assert (Hgroups1 : tx_groups_inv conf st1).
  { intros name g Hname. cbn in Hname. rewrite Hempty in Hname. done. }
  set (groups := map_to_list (groupby_dict (real_modules st1) TX)).
  pose proof (tx_group_loop_keeps groups st1) as Hloop. cbn zeta in Hloop.
  destruct (out (for_each groups (λ '(tx, module_group), derive_tx_group tx module_group) st1))
    as [[]|e] eqn:Htx.
  2:{ rewrite (bind_raise _ _ _ _ Htx). discriminate. }
  rewrite (bind_out_return _ _ _ _ Htx), (bind_final_return _ _ _ _ Htx), bind_gets.
  destruct Hloop as (Hinv2 & Hgroups2 & Hstored & _ & Hnone2); try done.
  { intros tx g Hin. by apply (tx_groups_are_groups conf st1). }
  { apply NoDup_fst_map_to_list. }
  set (st2 := final _) in *.
  destruct (decide (1 < size (groupby_dict (real_modules st2) FIFO))); [discriminate|].
  intros _.
  set (fifos := map_to_list (groupby_dict (real_modules st2) FIFO)).
  pose proof (fifo_group_loop_keeps fifos st2 Hinv2 Hgroups2) as Hfifo. cbn zeta in Hfifo.
  rewrite (bind_final_return _ _ _ _ (fifo_group_loop_returns _ _)).
  destruct Hfifo as (Hinv3 & Hgroups3 & Hmap3 & Hnone3).
  set (st3 := final _) in *. cbn [final modify].
  split; [|split; [|split; [|split; [|reflexivity]]]].
  - destruct Hinv3 as [Hcfgs Hmods]. split; [exact Hcfgs | exact Hmods].
  - intros name g Hname. exact (Hgroups3 name g Hname).
  - intros module_id c Hc. cbn. rewrite Hmap3.
    destruct (tx_has_group conf st1 (m_TX c) module_id c Hinv1) as [g Hg]; [done|].
    exists g. split; [by apply Hstored|].
    pose proof (tx_groups_are_groups conf st1 _ _ Hinv1 Hg) as (_ & _ & Hmem).
    apply Hmem. by exists c.
  - cbn. rewrite Hnone3, Hnone2. unfold st1. cbn. rewrite lookup_insert_eq. eauto.
Qed.

End RegistryAfter.

Lemma init_steps (conf : gmap string module_conf) (st : run) :
  _module_cfgs st = ∅ → _modules st = ∅ → _tx_module_groups st = ∅ →
  out (__init__ conf st) = Return () →
  ∃ st1,
    parsed conf st1
    ∧ _tx_module_groups st1 = ∅
    ∧ out (_set_default_cfg st1) = Return ()
    ∧ final (__init__ conf st)
      = set_initialized (Some true)
          (set_raw_data_file None
             (set_current_module_handle None
                (set_readout_event false
                   (set_running_readout_t []
                      (set_scan_threads [] (final (_set_default_cfg st1))))))).
Proof.
  intros Hcfgs Hmods Hgroups Hout. unfold __init__ in *.
  pose proof (_parse_module_cfgs_parsed conf st Hcfgs Hmods) as Hparsed.
  destruct (out (_parse_module_cfgs conf st)) as [[]|e] eqn:Hparse.
  2:{ rewrite (bind_raise _ _ _ _ Hparse) in Hout. discriminate. }
  specialize (Hparsed eq_refl).
  rewrite (bind_out_return _ _ _ _ Hparse) in Hout.
  rewrite (bind_final_return _ _ _ _ Hparse).
  exists (final (_parse_module_cfgs conf st)).
  destruct (out (_set_default_cfg (final (_parse_module_cfgs conf st)))) as [[]|e] eqn:Hset.
  2:{ rewrite (bind_raise _ _ _ _ Hset) in Hout. discriminate. }
  split; [done|]. split; [by rewrite parse_keeps_groups|]. split; [done|].
  rewrite (bind_final_return _ _ _ _ Hset). by rewrite !bind_modify.
Qed.

Lemma init_registry_inv (conf : gmap string module_conf) (st : run) :
  _module_cfgs st = ∅ → _modules st = ∅ → _tx_module_groups st = ∅ →
  out (__init__ conf st) = Return () →
  registry_inv conf (final (__init__ conf st)).
Proof.
  intros Hcfgs Hmods Hgroups Hout.
  destruct (init_steps conf st Hcfgs Hmods Hgroups Hout)
    as (st1 & Hparsed & Hgroups1 & Hset & ->).
  pose proof Hparsed as (_ & _ & Hids).
  destruct (_set_default_cfg_keeps conf Hids st1 Hparsed Hgroups1 Hset) as ([H1 H2] & _).
  split; [exact H1 | exact H2].
Qed.

(** X8: the registry that [__init__] leaves behind.  When [__init__]
    returns, every module of the configuration has its entry in
    [_module_cfgs] under its id; every command-line group lists, once each,
    exactly the modules of one command line and has a broadcast configuration
    (chip address None) for that command line in the flavor of its members;
    every module is a member of the group of its own command line, so of
    exactly one group; the entry for None (all drivers) exists; and
    [_module_attr] holds an empty dict under every key of [_module_cfgs]. *)
Theorem init_builds_the_registry (conf : gmap string module_conf) (st : run) :
  _module_cfgs st = ∅ → _modules st = ∅ → _tx_module_groups st = ∅ →
  out (__init__ conf st) = Return () →
  let st' := final (__init__ conf st) in
  registry_inv conf st'
  ∧ tx_groups_inv conf st'
  ∧ tx_groups_cover conf st'
  ∧ is_Some (_module_cfgs st' !! None)
  ∧ _module_attr st' = (λ _, ∅) <$> _module_cfgs st'.
Proof.
  intros Hcfgs Hmods Hgroups Hout. cbn zeta.
  destruct (init_steps conf st Hcfgs Hmods Hgroups Hout)
    as (st1 & Hparsed & Hgroups1 & Hset & ->).
  pose proof Hparsed as (_ & _ & Hids).
  destruct (_set_default_cfg_keeps conf Hids st1 Hparsed Hgroups1 Hset)
    as (Hinv & Hg & Hcover & Hnone & Hattr).
  set (st2 := final (_set_default_cfg st1)) in *.
  split; [|split; [|split; [|split]]].
  - destruct Hinv as [H1 H2]. split; [exact H1 | exact H2].
  - intros name g Hname. exact (Hg name g Hname).
  - intros module_id c Hc. exact (Hcover module_id c Hc).
  - exact Hnone.
  - exact Hattr.
Qed.

Lemma init_builds_the_registry_witness :
  let st' := final (__init__ Samples.two_modules (new_run false false false "MainThread")) in
  registry_inv Samples.two_modules st'
  ∧ tx_groups_inv Samples.two_modules st'
  ∧ tx_groups_cover Samples.two_modules st'
  ∧ is_Some (_module_cfgs st' !! None)
  ∧ _module_attr st' = (λ _, ∅) <$> _module_cfgs st'.
Proof.
  apply (init_builds_the_registry Samples.two_modules
           (new_run false false false "MainThread")); vm_compute; reflexivity.
Defined.

(** ** Selecting a module *)

(** The run object of a sample configuration once [__init__] and
    [init_modules] are through holds the modules of the configuration. *)
Lemma ready_registry_inv (reset_rx broadcast threaded : bool)
    (conf : gmap string module_conf) :
  out (__init__ conf (new_run reset_rx broadcast threaded "MainThread")) = Return () →
  registry_inv conf (Samples.ready reset_rx broadcast threaded conf).
Proof.
  intros Hout.
  destruct (init_registry_inv conf (new_run reset_rx broadcast threaded "MainThread")
              eq_refl eq_refl eq_refl Hout) as [Hcfgs Hmods].
  split; [exact Hcfgs | exact Hmods].
Qed.

Lemma bind_eq {A B} (m : M A) (k : A → M B) (st : run) :
  (m ≫= k) st
  = match out (m st) with
    | Return a =>
        mk_result (emitted (m st) ++ emitted (k a (final (m st))))
          (final (k a (final (m st)))) (out (k a (final (m st))))
    | Raise e => mk_result (emitted (m st)) (final (m st)) (Raise e)
    end.
Proof. reflexivity. Qed.

Lemma access_module_eq (module_id : handle) (body : M unit) (st : run) :
  access_module module_id body st
  = mk_result
      (emitted ((select_module module_id ≫= λ _, body ≫= λ _, deselect_module) st) ++ [])
      (set_current_module_handle None
         (final ((select_module module_id ≫= λ _, body ≫= λ _, deselect_module) st)))
      (out ((select_module module_id ≫= λ _, body ≫= λ _, deselect_module) st)).
Proof. reflexivity. Qed.

(** X9: a module id that is not a key of [_module_cfgs] is refused before
    anything is touched: [access_module] raises the ValueError of
    [select_module], the body is not entered, no driver is written, and the
    run object is as before but for the module pointer, which the finally
    clause sets to None. *)
Theorem access_module_unknown_id (module_id : handle) (body : M unit) (st : run) :
  _module_cfgs st !! module_id = None →
  access_module module_id body st
  = mk_result [] (set_current_module_handle None st)
      (Raise (new_exc ValueError "Module ID is not valid" "select_module")).
Proof.
  intros Hid. unfold access_module, try_finally.
  assert (Hsel : select_module module_id st
                 = mk_result [] st
                     (Raise (new_exc ValueError "Module ID is not valid" "select_module"))).
  { unfold select_module. by rewrite bind_gets, Hid. }
  unfold mbind, M_bind, bind. rewrite Hsel. reflexivity.
Qed.

Lemma access_module_unknown_id_witness :
  access_module (Some "module_7") (emit ev_reset_rx)
    (Samples.ready false false false Samples.two_modules)
  = mk_result []
      (set_current_module_handle None (Samples.ready false false false Samples.two_modules))
      (Raise (new_exc ValueError "Module ID is not valid" "select_module")).
Proof.
  apply (access_module_unknown_id (Some "module_7")). vm_compute. reflexivity.
Defined.

Lemma current_module_handle_set (st : run) (h : string) :
  _current_module_handle st = Some h →
  current_module_handle st = mk_result [] st (Return (Some h)).
Proof. intros Hptr. unfold current_module_handle. by rewrite bind_gets, Hptr. Qed.

Lemma dut_TX_output_enable_module (st : run) (h : string) (c : module_conf) (mask : N) :
  _current_module_handle st = Some h →
  _module_cfgs st !! Some h = Some (of_conf c) →
  dut_TX_output_enable mask st
  = mk_result [ev_output_enable (m_TX c) mask] st (Return ()).
Proof.
  intros Hptr Hcfg. unfold dut_TX_output_enable.
  rewrite (bind_pure _ _ _ _ (current_module_handle_set st h Hptr)).
  rewrite (bind_pure _ _ _ _ (get_module_cfg_some st _ _ Hcfg)).
  reflexivity.
Qed.

Lemma select_module_configured (conf : gmap string module_conf) (st : run)
    (module_id : string) (c : module_conf) :
  registry_inv conf st → conf !! module_id = Some c →
  select_module (Some module_id) st
  = mk_result [ev_output_enable (m_TX c) (N.shiftl 1 (N.of_nat (m_tx_channel c)))]
      (set_current_module_handle (Some module_id) st) (Return ()).
Proof.
  intros [Hcfgs Hmods] Hc. unfold select_module.
  rewrite bind_gets, (Hcfgs _ _ Hc), bind_modify, !bind_gets.
  rewrite decide_True by (apply Hmods; by exists c).
  rewrite (dut_TX_output_enable_module _ module_id c); [|reflexivity|by apply Hcfgs].
  cbn. by rewrite N.lor_0_r.
Qed.

(** X10: [access_module] brackets its body with the command channel of the
    module.  For a module of the configuration, the only driver written on
    entry is the TX of the module, with the one bit of its [tx_channel] set.
    If the body returns (with the module still selected), the same TX is
    written 0 afterwards and the call returns.  If the body raises, the
    exception passes through and the output enable is not written again:
    the command channel stays enabled. *)
Theorem access_module_brackets_body (conf : gmap string module_conf) (st : run)
    (module_id : string) (c : module_conf) (body : M unit) :
  registry_inv conf st → conf !! module_id = Some c →
  let st1 := set_current_module_handle (Some module_id) st in
  let enable := ev_output_enable (m_TX c) (N.shiftl 1 (N.of_nat (m_tx_channel c))) in
  let r := access_module (Some module_id) body st in
  match out (body st1) with
  | Raise e => out r = Raise e ∧ emitted r = enable :: emitted (body st1)
  | Return _ =>
      _current_module_handle (final (body st1)) = Some module_id →
      _module_cfgs (final (body st1)) !! Some module_id = Some (of_conf c) →
      out r = Return ()
      ∧ emitted r = enable :: emitted (body st1) ++ [ev_output_enable (m_TX c) 0]
  end.
Proof.
  intros Hinv Hc. cbn zeta. unfold access_module, try_finally.
  rewrite bind_eq, (select_module_configured conf st module_id c Hinv Hc).
  cbn [out final emitted].
  set (st1 := set_current_module_handle (Some module_id) st).
  rewrite bind_eq.
  destruct (out (body st1)) as [[]|e] eqn:Hbody; cbn [out final emitted modify].
  - intros Hptr Hcfg. unfold deselect_module.
    rewrite bind_eq, (dut_TX_output_enable_module _ module_id c 0 Hptr Hcfg).
    cbn [out final emitted modify]. split; [reflexivity|].
    by rewrite !app_nil_r.
  - split; [reflexivity|]. by rewrite app_nil_r.
Qed.

Lemma access_module_brackets_body_witness :
  let st := Samples.ready false false false Samples.two_modules in
  let r := access_module (Some "module_1") (emit ev_reset_rx) st in
  out r = Return ()
  ∧ emitted r = [ev_output_enable "CMD_CH0" 2; ev_reset_rx; ev_output_enable "CMD_CH0" 0].
Proof.
  pose proof (access_module_brackets_body Samples.two_modules
                (Samples.ready false false false Samples.two_modules) "module_1"
                (Samples.sample_module "fei4b" (Some 1) "SRAM" "CMD_CH0" "DATA_CH1" 1)
                (emit ev_reset_rx)) as Hbracket.
  apply Hbracket.
  - apply ready_registry_inv. vm_compute. reflexivity.
  - vm_compute. reflexivity.
  - vm_compute. reflexivity.
  - vm_compute. reflexivity.
Defined.

(** ** Faults, one after the other *)



(** ** Starting and stopping the readout *)

Import Readout.

Lemma len_set_and_full (running : list handle) (alive : list string) :
  (∀ name, name ∈ alive → Some name ∈ running) →
  len_set_and running (Some <$> alive) = length (remove_dups alive).
Proof.
  intros Hall. unfold len_set_and.
  rewrite <- (length_fmap Some (remove_dups alive)).
  apply Permutation_length, NoDup_Permutation.
  - apply NoDup_remove_dups.
  - apply (NoDup_fmap_2 Some), NoDup_remove_dups.
  - intros x. rewrite elem_of_remove_dups, list_elem_of_intersection, !list_elem_of_fmap.
    split.
    + intros [_ (name & -> & Hname)]. exists name. split; [done|].
      by apply elem_of_remove_dups.
    + intros (name & -> & Hname). apply (proj1 (elem_of_remove_dups _ _)) in Hname.
      split; [by apply Hall|]. exists name. split; [reflexivity|exact Hname].
Qed.

Lemma len_set_and_missing (running : list handle) (alive : list string) (name : string) :
  name ∈ alive → Some name ∉ running →
  len_set_and running (Some <$> alive) ≠ length (remove_dups alive).
Proof.
  intros Hname Hnot Hlen. unfold len_set_and in Hlen.
  rewrite <- (length_fmap Some (remove_dups alive)) in Hlen.
  assert (Hsub : remove_dups (list_intersection running (Some <$> alive))
                 ⊆+ Some <$> remove_dups alive).
  { apply NoDup_submseteq; [apply NoDup_remove_dups|].
    intros x. rewrite elem_of_remove_dups, list_elem_of_intersection, !list_elem_of_fmap.
    intros [_ (n & -> & Hn)]. exists n. split; [done|]. by apply elem_of_remove_dups. }
  pose proof (submseteq_length_Permutation _ _ Hsub) as Hperm.
  assert (Hin : Some name ∈ remove_dups (list_intersection running (Some <$> alive))).
  { rewrite Hperm by lia. apply list_elem_of_fmap_2. by apply elem_of_remove_dups. }
  apply elem_of_remove_dups, list_elem_of_intersection in Hin as [Hin _]. done.
Qed.

Lemma register_reader_threaded (st : run) :
  _scan_threads st ≠ [] →
  current_thread st ∈ thread_names (_scan_threads st) →
  Some (current_thread st) ∉ _running_readout_t st →
  register_reader st
  = mk_result []
      (set_readout_event false
         (set_running_readout_t (_running_readout_t st ++ [Some (current_thread st)]) st))
      (Return ()).
Proof.
  intros Hts Hthr Hnew. unfold register_reader. rewrite !bind_gets.
  rewrite (bool_decide_eq_false_2 _ Hts), (bool_decide_eq_true_2 _ Hthr),
    (bool_decide_eq_false_2 _ Hnew).
  cbn [negb andb]. rewrite bind_modify. reflexivity.
Qed.

Lemma current_module_handle_out_pure (st : run) (h : handle) :
  out (current_module_handle st) = Return h →
  current_module_handle st = mk_result [] st (Return h).
Proof. intros Hh. rewrite current_module_handle_pure. by rewrite Hh. Qed.

Lemma bind_pure_out {A B} (m : M A) (k : A → M B) (st : run) :
  m st = mk_result [] st (out (m st)) →
  (m ≫= k) st
  = match out (m st) with
    | Return a => k a st
    | Raise e => mk_result [] st (Raise e)
    end.
Proof.
  intros Hm. rewrite bind_eq. rewrite Hm. cbn [out final emitted].
  destruct (out (m st)); [apply result_eta | reflexivity].
Qed.

Lemma get_module_cfg_pure (h : handle) (st : run) :
  get_module_cfg h st = mk_result [] st (out (get_module_cfg h st)).
Proof.
  unfold get_module_cfg. rewrite bind_gets. by destruct (_module_cfgs st !! h).
Qed.

Lemma enabled_fe_channels_pure (st : run) :
  enabled_fe_channels st = mk_result [] st (out (enabled_fe_channels st)).
Proof.
  unfold enabled_fe_channels.
  rewrite (bind_pure_out _ _ _ (current_module_handle_pure st)).
  destruct (out (current_module_handle st)) as [h|e]; [|reflexivity].
  rewrite !bind_gets. destruct h as [name|].
  - destruct (decide (is_Some (_modules st !! name))).
    { rewrite (bind_pure_out _ _ _ (get_module_cfg_pure _ st)).
      by destruct (out (get_module_cfg (Some name) st)). }
    destruct (decide (is_Some (_tx_module_groups st !! name))); [|reflexivity].
    rewrite (bind_pure_out _ _ _ (get_module_cfg_pure _ st)).
    by destruct (out (get_module_cfg (Some name) st)).
  - by destruct (forallb _ _).
Qed.

Lemma wait_start_waits (st : run) (fuel : nat) :
  poll_start st = mk_result [] st (Return false) →
  wait_start fuel st = mk_result [] st (Return false).
Proof.
  intros Hpoll. induction fuel as [|fuel IH]; [reflexivity|].
  cbn [wait_start]. by rewrite (bind_pure _ _ _ _ Hpoll).
Qed.

(** X12: the start of a threaded readout is a barrier.  A scan thread that
    calls [start_readout] for the first time is added to the list of active
    readers.  As long as some other alive scan thread has not registered, the
    caller keeps waiting, whatever the number of turns, and the FIFO readout
    is not started.  The thread whose registration completes the list starts
    the FIFO readout on its first turn, with the channels of its own module,
    signals the event and returns. *)
Theorem start_readout_is_a_barrier (st : run) (fuel : nat) :
  _scan_threads st ≠ [] →
  current_thread st ∈ thread_names (_scan_threads st) →
  Some (current_thread st) ∉ _running_readout_t st →
  abort_run st = false →
  let registered :=
    set_readout_event false
      (set_running_readout_t (_running_readout_t st ++ [Some (current_thread st)]) st) in
  ((∃ name, name ∈ alive_names (_scan_threads st)
            ∧ Some name ∉ _running_readout_t registered) →
   start_readout fuel st = mk_result [] registered (Return false))
  ∧ ((∀ name, name ∈ alive_names (_scan_threads st) →
              Some name ∈ _running_readout_t registered) →
     fifo_is_running st = false →
     ∀ chs, out (enabled_fe_channels registered) = Return chs →
       start_readout (S fuel) st
       = mk_result [ev_fifo_start chs]
           (set_readout_event true (set_fifo_is_running true registered))
           (Return true)).
Proof.
  intros Hts Hthr Hnew Habort. cbn zeta.
  pose proof (register_reader_threaded st Hts Hthr Hnew) as Hreg.
  set (registered := set_readout_event false _) in *.
  assert (Hev : _readout_event registered = false) by reflexivity.
  assert (Hab : abort_run registered = false) by exact Habort.
  assert (Hts' : _scan_threads registered = _scan_threads st) by reflexivity.
  assert (Hfifo' : fifo_is_running registered = fifo_is_running st) by reflexivity.
  clearbody registered.
  split.
  - intros (name & Halive & Hmissing). unfold start_readout.
    rewrite bind_eq, Hreg. cbn [out final emitted].
    rewrite wait_start_waits; [reflexivity|].
    unfold poll_start. rewrite bind_gets, Hev, bind_gets, Hab, !bind_gets, Hts'.
    rewrite (bool_decide_eq_false_2 _ (len_set_and_missing _ _ name Halive Hmissing)).
    rewrite (bool_decide_eq_false_2 _ Hts). reflexivity.
  - intros Hall Hfifo chs Hchs. unfold start_readout.
    rewrite bind_eq, Hreg. cbn [out final emitted wait_start].
    assert (Hpoll : poll_start registered
                    = mk_result [ev_fifo_start chs]
                        (set_readout_event true (set_fifo_is_running true registered))
                        (Return true)).
    { unfold poll_start. rewrite bind_gets, Hev, bind_gets, Hab, !bind_gets, Hts'.
      rewrite (bool_decide_eq_true_2 _ (len_set_and_full _ _ Hall)). cbn [orb].
      rewrite bind_gets, Hfifo', Hfifo. cbn [negb].
      rewrite bind_eq.
      rewrite (bind_pure_out _ _ _ (enabled_fe_channels_pure registered)), Hchs.
      reflexivity. }
    rewrite bind_eq, Hpoll. reflexivity.
Qed.

Lemma start_readout_is_a_barrier_witness :
  start_readout 5 ReadoutSamples.two_threads
  = mk_result []
      (set_readout_event false
         (set_running_readout_t [Some "module_0"] ReadoutSamples.two_threads))
      (Return false)
  ∧ start_readout 1 ReadoutSamples.second_thread_waiting
    = mk_result [ev_fifo_start ["DATA_CH0"]]
        (set_readout_event true
           (set_fifo_is_running true
              (set_readout_event false
                 (set_running_readout_t [Some "module_1"; Some "module_0"]
                    ReadoutSamples.second_thread_waiting))))
        (Return true).
Proof.
  split.
  - apply (proj1 (start_readout_is_a_barrier ReadoutSamples.two_threads 5
                    ltac:(discriminate)
                    ltac:(apply (bool_decide_unpack _); vm_compute; exact I)
                    ltac:(apply (bool_decide_unpack _); vm_compute; exact I)
                    eq_refl)).
    exists "module_1". split; apply (bool_decide_unpack _); vm_compute; exact I.
  - apply (proj2 (start_readout_is_a_barrier ReadoutSamples.second_thread_waiting 0
                    ltac:(discriminate)
                    ltac:(apply (bool_decide_unpack _); vm_compute; exact I)
                    ltac:(apply (bool_decide_unpack _); vm_compute; exact I)
                    eq_refl)).
    + apply (proj1 (Forall_forall
                      (λ name, Some name ∈ [Some "module_1"; Some "module_0"])
                      ["module_0"; "module_1"])).
      apply (bool_decide_unpack _). vm_compute. exact I.
    + reflexivity.
    + vm_compute. reflexivity.
Defined.

Lemma list_remove_None (h : handle) (l : list handle) :
  list_remove h l = None ↔ h ∉ l.
Proof.
  induction l as [|y l IH]; cbn [list_remove].
  - split; [intros _; apply not_elem_of_nil | done].
  - rewrite not_elem_of_cons. destruct (decide (h = y)) as [->|Hne].
    + split; [done | by intros [? _]].
    + rewrite fmap_None, IH. split; [done | by intros [_ ?]].
Qed.

Lemma list_remove_app_new (h : handle) (l : list handle) :
  h ∉ l → list_remove h (l ++ [h]) = Some l.
Proof.
  induction l as [|y l IH]; cbn [list_remove app]; intros Hnot.
  - by rewrite decide_True.
  - apply not_elem_of_cons in Hnot as [Hne Hnot].
    rewrite decide_False by done. by rewrite IH.
Qed.

Lemma list_remove_Some_elem (h x : handle) (l l' : list handle) :
  list_remove h l = Some l' → x ∈ l' → x ∈ l.
Proof.
  revert l'. induction l as [|y l IH]; cbn [list_remove]; intros l'; [done|].
  destruct (decide (h = y)) as [->|Hne].
  - intros [= ->] Hx. by right.
  - destruct (list_remove h l) as [l''|]; [|done]. intros [= <-] [->|Hx]%elem_of_cons.
    + by left.
    + right. by apply (IH l'').
Qed.

Lemma len_set_and_0 (running : list handle) (alive : list string) :
  len_set_and running (Some <$> alive) = 0
  ↔ ∀ name, name ∈ alive → Some name ∉ running.
Proof.
  unfold len_set_and. rewrite length_zero_iff_nil. split.
  - intros Hnil name Hname Hin.
    assert (Hx : Some name ∈ remove_dups (list_intersection running (Some <$> alive))).
    { apply elem_of_remove_dups, list_elem_of_intersection.
      split; [done | by apply list_elem_of_fmap_2]. }
    rewrite Hnil in Hx. by apply elem_of_nil in Hx.
  - intros Hnone. apply elem_of_nil_inv. intros x Hx.
    apply elem_of_remove_dups, list_elem_of_intersection in Hx as [Hrun Hx].
    apply list_elem_of_fmap in Hx as (name & -> & Hname). by apply (Hnone name).
Qed.

Lemma remove_reader_missing (h : handle) (st : run) :
  h ∉ _running_readout_t st →
  remove_reader h st = mk_result [] st (Raise not_in_list).
Proof.
  intros Hnot. unfold remove_reader.
  by rewrite bind_gets, (proj2 (list_remove_None _ _) Hnot).
Qed.

Lemma wait_stop_waits (st : run) (fuel : nat) :
  poll_stop st = mk_result [] st (Return false) →
  wait_stop fuel st = mk_result [] st (Return false).
Proof.
  intros Hpoll. induction fuel as [|fuel IH]; [reflexivity|].
  cbn [wait_stop]. by rewrite (bind_pure _ _ _ _ Hpoll).
Qed.

Lemma poll_start_starts (st : run) (chs : list string) :
  _readout_event st = false → abort_run st = false →
  (len_set_and (_running_readout_t st) (Some <$> alive_names (_scan_threads st))
   = length (remove_dups (alive_names (_scan_threads st)))
   ∨ _scan_threads st = []) →
  fifo_is_running st = false →
  out (enabled_fe_channels st) = Return chs →
  poll_start st
  = mk_result [ev_fifo_start chs]
      (set_readout_event true (set_fifo_is_running true st)) (Return true).
Proof.
  intros Hev Hab Hcond Hfifo Hchs. unfold poll_start.
  rewrite bind_gets, Hev, bind_gets, Hab, !bind_gets.
  assert (Hc : bool_decide
                 (len_set_and (_running_readout_t st)
                    (Some <$> alive_names (_scan_threads st))
                  = length (remove_dups (alive_names (_scan_threads st))))
               || bool_decide (_scan_threads st = []) = true).
  { destruct Hcond as [Hc|Hc]; rewrite (bool_decide_eq_true_2 _ Hc);
      [reflexivity | apply orb_true_r]. }
  rewrite Hc, bind_gets, Hfifo. cbn [negb]. rewrite bind_eq.
  rewrite (bind_pure_out _ _ _ (enabled_fe_channels_pure st)), Hchs.
  reflexivity.
Qed.

Lemma poll_stop_stops (st : run) :
  _readout_event st = false → abort_run st = false →
  (len_set_and (_running_readout_t st) (Some <$> alive_names (_scan_threads st)) = 0
   ∨ _scan_threads st = []) →
  fifo_is_running st = true →
  poll_stop st
  = mk_result [] (set_readout_event true (set_fifo_is_running false st)) (Return true).
Proof.
  intros Hev Hab Hcond Hfifo. unfold poll_stop.
  rewrite bind_gets, Hev, bind_gets, Hab, !bind_gets.
  assert (Hc : bool_decide
                 (len_set_and (_running_readout_t st)
                    (Some <$> alive_names (_scan_threads st)) = 0)
               || bool_decide (_scan_threads st = []) = true).
  { destruct Hcond as [Hc|Hc]; rewrite (bool_decide_eq_true_2 _ Hc);
      [reflexivity | apply orb_true_r]. }
  rewrite Hc, bind_gets, Hfifo. reflexivity.
Qed.

Lemma enabled_fe_channels_untouched (st st' : run) :
  untouched st st' → _modules st' = _modules st →
  _tx_module_groups st' = _tx_module_groups st →
  out (enabled_fe_channels st') = out (enabled_fe_channels st).
Proof.
  intros Hun Hmods Hgroups. unfold enabled_fe_channels.
  rewrite !(bind_pure_out _ _ _ (current_module_handle_pure _)).
  rewrite (current_module_handle_untouched st st' Hun).
  destruct (out (current_module_handle st)) as [h|e]; [|reflexivity].
  rewrite !bind_gets, Hmods, Hgroups.
  destruct Hun as (_ & _ & _ & Hcfgs & _). rewrite Hcfgs.
  destruct h as [name|]; [|by destruct (forallb _ _)].
  assert (Hcfg : out (get_module_cfg (Some name) st') = out (get_module_cfg (Some name) st)).
  { unfold get_module_cfg. rewrite !bind_gets, Hcfgs.
    by destruct (_module_cfgs st !! Some name). }
  destruct (decide (is_Some (_modules st !! name))).
  { rewrite !(bind_pure_out _ _ _ (get_module_cfg_pure _ _)), Hcfg.
    by destruct (out (get_module_cfg (Some name) st)). }
  destruct (decide (is_Some (_tx_module_groups st !! name))); [|reflexivity].
  rewrite !(bind_pure_out _ _ _ (get_module_cfg_pure _ _)), Hcfg.
  by destruct (out (get_module_cfg (Some name) st)).
Qed.

(** X13: [stop_readout] by a caller that has not started the readout fails
    and changes nothing, but differently in the two modes.  With scan threads
    the guard of line 1120 raises a RuntimeError.  Without scan threads there
    is no guard: the handle is not in the list of active readers and
    [list.remove] raises a ValueError. *)
Theorem stop_readout_without_start (st : run) (fuel : nat) :
  (_scan_threads st ≠ [] →
   current_thread st ∈ thread_names (_scan_threads st) →
   Some (current_thread st) ∉ _running_readout_t st →
   stop_readout fuel st
   = mk_result [] st
       (Raise (new_exc RuntimeError "Thread is not reading FIFO." "stop_readout")))
  ∧ (_scan_threads st = [] →
     ∀ h, out (current_module_handle st) = Return h →
          h ∉ _running_readout_t st →
          stop_readout fuel st = mk_result [] st (Raise not_in_list)).
Proof.
  split.
  - intros Hts Hthr Hnot. unfold stop_readout, unregister_reader.
    rewrite bind_eq, !bind_gets.
    rewrite (bool_decide_eq_false_2 _ Hts), (bool_decide_eq_true_2 _ Hthr),
      (bool_decide_eq_false_2 _ Hnot).
    reflexivity.
  - intros Hts h Hh Hnot. unfold stop_readout, unregister_reader.
    rewrite bind_eq, !bind_gets. rewrite Hts.
    rewrite (bool_decide_eq_true_2 ([] = []) eq_refl). cbn [negb andb].
    rewrite (bind_current_module_handle _ _ _ Hh).
    rewrite bind_eq, (remove_reader_missing h st Hnot). reflexivity.
Qed.

Lemma stop_readout_without_start_witness :
  stop_readout 1 ReadoutSamples.two_threads
  = mk_result [] ReadoutSamples.two_threads
      (Raise (new_exc RuntimeError "Thread is not reading FIFO." "stop_readout"))
  ∧ stop_readout 1 ReadoutSamples.sequential_scan
    = mk_result [] ReadoutSamples.sequential_scan (Raise not_in_list).
Proof.
  split.
  - apply (proj1 (stop_readout_without_start ReadoutSamples.two_threads 1)).
    + discriminate.
    + apply (bool_decide_unpack _). vm_compute. exact I.
    + apply (bool_decide_unpack _). vm_compute. exact I.
  - apply (proj2 (stop_readout_without_start ReadoutSamples.sequential_scan 1)
             eq_refl (Some "module_0")).
    + vm_compute. reflexivity.
    + apply (bool_decide_unpack _). vm_compute. exact I.
Defined.

(** X14: start and stop of a sequential readout undo one another.  Without
    scan threads, for a handle that is not yet an active reader, with the FIFO
    readout idle and no abort: [start_readout] starts the FIFO readout on its
    first turn with the channels of the handle; [stop_readout] right after it
    stops the FIFO readout on its first turn; the list of active readers is
    then what it was before the start. *)
Theorem start_then_stop_sequential (st : run) (h : handle) (chs : list string) :
  _scan_threads st = [] →
  out (current_module_handle st) = Return h →
  h ∉ _running_readout_t st →
  abort_run st = false →
  fifo_is_running st = false →
  out (enabled_fe_channels st) = Return chs →
  let r1 := start_readout 1 st in
  let r2 := stop_readout 1 (final r1) in
  out r1 = Return true
  ∧ emitted r1 = [ev_fifo_start chs]
  ∧ fifo_is_running (final r1) = true
  ∧ _running_readout_t (final r1) = _running_readout_t st ++ [h]
  ∧ out r2 = Return true
  ∧ emitted r2 = []
  ∧ fifo_is_running (final r2) = false
  ∧ _running_readout_t (final r2) = _running_readout_t st.
Proof.
  intros Hts Hh Hnew Habort Hfifo Hchs. cbn zeta.
  set (registered := set_readout_event false
                       (set_running_readout_t (_running_readout_t st ++ [h]) st)).
  assert (Hchs' : out (enabled_fe_channels registered) = Return chs).
  { rewrite <- Hchs. apply enabled_fe_channels_untouched; by repeat split. }
  assert (Hstart : start_readout 1 st
                   = mk_result [ev_fifo_start chs]
                       (set_readout_event true (set_fifo_is_running true registered))
                       (Return true)).
  { unfold start_readout. rewrite bind_eq, (register_reader_sequential st h Hts Hh).
    cbn [out final emitted wait_start]. fold registered.
    rewrite bind_eq, (poll_start_starts registered chs); try done.
    by right. }
  rewrite Hstart. cbn [out final emitted].
  set (started := set_readout_event true (set_fifo_is_running true registered)).
  set (removed := set_readout_event false
                    (set_running_readout_t (_running_readout_t st) started)).
  assert (Hstop : stop_readout 1 started
                  = mk_result []
                      (set_readout_event true (set_fifo_is_running false removed))
                      (Return true)).
  { unfold stop_readout, unregister_reader. rewrite bind_eq, !bind_gets.
    change (_scan_threads started) with (_scan_threads st). rewrite Hts.
    rewrite (bool_decide_eq_true_2 ([] = []) eq_refl). cbn [negb andb].
    assert (Hh' : out (current_module_handle started) = Return h).
    { rewrite <- Hh. apply current_module_handle_untouched. by repeat split. }
    rewrite (bind_current_module_handle _ _ _ Hh').
    unfold remove_reader. rewrite bind_eq, bind_gets.
    change (_running_readout_t started) with (_running_readout_t st ++ [h]).
    rewrite (list_remove_app_new h _ Hnew). cbn [out final emitted modify].
    fold removed. cbn [wait_stop].
    rewrite bind_eq, (poll_stop_stops removed); try done.
    by right. }
  rewrite Hstop. cbn [out final emitted]. repeat split.
Qed.

Lemma start_then_stop_sequential_witness :
  let r1 := start_readout 1 ReadoutSamples.sequential_scan in
  let r2 := stop_readout 1 (final r1) in
  out r1 = Return true
  ∧ emitted r1 = [ev_fifo_start ["DATA_CH0"]]
  ∧ fifo_is_running (final r1) = true
  ∧ _running_readout_t (final r1)
    = _running_readout_t ReadoutSamples.sequential_scan ++ [Some "module_0"]
  ∧ out r2 = Return true
  ∧ emitted r2 = []
  ∧ fifo_is_running (final r2) = false
  ∧ _running_readout_t (final r2) = _running_readout_t ReadoutSamples.sequential_scan.
Proof.
  apply (start_then_stop_sequential ReadoutSamples.sequential_scan (Some "module_0")
           ["DATA_CH0"]).
  - reflexivity.
  - vm_compute. reflexivity.
  - apply (bool_decide_unpack _). vm_compute. exact I.
  - reflexivity.
  - reflexivity.
  - vm_compute. reflexivity.
Defined.

Lemma list_remove_Some_in (h : handle) (l l' : list handle) :
  list_remove h l = Some l' → h ∈ l.
Proof.
  intros Hrem. destruct (decide (h ∈ l)) as [|Hnot]; [done|].
  apply list_remove_None in Hnot. by rewrite Hnot in Hrem.
Qed.

(** X15: the last reader out stops a threaded readout.  A scan thread that
    is an active reader and calls [stop_readout] is taken off the list (its
    first entry).  As long as some alive scan thread is still on the list the
    caller keeps waiting, whatever the number of turns, and the FIFO readout
    goes on.  If no alive scan thread is left on the list, the caller stops
    the FIFO readout on its first turn, signals the event and returns. *)
Theorem stop_readout_last_out (st : run) (fuel : nat) (running' : list handle) :
  _scan_threads st ≠ [] →
  current_thread st ∈ thread_names (_scan_threads st) →
  list_remove (Some (current_thread st)) (_running_readout_t st) = Some running' →
  abort_run st = false →
  let removed := set_readout_event false (set_running_readout_t running' st) in
  ((∃ name, name ∈ alive_names (_scan_threads st) ∧ Some name ∈ running') →
   stop_readout fuel st = mk_result [] removed (Return false))
  ∧ ((∀ name, name ∈ alive_names (_scan_threads st) → Some name ∉ running') →
     fifo_is_running st = true →
     stop_readout (S fuel) st
     = mk_result [] (set_readout_event true (set_fifo_is_running false removed))
         (Return true)).
Proof.
  intros Hts Hthr Hrem Habort. cbn zeta.
  pose proof (list_remove_Some_in _ _ _ Hrem) as Hin.
  set (removed := set_readout_event false (set_running_readout_t running' st)).
  assert (Hunreg : unregister_reader st = mk_result [] removed (Return ())).
  { unfold unregister_reader. rewrite !bind_gets.
    rewrite (bool_decide_eq_false_2 _ Hts), (bool_decide_eq_true_2 _ Hthr),
      (bool_decide_eq_true_2 _ Hin).
    cbn [negb andb]. unfold remove_reader. rewrite bind_eq, bind_gets, Hrem.
    reflexivity. }
  split.
  - intros (name & Halive & Hstill). unfold stop_readout.
    rewrite bind_eq, Hunreg. cbn [out final emitted].
    rewrite wait_stop_waits; [reflexivity|].
    unfold poll_stop. rewrite bind_gets.
    change (_readout_event removed) with false. cbn iota.
    rewrite bind_gets. change (abort_run removed) with (abort_run st). rewrite Habort.
    rewrite !bind_gets.
    change (_scan_threads removed) with (_scan_threads st).
    change (_running_readout_t removed) with running'.
    rewrite (bool_decide_eq_false_2 _ Hts).
    rewrite bool_decide_eq_false_2; [reflexivity|].
    intros Hzero. by apply (proj1 (len_set_and_0 _ _) Hzero name).
  - intros Hnone Hfifo. unfold stop_readout.
    rewrite bind_eq, Hunreg. cbn [out final emitted wait_stop].
    rewrite bind_eq, (poll_stop_stops removed); try done.
    left. by apply len_set_and_0.
Qed.

Lemma stop_readout_last_out_witness :
  stop_readout 1
    ReadoutSamples.last_reader
  = mk_result []
      (set_readout_event true
         (set_fifo_is_running false
            (set_readout_event false
               (set_running_readout_t [] ReadoutSamples.last_reader))))
      (Return true).
Proof.
  apply (proj2 (stop_readout_last_out ReadoutSamples.last_reader 0 []
                  ltac:(discriminate)
                  ltac:(apply (bool_decide_unpack _); vm_compute; exact I)
                  eq_refl eq_refl)).
  - intros name _. apply not_elem_of_nil.
  - reflexivity.
Defined.

(** X16: how [readout] leaves the FIFO readout.  Whenever the abort flag is
    set when the context is left, the FIFO readout is idle afterwards.  If
    the body raises, [stop_readout] is skipped and the exception passes
    through with the caller still on the list of active readers; if the abort
    flag is not set then, nothing at all is undone: the run object, with the
    FIFO readout running, is as the body left it. *)
Theorem readout_exit (fuel : nat) (body : M unit) (st : run) :
  out (start_readout fuel st) = Return true →
  let st1 := final (start_readout fuel st) in
  let r := readout fuel body st in
  (abort_run (final r) = true → fifo_is_running (final r) = false)
  ∧ ∀ e, out (body st1) = Raise e →
      out r = Raise e
      ∧ _running_readout_t (final r) = _running_readout_t (final (body st1))
      ∧ (abort_run (final (body st1)) = false → final r = final (body st1)).
Proof.
  intros Hstart. cbn zeta. unfold readout. rewrite bind_eq, Hstart.
  cbn [out final emitted]. unfold try_finally. cbn [out final emitted].
  set (st1 := final (start_readout fuel st)).
  set (st2 := final ((body ≫= λ _, stop_readout fuel) st1)).
  assert (Hfin : ∀ st', stop_if_aborted st'
                 = mk_result []
                     (if abort_run st' && fifo_is_running st'
                      then set_fifo_is_running false st' else st')
                     (Return ())).
  { intros st'. unfold stop_if_aborted, fifo_stop. rewrite bind_gets.
    destruct (abort_run st'); [|reflexivity]. rewrite bind_gets.
    by destruct (fifo_is_running st'). }
  rewrite !Hfin. cbn [out final emitted]. split.
  - destruct (abort_run st2) eqn:Hab; cbn [andb].
    + by destruct (fifo_is_running st2) eqn:Hf.
    + by rewrite Hab.
  - intros e Hbody.
    assert (Hst2 : st2 = final (body st1)).
    { unfold st2. by rewrite (bind_raise _ _ _ _ Hbody). }
    rewrite (bind_raise _ _ _ _ Hbody). cbn [out]. split; [reflexivity|].
    rewrite Hst2. split.
    + by destruct (abort_run (final (body st1)) && fifo_is_running (final (body st1))).
    + by intros ->.
Qed.

Lemma readout_exit_witness :
  let r := readout 1 (raise Samples.F2) ReadoutSamples.sequential_scan in
  out r = Raise Samples.F2
  ∧ _running_readout_t (final r) = [Some "module_0"]
  ∧ fifo_is_running (final r) = true.
Proof.
  pose proof (readout_exit 1 (raise Samples.F2) ReadoutSamples.sequential_scan) as Hexit.
  destruct Hexit as [_ Hraise]; [vm_compute; reflexivity|].
  destruct (Hraise Samples.F2 eq_refl) as (Hout & Hreaders & Hsame).
  split; [exact Hout|]. split.
  - rewrite Hreaders. vm_compute. reflexivity.
  - rewrite (Hsame eq_refl). vm_compute. reflexivity.
Defined.

(** ** Snapshots captured and reapplied *)

Section Quiet.
Variable R : call_rel.
Hypothesis HQ : quiet R.

Lemma quiet_respects_emit ev : is_snapshot ev = false → respects R (emit ev).
Proof. intros Hev st. by apply (quiet_emit R HQ). Qed.

Lemma quiet_respects_modify f :
  (∀ st, restore_config_stack (f st) = restore_config_stack st) → respects R (modify f).
Proof. intros Hf st. apply (quiet_modify R HQ), Hf. Qed.

Ltac quiet_steps :=
  pose proof (quiet_closed R HQ);
  repeat first
    [ respects_step
    | apply quiet_respects_emit; reflexivity
    | apply quiet_respects_modify; intros ?; reflexivity ].

Lemma handle_err_quiet exc : respects R (handle_err exc).
Proof. unfold handle_err, abort. quiet_steps. Qed.

Lemma current_module_handle_quiet : respects R current_module_handle.
Proof. unfold current_module_handle, handle_from_thread_name. quiet_steps. Qed.

Lemma get_module_cfg_quiet h : respects R (get_module_cfg h).
Proof. unfold get_module_cfg. quiet_steps. Qed.

Lemma get_register_quiet : respects R get_register.
Proof.
  pose proof current_module_handle_quiet.
  unfold get_register. quiet_steps; auto.
Qed.

Lemma module_TXs_quiet names : respects R (module_TXs names).
Proof.
  pose proof get_module_cfg_quiet.
  induction names; cbn [module_TXs]; quiet_steps; auto.
Qed.

Lemma dut_TX_output_enable_quiet mask : respects R (dut_TX_output_enable mask).
Proof.
  pose proof get_module_cfg_quiet. pose proof current_module_handle_quiet.
  unfold dut_TX_output_enable. quiet_steps; auto.
Qed.

Lemma access_module_quiet module_id body :
  respects R body → respects R (access_module module_id body).
Proof.
  intros Hbody.
  pose proof dut_TX_output_enable_quiet. pose proof module_TXs_quiet.
  unfold access_module, select_module, deselect_module. quiet_steps; auto.
Qed.

Lemma run_user_code_quiet ev impl :
  (∀ c, is_snapshot (ev c) = false) → respects R (run_user_code ev impl).
Proof.
  intros Hev. pose proof handle_err_quiet.
  unfold run_user_code. quiet_steps; auto.
  apply quiet_respects_emit, Hev.
Qed.

Lemma set_run_mode_quiet : respects R set_run_mode.
Proof. pose proof get_register_quiet. unfold set_run_mode. quiet_steps; auto. Qed.

Lemma set_conf_mode_quiet : respects R set_conf_mode.
Proof. pose proof get_register_quiet. unfold set_conf_mode. quiet_steps; auto. Qed.

Lemma prime_readout_quiet : respects R prime_readout.
Proof. unfold prime_readout. quiet_steps. Qed.

Lemma open_files_quiet : respects R open_files.
Proof.
  pose proof get_module_cfg_quiet. pose proof current_module_handle_quiet.
  unfold open_files. quiet_steps; auto.
Qed.

Lemma close_files_quiet : respects R close_files.
Proof. unfold close_files. quiet_steps. Qed.

Lemma access_files_quiet body : respects R body → respects R (access_files body).
Proof.
  intros Hbody. pose proof open_files_quiet. pose proof close_files_quiet.
  unfold access_files. quiet_steps; auto.
Qed.

Lemma configure_quiet `{ScanClass} : respects R configure.
Proof. unfold configure. by apply run_user_code_quiet. Qed.

Lemma scan_quiet `{ScanClass} : respects R scan.
Proof. unfold scan. by apply run_user_code_quiet. Qed.

Lemma scan_in_run_mode_quiet `{ScanClass} : respects R scan_in_run_mode.
Proof.
  pose proof configure_quiet. pose proof scan_quiet.
  pose proof set_run_mode_quiet. pose proof prime_readout_quiet.
  unfold scan_in_run_mode. quiet_steps; auto.
  by apply access_files_quiet.
Qed.

Lemma join_threads_quiet : respects R join_threads.
Proof. pose proof handle_err_quiet. unfold join_threads. quiet_steps; auto. Qed.

Lemma thread_start_quiet `{ScanClass} t : respects R (thread_start t).
Proof.
  intros st. unfold thread_start. cbn [emitted final out is_return].
  pose proof (quiet_closed R HQ) as Hclosed.
  pose proof (quiet_modify R HQ st (set_current_thread (t_name t) st) eq_refl) as H1.
  pose proof (quiet_returns R HQ _ _ _ _ (scan_quiet (set_current_thread (t_name t) st)))
    as H2.
  set (r := scan (set_current_thread (t_name t) st)) in *.
  pose proof (quiet_modify R HQ (final r) (set_current_thread (current_thread st) (final r))
                eq_refl) as H3.
  pose proof (closed_seq R Hclosed _ _ _ _ _ _ _ H1 H2) as H12.
  pose proof (closed_seq R Hclosed _ _ _ _ _ _ _ H12 H3) as H123.
  cbn in H123. by rewrite app_nil_r in H123.
Qed.

Lemma start_and_join_quiet `{ScanClass} : respects R start_and_join.
Proof.
  pose proof (quiet_closed R HQ).
  assert (Hstart : ∀ ts, respects R (start_threads ts)).
  { induction ts as [|t ts IH]; cbn [start_threads]; repeat respects_step; auto.
    apply thread_start_quiet. }
  pose proof join_threads_quiet.
  unfold start_and_join. quiet_steps; auto.
Qed.

End Quiet.

Lemma captures_app h e1 e2 : captures h (e1 ++ e2) = captures h e1 + captures h e2.
Proof. unfold captures. by rewrite filter_app, length_app. Qed.

Lemma restores_app h e1 e2 : restores h (e1 ++ e2) = restores h e1 + restores h e2.
Proof. unfold restores. by rewrite filter_app, length_app. Qed.

Lemma captures_quiet h ev : is_snapshot ev = false → captures h [ev] = 0.
Proof. intros Hev. unfold captures. rewrite filter_cons, decide_False; [done|]. by intros ->. Qed.

Lemma restores_quiet h ev : is_snapshot ev = false → restores h [ev] = 0.
Proof. intros Hev. unfold restores. rewrite filter_cons, decide_False; [done|]. by intros ->. Qed.

Lemma snapshot_rel_quiet : quiet snapshot_rel.
Proof.
  split; [split|..]; unfold snapshot_rel.
  - done.
  - done.
  - intros st1 e1 b1 st2 e2 b2 st3 H1 H2 h. specialize (H1 h). specialize (H2 h).
    rewrite captures_app, restores_app. lia.
  - intros ev st Hev h. by rewrite captures_quiet, restores_quiet.
  - intros st st' Hstack h. unfold pending. by rewrite Hstack.
  - done.
Qed.

Lemma balanced_quiet : quiet (trace_rel balanced).
Proof.
  split; [apply trace_rel_closed|..]; unfold trace_rel, balanced.
  - done.
  - intros e1 e2 H1 H2 h. rewrite captures_app, restores_app, H1, H2. done.
  - intros ev st Hev h. by rewrite captures_quiet, restores_quiet.
  - done.
  - done.
Qed.

Lemma enter_restored_snapshot_rel : respects snapshot_rel enter_restored.
Proof.
  intros st. unfold enter_restored. rewrite (bind_pure_out _ _ _ (get_register_pure st)).
  destruct (out (get_register st)) as [h|e]; [|done].
  rewrite bind_emit. unfold modify.
  cbn [emitted final out is_return restore_config_stack set_restore_config_stack].
  intros h'. unfold captures, restores, pending.
  cbn [restore_config_stack set_restore_config_stack].
  rewrite !filter_cons, !filter_nil.
  repeat case_decide; try congruence; cbn [length]; lia.
Qed.

Lemma restores_stack (h : handle) (stack : list handle) :
  restores h (ev_restore <$> stack) = length (filter (λ g, g = h) stack)
  ∧ captures h (ev_restore <$> stack) = 0.
Proof.
  unfold restores, captures. induction stack as [|g stack [IH1 IH2]]; [done|].
  rewrite fmap_cons, !filter_cons. split.
  - repeat case_decide; try congruence; cbn [length]; by rewrite IH1.
  - by rewrite decide_False.
Qed.

(** The block of an [ExitStack]: what the body captures, the exit
    reapplies. *)
Lemma with_exit_stack_balanced (body : M unit) :
  respects snapshot_rel body → respects (trace_rel balanced) (with_exit_stack body).
Proof.
  intros Hbody st. unfold trace_rel, with_exit_stack. rewrite bind_modify.
  unfold try_finally. cbn [emitted].
  pose proof (Hbody (set_restore_config_stack [] st)) as Hb.
  rewrite bind_gets, bind_eq, for_each_emit. cbn [out final emitted].
  rewrite app_nil_r. intros h. specialize (Hb h).
  destruct (restores_stack h (restore_config_stack
                                (final (body (set_restore_config_stack [] st)))))
    as [Hr Hc].
  rewrite captures_app, restores_app, Hr, Hc.
  unfold pending in Hb. cbn in Hb. lia.
Qed.

(** The block of [register.restored]. *)
Lemma with_restored_balanced (body : M unit) :
  respects (trace_rel balanced) body → respects (trace_rel balanced) (with_restored body).
Proof.
  intros Hbody st. unfold trace_rel, with_restored.
  rewrite (bind_pure_out _ _ _ (get_register_pure st)).
  destruct (out (get_register st)) as [h|e]; [|done].
  rewrite bind_emit. unfold try_finally. cbn [emitted emit final].
  specialize (Hbody st). unfold trace_rel in Hbody. intros h'.
  change (ev_create_restore_point h :: emitted (body st) ++ [ev_restore h])
    with ([ev_create_restore_point h] ++ emitted (body st) ++ [ev_restore h]).
  rewrite !captures_app, !restores_app, (Hbody h').
  unfold captures, restores. rewrite !filter_cons, !filter_nil.
  repeat case_decide; try congruence; cbn [length]; lia.
Qed.

Section Balance.
Context `{ScanClass}.

Ltac snapshot_step :=
  lazymatch goal with
  | |- respects _ (modify _) =>
      apply quiet_respects_modify; [assumption | intros ?; reflexivity]
  | |- respects _ (access_module _ _) => apply access_module_quiet; [assumption|]
  | |- respects _ (access_files _) => apply access_files_quiet; [assumption|]
  | |- respects _ enter_restored => apply enter_restored_snapshot_rel
  | |- respects _ start_and_join => apply start_and_join_quiet; assumption
  | |- respects _ configure => apply configure_quiet; assumption
  | |- respects _ scan => apply scan_quiet; assumption
  | |- respects _ set_run_mode => apply set_run_mode_quiet; assumption
  | |- respects _ set_conf_mode => apply set_conf_mode_quiet; assumption
  | |- respects _ prime_readout => apply prime_readout_quiet; assumption
  | |- respects _ (with_exit_stack _) => apply with_exit_stack_balanced
  | |- respects _ (with_restored _) => apply with_restored_balanced
  | |- _ => respects_step
  end.

Lemma exit_stack_block (body : M unit) :
  (quiet snapshot_rel → closed snapshot_rel → respects snapshot_rel body) →
  respects (trace_rel balanced) (with_exit_stack body).
Proof.
  intros Hbody. apply with_exit_stack_balanced, Hbody.
  - apply snapshot_rel_quiet.
  - apply (quiet_closed _ snapshot_rel_quiet).
Qed.

Lemma do_run_broadcast_threaded_balanced :
  respects (trace_rel balanced) do_run_broadcast_threaded.
Proof.
  pose proof balanced_quiet as HQ. pose proof (quiet_closed _ HQ) as Hclosed.
  unfold do_run_broadcast_threaded.
  apply respects_bind; [done|by apply respects_gets|intros groups].
  apply respects_bind; [done|by apply respects_gets|intros modules].
  apply respects_bind; [done| |intros _].
  - apply exit_stack_block. clear HQ Hclosed. intros HQ Hclosed. repeat snapshot_step.
  - repeat snapshot_step.
Qed.

Lemma do_run_broadcast_sequential_balanced :
  respects (trace_rel balanced) do_run_broadcast_sequential.
Proof.
  pose proof balanced_quiet as HQ. pose proof (quiet_closed _ HQ) as Hclosed.
  unfold do_run_broadcast_sequential.
  apply respects_bind; [done|by apply respects_gets|intros groups].
  apply respects_for_unless_abort; [done|intros [tx_module_id tx_group]].
  apply respects_bind; [done| |intros _].
  - apply exit_stack_block. clear HQ Hclosed. intros HQ Hclosed. repeat snapshot_step.
  - repeat snapshot_step.
Qed.

Lemma do_run_individual_threaded_balanced :
  respects (trace_rel balanced) do_run_individual_threaded.
Proof.
  pose proof balanced_quiet as HQ. pose proof (quiet_closed _ HQ) as Hclosed.
  unfold do_run_individual_threaded.
  apply respects_bind; [done| |intros _]; [snapshot_step|].
  apply respects_bind; [done|by apply respects_gets|intros groups].
  apply respects_for_unless_abort; [done|intros tx_module_ids].
  apply respects_bind; [done| |intros _].
  - apply exit_stack_block. clear HQ Hclosed. intros HQ Hclosed. repeat snapshot_step.
  - repeat snapshot_step.
Qed.

Lemma do_run_individual_sequential_balanced :
  respects (trace_rel balanced) do_run_individual_sequential.
Proof.
  pose proof balanced_quiet as HQ. pose proof (quiet_closed _ HQ) as Hclosed.
  unfold do_run_individual_sequential.
  repeat snapshot_step.
  by apply scan_in_run_mode_quiet.
Qed.

End Balance.

(** X17: [do_run] reapplies every register snapshot it captures.  In each
    of the four strategies, whatever the scan class does (its methods may
    report faults and may raise) and whether or not the run is aborted on the
    way, the snapshot of every handle is restored exactly as often as it is
    captured. *)
Theorem do_run_restores_every_snapshot `{ScanClass} (st : run) (h : handle) :
  captures h (emitted (do_run st)) = restores h (emitted (do_run st)).
Proof.
  pose proof balanced_quiet as HQ. pose proof (quiet_closed _ HQ) as Hclosed.
  assert (Hrun : respects (trace_rel balanced) do_run).
  { unfold do_run.
    apply respects_bind; [done|by apply respects_gets|intros broadcast].
    apply respects_bind; [done|by apply respects_gets|intros threaded].
    apply respects_bind; [done| |intros _].
    - destruct broadcast, threaded.
      + apply do_run_broadcast_threaded_balanced.
      + apply do_run_broadcast_sequential_balanced.
      + apply do_run_individual_threaded_balanced.
      + apply do_run_individual_sequential_balanced.
    - by apply quiet_respects_emit. }
  apply (Hrun st).
Qed.

(** ** Aborted runs *)

Lemma aborted_rel_closed : closed aborted_rel.
Proof.
  split; unfold aborted_rel.
  - done.
  - done.
  - intros st1 e1 b1 st2 e2 b2 st3 H1 H2 Hab.
    destruct (H1 Hab) as (Hab2 & He1 & Hs1). destruct (H2 Hab2) as (Hab3 & He2 & Hs2).
    split; [done|]. split; [by apply Forall_app | congruence].
Qed.

Lemma aborted_emit ev : acts_on_chip ev = false → respects aborted_rel (emit ev).
Proof. intros Hev st Hab. split; [done|]. split; [by repeat constructor | done]. Qed.

Lemma aborted_modify f :
  (∀ st, abort_run (f st) = abort_run st
         ∧ restore_config_stack (f st) = restore_config_stack st) →
  respects aborted_rel (modify f).
Proof.
  intros Hf st Hab. destruct (Hf st) as [Hab' Hstack]. cbn.
  split; [by rewrite Hab'|]. split; [constructor | done].
Qed.

Ltac aborted_steps :=
  pose proof aborted_rel_closed;
  repeat first
    [ respects_step
    | apply aborted_emit; reflexivity
    | apply aborted_modify; intros ?; split; reflexivity ].

Lemma current_module_handle_aborted : respects aborted_rel current_module_handle.
Proof. unfold current_module_handle, handle_from_thread_name. aborted_steps. Qed.

Lemma get_module_cfg_aborted h : respects aborted_rel (get_module_cfg h).
Proof. unfold get_module_cfg. aborted_steps. Qed.

Lemma module_TXs_aborted names : respects aborted_rel (module_TXs names).
Proof.
  pose proof get_module_cfg_aborted.
  induction names; cbn [module_TXs]; aborted_steps; auto.
Qed.

Lemma dut_TX_output_enable_aborted mask : respects aborted_rel (dut_TX_output_enable mask).
Proof.
  pose proof get_module_cfg_aborted. pose proof current_module_handle_aborted.
  unfold dut_TX_output_enable. aborted_steps; auto.
Qed.

Lemma access_module_aborted module_id body :
  respects aborted_rel body → respects aborted_rel (access_module module_id body).
Proof.
  intros Hbody.
  pose proof dut_TX_output_enable_aborted. pose proof module_TXs_aborted.
  unfold access_module, select_module, deselect_module. aborted_steps; auto.
Qed.

Lemma open_files_aborted : respects aborted_rel open_files.
Proof.
  pose proof get_module_cfg_aborted. pose proof current_module_handle_aborted.
  unfold open_files. aborted_steps; auto.
Qed.

Lemma access_files_aborted body :
  respects aborted_rel body → respects aborted_rel (access_files body).
Proof.
  intros Hbody. pose proof open_files_aborted.
  unfold access_files, close_files. aborted_steps; auto.
Qed.

Lemma for_unless_abort_aborted {A} (l : list A) (body : A → M unit) (st : run) :
  abort_run st = true → for_unless_abort l body st = mk_result [] st (Return ()).
Proof.
  intros Hab. destruct l as [|x l]; cbn [for_unless_abort]; [reflexivity|].
  by rewrite bind_gets, Hab.
Qed.

Lemma for_unless_abort_aborted_rel {A} (l : list A) (body : A → M unit) :
  respects aborted_rel (for_unless_abort l body).
Proof.
  intros st Hab. rewrite (for_unless_abort_aborted l body st Hab). cbn.
  split; [done|]. split; [constructor | done].
Qed.

Lemma with_exit_stack_aborted (body : M unit) (st : run) :
  respects aborted_rel body → abort_run st = true →
  abort_run (final (with_exit_stack body st)) = true
  ∧ Forall (λ ev, acts_on_chip ev = false) (emitted (with_exit_stack body st)).
Proof.
  intros Hbody Hab. unfold with_exit_stack. rewrite bind_modify. unfold try_finally.
  destruct (Hbody (set_restore_config_stack [] st) Hab) as (Hab1 & Hev1 & Hstack1).
  set (st1 := final (body (set_restore_config_stack [] st))) in *.
  change (restore_config_stack (set_restore_config_stack [] st)) with (@nil handle)
    in Hstack1.
  rewrite bind_gets, Hstack1. cbn [for_each]. rewrite bind_ret_l.
  unfold modify. cbn [out final emitted]. rewrite app_nil_r. done.
Qed.

Section Aborted.
Context `{ScanClass}.

Lemma threads_of_an_aborted_run (groups : list string) (st : run) :
  abort_run st = true →
  (modify (set_scan_threads []) ;;
   for_unless_abort groups
     (λ module_id,
        modify (λ st, set_scan_threads
                        (_scan_threads st ++ [new_thread (Some module_id)]) st)) ;;
   start_and_join ;;
   modify (set_scan_threads [])) st
  = mk_result [] (set_scan_threads [] st) (Return ()).
Proof.
  intros Hab. rewrite bind_modify, bind_eq.
  rewrite (for_unless_abort_aborted _ _ (set_scan_threads [] st) Hab).
  cbn [out final emitted]. reflexivity.
Qed.

Lemma do_run_broadcast_threaded_aborted (st : run) :
  abort_run st = true →
  Forall (λ ev, acts_on_chip ev = false) (emitted (do_run_broadcast_threaded st)).
Proof.
  intros Hab. pose proof aborted_rel_closed as Hclosed.
  unfold do_run_broadcast_threaded. rewrite !bind_gets.
  set (groups := keys (_tx_module_groups st)). set (modules := keys (_modules st)).
  assert (Hbody : respects aborted_rel
            (for_unless_abort (groups ++ modules)
               (λ module_id, access_module (Some module_id) (enter_restored ;; configure)) ;;
             for_unless_abort groups
               (λ module_id, access_module (Some module_id) set_run_mode) ;;
             prime_readout ;;
             access_module None
               (access_files
                  (modify (set_scan_threads []) ;;
                   for_unless_abort groups
                     (λ module_id,
                        modify (λ st, set_scan_threads
                                        (_scan_threads st ++ [new_thread (Some module_id)])
                                        st)) ;;
                   start_and_join ;;
                   modify (set_scan_threads []))))).
  { apply respects_bind; [done|apply for_unless_abort_aborted_rel|intros _].
    apply respects_bind; [done|apply for_unless_abort_aborted_rel|intros _].
    apply respects_bind; [done|unfold prime_readout; aborted_steps|intros _].
    apply access_module_aborted, access_files_aborted.
    intros st' Hab'. rewrite (threads_of_an_aborted_run _ st' Hab'). cbn.
    split; [done|]. split; [constructor | done]. }
  rewrite bind_eq.
  destruct (with_exit_stack_aborted _ st Hbody Hab) as [Hab1 Hev1].
  destruct (out (with_exit_stack _ st)); cbn [emitted]; [|done].
  rewrite for_unless_abort_aborted by done. by rewrite app_nil_r.
Qed.

(** X18: a run whose abort flag is set when [do_run] starts does nothing to
    the chips: in none of the four strategies is a method of the scan class
    called, a chip mode switched, a register snapshot captured or reapplied,
    or the FIFO readout started.  Unless commands are broadcast to scan
    threads, [do_run] only prints the readout status and returns. *)
Theorem do_run_of_an_aborted_run (st : run) :
  abort_run st = true →
  Forall (λ ev, acts_on_chip ev = false) (emitted (do_run st))
  ∧ (broadcast_commands st && threaded_scan st = false →
     emitted (do_run st) = [ev_print_readout_status] ∧ out (do_run st) = Return ()).
Proof.
  intros Hab. unfold do_run. rewrite !bind_gets.
  destruct (broadcast_commands st), (threaded_scan st); cbn [andb].
  - split; [|done]. rewrite bind_eq.
    pose proof (do_run_broadcast_threaded_aborted st Hab) as Hev.
    destruct (out (do_run_broadcast_threaded st)); cbn [emitted]; [|done].
    apply Forall_app. split; [done | by repeat constructor].
  - assert (Hrun : do_run_broadcast_sequential st = mk_result [] st (Return ())).
    { unfold do_run_broadcast_sequential.
      by rewrite bind_gets, for_unless_abort_aborted. }
    rewrite bind_eq, Hrun. cbn. split; [by repeat constructor | done].
  - assert (Hrun : do_run_individual_threaded st
                   = mk_result [] (set_scan_threads [] st) (Return ())).
    { unfold do_run_individual_threaded.
      by rewrite bind_modify, bind_gets, for_unless_abort_aborted. }
    rewrite bind_eq, Hrun. cbn. split; [by repeat constructor | done].
  - assert (Hrun : do_run_individual_sequential st = mk_result [] st (Return ())).
    { unfold do_run_individual_sequential.
      by rewrite bind_gets, for_unless_abort_aborted. }
    rewrite bind_eq, Hrun. cbn. split; [by repeat constructor | done].
Qed.

End Aborted.

Lemma do_run_of_an_aborted_run_witness :
  emitted (@do_run Samples.quiet_scan
             (set_abort_run true (Samples.ready false false false Samples.two_modules)))
  = [ev_print_readout_status].
Proof.
  apply (@do_run_of_an_aborted_run Samples.quiet_scan
           (set_abort_run true (Samples.ready false false false Samples.two_modules))
           eq_refl).
  reflexivity.
Defined.

(** ** Attributes read back *)

(** X19: an attribute assigned on an initialized run object is read back
    under the same module handle.  For a name that is not in the instance
    dict, [__setattr__] stores the value in the attribute map of the current
    handle, leaving the other attributes of that handle as they are, and
    [__getattr__] under that handle then returns the value, whatever the base
    class would answer for the name: the module attribute comes first. *)
Theorem attribute_read_back (RunBase_getattr : string → outcome value) (st : run)
    (h : handle) (name : string) (v : value) (attrs : gmap string value) :
  is_initialized st = true →
  in_dict name st = false →
  out (current_module_handle st) = Return h →
  _module_attr st !! h = Some attrs →
  let w := __setattr__ name v st in
  out w = Return ()
  ∧ emitted w = []
  ∧ _module_attr (final w) !! h = Some (<[name := v]> attrs)
  ∧ __getattr__ RunBase_getattr name (final w) = mk_result [] (final w) (Return v).
Proof.
  intros Hinit Hdict Hh Hattrs. cbn zeta.
  set (st' := set_module_attr (<[h := <[name := v]> attrs]> (_module_attr st)) st).
  assert (Hw : __setattr__ name v st = mk_result [] st' (Return ())).
  { unfold __setattr__. rewrite bind_gets. unfold id. rewrite Hinit, Hdict.
    cbn [negb andb]. rewrite (bind_current_module_handle _ _ _ Hh).
    unfold get_module_attr. rewrite bind_eq, bind_gets, Hattrs. reflexivity. }
  rewrite Hw. cbn [out final emitted].
  split; [done|]. split; [done|].
  assert (Hlook : _module_attr st' !! h = Some (<[name := v]> attrs))
    by apply lookup_insert_eq.
  split; [exact Hlook|].
  assert (Hinit' : is_initialized st' = true) by exact Hinit.
  assert (Hh' : out (current_module_handle st') = Return h).
  { rewrite <- Hh. apply current_module_handle_untouched. by repeat split. }
  clearbody st'.
  unfold __getattr__. rewrite bind_gets. unfold id. rewrite Hinit'.
  rewrite bind_eq, (bind_current_module_handle _ _ _ Hh').
  unfold get_module_attr. rewrite bind_eq, bind_gets, Hlook.
  cbn [out final emitted ret]. rewrite lookup_insert_eq. reflexivity.
Qed.

Lemma attribute_read_back_witness :
  let st := set_current_module_handle (Some "module_0")
              (Samples.ready false false false Samples.two_modules) in
  let w := __setattr__ "n_injections" (VInt 100) st in
  out w = Return ()
  ∧ emitted w = []
  ∧ _module_attr (final w) !! Some "module_0" = Some (<["n_injections" := VInt 100]> ∅)
  ∧ __getattr__ Samples.no_attribute "n_injections" (final w)
    = mk_result [] (final w) (Return (VInt 100)).
Proof.
  apply (attribute_read_back Samples.no_attribute
           (set_current_module_handle (Some "module_0")
              (Samples.ready false false false Samples.two_modules))
           (Some "module_0") "n_injections" (VInt 100) ∅).
  - reflexivity.
  - vm_compute. reflexivity.
  - vm_compute. reflexivity.
  - vm_compute. reflexivity.
Defined.

(** ** Raw data files of a handle without modules *)

Lemma open_files_unbound (st : run) (name : string) :
  out (current_module_handle st) = Return (Some name) →
  _modules st !! name = None →
  _tx_module_groups st !! name = None →
  open_files st
  = mk_result [] st (Raise (new_exc UnboundLocalError "selected_modules" "open_files")).
Proof.
  intros Hh Hmod Hgroup. unfold open_files.
  rewrite (bind_current_module_handle _ _ _ Hh), !bind_gets.
  destruct (decide (is_Some (_modules st !! name))) as [[? Hm]|_]; [congruence|].
  rewrite Hgroup. reflexivity.
Qed.

Lemma select_module_without_modules (st : run) (name : string) (cfg : module_cfg) :
  _module_cfgs st !! Some name = Some cfg →
  _modules st !! name = None →
  _tx_module_groups st !! name = None →
  select_module (Some name) st
  = mk_result [] (set_current_module_handle (Some name) st) (Return ()).
Proof.
  intros Hcfg Hmod Hgroup.
  unfold select_module. rewrite bind_gets, Hcfg, bind_modify, !bind_gets.
  cbn [_modules _tx_module_groups set_current_module_handle].
  destruct (decide (is_Some (_modules st !! name))) as [[? Hm]|_]; [congruence|].
  destruct (decide (is_Some (_tx_module_groups st !! name))) as [[? Hg]|_];
    [congruence|].
  reflexivity.
Qed.

Lemma access_files_unbound (st : run) (name : string) (body : M unit) :
  out (current_module_handle st) = Return (Some name) →
  _modules st !! name = None →
  _tx_module_groups st !! name = None →
  access_files body st
  = mk_result [] (set_raw_data_file None (set_raw_data_files [] st))
      (Raise (new_exc UnboundLocalError "selected_modules" "open_files")).
Proof.
  intros Hh Hmod Hgroup. unfold access_files, try_finally.
  rewrite bind_eq, (open_files_unbound st name Hh Hmod Hgroup).
  cbn [out final emitted]. rewrite !bind_modify. reflexivity.
Qed.

Lemma access_module_without_modules (st : run) (name : string) (cfg : module_cfg)
    (body : M unit) :
  _module_cfgs st !! Some name = Some cfg →
  _modules st !! name = None →
  _tx_module_groups st !! name = None →
  access_module (Some name) (access_files body) st
  = mk_result []
      (set_current_module_handle None
         (set_raw_data_file None
            (set_raw_data_files [] (set_current_module_handle (Some name) st))))
      (Raise (new_exc UnboundLocalError "selected_modules" "open_files")).
Proof.
  intros Hcfg Hmod Hgroup.
  pose proof (select_module_without_modules st name cfg Hcfg Hmod Hgroup) as Hsel.
  assert (Hh : out (current_module_handle (set_current_module_handle (Some name) st))
               = Return (Some name)).
  { apply (f_equal out (current_module_handle_set
                          (set_current_module_handle (Some name) st) name eq_refl)). }
  pose proof (access_files_unbound _ name body Hh Hmod Hgroup) as Hfiles.
  rewrite access_module_eq.
  assert (Hseq : (select_module (Some name) ≫= λ _, access_files body ≫= λ _, deselect_module)
                   st
                 = mk_result []
                     (set_raw_data_file None
                        (set_raw_data_files [] (set_current_module_handle (Some name) st)))
                     (Raise (new_exc UnboundLocalError "selected_modules" "open_files"))).
  { rewrite bind_eq, Hsel. cbn [out final emitted]. rewrite bind_eq, Hfiles. reflexivity. }
  rewrite Hseq. reflexivity.
Qed.

(** X20: a handle that is a key of [_module_cfgs] but neither a module nor a
    command-line group (the FIFO group is one) can be selected, but its raw
    data files cannot be opened: in [open_files] the RuntimeError of the last
    branch is built and not raised, and the loop then finds
    [selected_modules] unbound.  [access_files] under such a handle raises
    that UnboundLocalError; its body is not entered, no driver is written,
    and the module pointer is None afterwards. *)
Theorem access_files_without_modules (st : run) (name : string) (cfg : module_cfg)
    (body : M unit) :
  _module_cfgs st !! Some name = Some cfg →
  _modules st !! name = None →
  _tx_module_groups st !! name = None →
  let r := access_module (Some name) (access_files body) st in
  out r = Raise (new_exc UnboundLocalError "selected_modules" "open_files")
  ∧ emitted r = []
  ∧ _current_module_handle (final r) = None
  ∧ _raw_data_files (final r) = [].
Proof.
  intros Hcfg Hmod Hgroup. cbn zeta.
  rewrite (access_module_without_modules st name cfg body Hcfg Hmod Hgroup).
  repeat split.
Qed.

Lemma access_files_without_modules_witness :
  let r := access_module (Some "module_group_FIFO=SRAM") (access_files (emit ev_reset_rx))
             (Samples.ready false false false Samples.two_modules) in
  out r = Raise (new_exc UnboundLocalError "selected_modules" "open_files")
  ∧ emitted r = []
  ∧ _current_module_handle (final r) = None
  ∧ _raw_data_files (final r) = [].
Proof.
  assert (Hcfg : is_Some (_module_cfgs (Samples.ready false false false Samples.two_modules)
                            !! Some "module_group_FIFO=SRAM"))
    by (vm_compute; eauto).
  destruct Hcfg as [cfg Hcfg].
  apply (access_files_without_modules _ "module_group_FIFO=SRAM" cfg _ Hcfg).
  - vm_compute. reflexivity.
  - vm_compute. reflexivity.
Defined.

(** ** Reading and writing several drivers at once *)

Import Handles.

Lemma collect_Return {A B} (f : A → outcome B) (l : list A) (ys : list B) :
  collect f l = Return ys ↔ Forall2 (λ x y, f x = Return y) l ys.
Proof.
  revert ys. induction l as [|x l IH]; intros ys; cbn [collect].
  - split; [intros [= <-]; constructor | by intros ->%Forall2_nil_inv_l].
  - split.
    + destruct (f x) as [y|e] eqn:Hx; [|done].
      destruct (collect f l) as [ys'|e] eqn:Hl; [|done].
      intros [= <-]. constructor; [done | by apply IH].
    + intros (y & ys' & Hx & Hl & ->)%Forall2_cons_inv_l.
      rewrite Hx. apply IH in Hl. by rewrite Hl.
Qed.

Lemma remove_dups_singleton {A} `{EqDecision A} (l : list A) (v : A) :
  remove_dups l = [v] ↔ l ≠ [] ∧ ∀ x, x ∈ l → x = v.
Proof.
  split.
  - intros Hrd. split.
    + intros ->. discriminate.
    + intros x Hx. apply elem_of_remove_dups in Hx. rewrite Hrd in Hx.
      by apply list_elem_of_singleton in Hx.
  - intros [Hne Hall].
    assert (Hsub : ∀ x, x ∈ remove_dups l → x = v)
      by (intros x Hx; by apply Hall, elem_of_remove_dups).
    pose proof (NoDup_remove_dups l) as Hnd.
    destruct l as [|y l]; [done|].
    assert (Hy : y ∈ remove_dups (y :: l)) by (apply elem_of_remove_dups; by left).
    destruct (remove_dups (y :: l)) as [|a [|b rest]].
    + by apply elem_of_nil in Hy.
    + f_equal. apply Hsub. by left.
    + apply NoDup_cons in Hnd as [Hnot _]. destruct Hnot.
      rewrite (Hsub a) by (by left). rewrite (Hsub b) by (right; by left). by left.
Qed.

Section RhlHandleProps.
Context {D : Type} `{!Dut D}.

(** X21: [RhlHandle.__getitem__] returns a value exactly when every driver
    of the handle returns that value for the item, and there is at least one
    driver.  If a read raises, the first such exception passes through; if
    all reads return but not the same value, or the handle has no drivers,
    the result is the RuntimeError. *)
Theorem RhlHandle_getitem_agrees (dut : D) (module_names : list string) (name : string)
    (v : Z) :
  (RhlHandle_getitem dut module_names name = Return v
   ↔ module_names ≠ [] ∧ ∀ m, m ∈ module_names → dut_get dut m name = Return v)
  ∧ ((∀ m, m ∈ module_names → ∃ w, dut_get dut m name = Return w) →
     (¬ ∃ w, module_names ≠ [] ∧ ∀ m, m ∈ module_names → dut_get dut m name = Return w) →
     RhlHandle_getitem dut module_names name = Raise different_values).
Proof.
  assert (Hiff : ∀ w, RhlHandle_getitem dut module_names name = Return w
                      ↔ module_names ≠ []
                        ∧ ∀ m, m ∈ module_names → dut_get dut m name = Return w).
  { intros w. unfold RhlHandle_getitem.
    destruct (collect _ module_names) as [values|e] eqn:Hvalues.
    - apply collect_Return in Hvalues. split.
      + destruct (remove_dups values) as [|a [|b rest]] eqn:Hrd; try done.
        intros Hw. apply remove_dups_singleton in Hrd as [Hne Hall].
        destruct values as [|y values]; [done|]. cbn in Hw.
        injection Hw as <-. split.
        * intros ->. by apply Forall2_nil_inv_l in Hvalues.
        * intros m Hm. apply list_elem_of_lookup_1 in Hm as [i Hi].
          destruct (Forall2_lookup_l _ _ _ _ _ Hvalues Hi) as (y' & Hy' & Hget).
          rewrite Hget. f_equal. rewrite (Hall y') by (by eapply list_elem_of_lookup_2).
          symmetry. apply Hall. by left.
      + intros [Hne Hall].
        assert (Hrd : remove_dups values = [w]).
        { apply remove_dups_singleton. split.
          - intros ->. by apply Forall2_nil_inv_r in Hvalues.
          - intros y Hy. apply list_elem_of_lookup_1 in Hy as [i Hi].
            destruct (Forall2_lookup_r _ _ _ _ _ Hvalues Hi) as (m & Hm & Hget).
            rewrite (Hall m) in Hget by (by eapply list_elem_of_lookup_2). congruence. }
        rewrite Hrd. f_equal.
        destruct values as [|y values]; [done|]. cbn.
        apply remove_dups_singleton in Hrd as [_ Hall']. apply Hall'. by left.
    - split; [done|]. intros [_ Hall]. exfalso.
      assert (Hok : Forall2 (λ m y, dut_get dut m name = Return y) module_names
                      (replicate (length module_names) w)).
      { clear Hvalues. induction module_names as [|m l IH]; [constructor|].
        cbn. constructor; [apply Hall; by left|].
        apply IH. intros m' Hm'. apply Hall. by right. }
      apply collect_Return in Hok. congruence. }
  split; [apply Hiff|].
  intros Hreads Hnot. unfold RhlHandle_getitem.
  destruct (collect _ module_names) as [values|e] eqn:Hvalues.
  - destruct (remove_dups values) as [|a [|b rest]] eqn:Hrd; try done.
    destruct Hnot. exists (default 0%Z (head values)). apply Hiff.
    unfold RhlHandle_getitem. by rewrite Hvalues, Hrd.
  - exfalso. clear Hnot Hiff.
    revert e Hvalues. induction module_names as [|m l IH]; intros e; cbn [collect]; [done|].
    destruct (Hreads m) as [w Hw]; [by left|]. rewrite Hw.
    destruct (collect _ l) as [ys|e'] eqn:Hl; [done|].
    intros _. eapply IH; [|reflexivity]. intros m' Hm'. apply Hreads. by right.
Qed.

Lemma RhlHandle_setitem_returns (dut dut' : D) (module_names : list string) (name : string)
    (v : Z) :
  stores D → NoDup module_names →
  RhlHandle_setitem dut module_names name v = (dut', None) →
  (∀ m, m ∈ module_names → dut_get dut' m name = Return v)
  ∧ ∀ m' name', (m' ∉ module_names ∨ name' ≠ name) →
      dut_get dut' m' name' = dut_get dut m' name'.
Proof.
  intros [Hget Hother] Hnd. revert dut.
  induction Hnd as [|m l Hfresh Hnd IH]; intros dut; cbn [RhlHandle_setitem].
  - intros [= <-]. split; [by intros m ?%elem_of_nil | done].
  - destruct (dut_set dut m name v) as [dut1|e] eqn:Hset; [|done].
    intros Hrest. destruct (IH dut1 Hrest) as [Hin Hout]. split.
    + intros m' [->|Hm']%elem_of_cons; [|by apply Hin].
      rewrite Hout by (by left). by eapply Hget.
    + intros m' name' Hfar. rewrite Hout.
      * eapply Hother; [done|]. intros [= -> ->].
        destruct Hfar as [Hfar|Hfar]; [apply Hfar; by left | done].
      * destruct Hfar as [Hfar|Hfar]; [left|by right].
        intros Hin'. apply Hfar. by right.
Qed.

(** X22: what [RhlHandle] writes it reads back.  On a DUT that stores its
    items, for a handle made by [RhlHandle.__init__] (so without duplicate
    drivers) with at least one driver: when [__setitem__] returns,
    [__getitem__] of the same item returns the value written, and every item
    of a driver outside the handle, and every other item, reads as before. *)
Theorem RhlHandle_reads_back (dut dut' : D) (given module_names : list string)
    (name : string) (v : Z) :
  stores D →
  RhlHandle_init dut given = Return module_names →
  module_names ≠ [] →
  RhlHandle_setitem dut module_names name v = (dut', None) →
  RhlHandle_getitem dut' module_names name = Return v
  ∧ ∀ m' name', (m' ∉ module_names ∨ name' ≠ name) →
      dut_get dut' m' name' = dut_get dut m' name'.
Proof.
  intros Hstores Hinit Hne Hset.
  assert (Hnd : NoDup module_names).
  { unfold RhlHandle_init in Hinit.
    destruct (decide (length (remove_dups given) ≠ length given)) as [|Hlen]; [done|].
    assert (Hgiven : NoDup given).
    { apply dec_stable in Hlen. by apply length_remove_dups_NoDup. }
    destruct given as [|g given]; [by injection Hinit as <-|].
    destruct (collect _ _); [|done]. destruct (forallb id _); [|done].
    by injection Hinit as <-. }
  destruct (RhlHandle_setitem_returns dut dut' module_names name v Hstores Hnd Hset)
    as [Hin Hout].
  split; [|exact Hout].
  by apply (proj1 (RhlHandle_getitem_agrees dut' module_names name v)).
Qed.

End RhlHandleProps.

Lemma dict_dut_stores : stores (gmap string driver).
Proof.
  split.
  - intros dut dut' m name v. cbn.
    destruct (dut !! m) as [drv|] eqn:Hm; [|done]. intros [= <-].
    by rewrite lookup_insert_eq; cbn; rewrite lookup_insert_eq.
  - intros dut dut' m name v m' name'. cbn.
    destruct (dut !! m) as [drv|] eqn:Hm; [|done]. intros [= <-] Hne.
    destruct (decide (m' = m)) as [->|Hm'].
    + rewrite lookup_insert_eq, Hm. cbn.
      rewrite lookup_insert_ne; [done|]. intros ->. by apply Hne.
    + by rewrite lookup_insert_ne.
Qed.

Lemma RhlHandle_getitem_agrees_witness :
  RhlHandle_getitem two_receivers ["DATA_CH0"; "DATA_CH1"] "ENABLE_RX" = Return 0%Z.
Proof.
  apply (proj1 (RhlHandle_getitem_agrees two_receivers ["DATA_CH0"; "DATA_CH1"]
                  "ENABLE_RX" 0%Z)).
  split; [done|].
  apply (proj1 (Forall_forall
    (λ m, dut_get two_receivers m "ENABLE_RX" = Return 0%Z) ["DATA_CH0"; "DATA_CH1"])).
  repeat constructor.
Defined.

Lemma RhlHandle_reads_back_witness :
  ∃ dut',
    RhlHandle_setitem two_receivers ["DATA_CH0"; "DATA_CH1"] "ENABLE_RX" 1%Z = (dut', None)
    ∧ RhlHandle_getitem dut' ["DATA_CH0"; "DATA_CH1"] "ENABLE_RX" = Return 1%Z.
Proof.
  eexists. split; [reflexivity|].
  apply (RhlHandle_reads_back two_receivers _ ["DATA_CH0"; "DATA_CH1"]
           ["DATA_CH0"; "DATA_CH1"] "ENABLE_RX" 1%Z);
    [apply dict_dut_stores | vm_compute; reflexivity | done | reflexivity].
Defined.
